(** * The log pipeline of the Dokploy extension (src/views/logs-webview.ts)

    A shallow embedding of the log view: the line parser [parseLogLine], the
    classifier [getLogType], the renderer ([escapeHtml], [formatTimestamp],
    the line templates of [updateContent] and [formatLogLine]) and the
    [LogsWebview] class with its WebSocket and webview-message handlers,
    followed by the properties of the pipeline that were checked against it.

    JavaScript strings are sequences of UTF-16 code units; they are modelled
    as lists of [N].  The regular expressions of the source are kept as data
    and run by a backtracking matcher that follows the ECMAScript semantics
    of the constructs they use.

    The other services of the extension follow the log view: the git
    service (src/services/git-service.ts), the deployments provider
    (src/providers/deployments-provider.ts), the configuration service
    (src/services/config-service.ts) and the command of src/extension.ts
    that opens an application in the browser, each with its properties at
    the end of the file. *)

From Stdlib Require Import List NArith ZArith Bool Lia String Ascii.
From Stdlib.Strings Require Byte.
Import ListNotations.

(* ================================================================== *)
(** * JavaScript strings *)

Module JS.

(** A code unit, and a string. *)
Abbreviation char := N (only parsing).
Abbreviation str := (list N) (only parsing).

(** An ASCII literal of the source as a list of code units. *)
Definition lit (s : string) : str := map N_of_ascii (list_ascii_of_string s).

(** Markup literals are written with an apostrophe where the source has a
    double quote (code unit 34); none of the markup templates of the source
    contains an apostrophe of its own. *)
Definition markup (s : string) : str :=
  map (fun c => if N.eqb c 39 then 34%N else c) (lit s).

(** The code unit of an ASCII character. *)
Definition chr (a : ascii) : char := N_of_ascii a.
Arguments chr a%_char.

Definition LF : char := 10%N.
Definition CR : char := 13%N.

(** LineTerminator of ECMAScript: LF, CR, LS, PS. *)
Definition isLineTerminator (c : char) : bool :=
  N.eqb c 10 || N.eqb c 13 || N.eqb c 8232 || N.eqb c 8233.

(** WhiteSpace and LineTerminator of ECMAScript: what [String.prototype.trim]
    strips and what the class escape \s matches. *)
Definition isWhiteSpace (c : char) : bool :=
  N.eqb c 9 || N.eqb c 10 || N.eqb c 11 || N.eqb c 12 || N.eqb c 13
  || N.eqb c 32 || N.eqb c 160 || N.eqb c 5760
  || (N.leb 8192 c && N.leb c 8202)
  || N.eqb c 8232 || N.eqb c 8233 || N.eqb c 8239 || N.eqb c 8287
  || N.eqb c 12288 || N.eqb c 65279.

Definition isDigit (c : char) : bool := N.leb 48 c && N.leb c 57.

(** The basic word characters of \w and \b: letters, digits and underscore. *)
Definition isWordChar (c : char) : bool :=
  (N.leb 97 c && N.leb c 122) || (N.leb 65 c && N.leb c 90)
  || isDigit c || N.eqb c 95.

Fixpoint dropWhile (p : char -> bool) (s : str) : str :=
  match s with
  | [] => []
  | c :: s' => if p c then dropWhile p s' else s
  end.

Fixpoint takeWhile (p : char -> bool) (s : str) : str :=
  match s with
  | [] => []
  | c :: s' => if p c then c :: takeWhile p s' else []
  end.

(** [s.trim()] *)
Definition trim (s : str) : str :=
  rev (dropWhile isWhiteSpace (rev (dropWhile isWhiteSpace s))).

(** [s.split(sep)] for a separator of one code unit; the result is never
    empty: the empty string splits into one empty piece. *)
Fixpoint split (sep : char) (s : str) : list str :=
  match s with
  | [] => [[]]
  | c :: s' =>
      if N.eqb c sep then [] :: split sep s'
      else match split sep s' with
           | l :: ls => (c :: l) :: ls
           | [] => [[c]]
           end
  end.

(** [pieces.join(sep)] *)
Fixpoint join (sep : str) (pieces : list str) : str :=
  match pieces with
  | [] => []
  | [p] => p
  | p :: ps => p ++ sep ++ join sep ps
  end.

Fixpoint stripPrefix (pre s : str) : option str :=
  match pre, s with
  | [], _ => Some s
  | p :: pre', c :: s' => if N.eqb p c then stripPrefix pre' s' else None
  | _ :: _, [] => None
  end.

(** [s.replace(pat, rep)] with a string pattern: the first occurrence only.
    The replacements of the source (Z and T) hold no dollar sign. *)
Fixpoint replace (pat rep s : str) : str :=
  match stripPrefix pat s with
  | Some rest => rep ++ rest
  | None => match s with
            | [] => []
            | c :: s' => c :: replace pat rep s'
            end
  end.

(** [s.replace(/c/g, rep)] for a pattern of one literal character. *)
Definition replaceAll (c : char) (rep : str) (s : str) : str :=
  flat_map (fun x => if N.eqb x c then rep else [x]) s.

(** [s.toLowerCase()].  The ASCII letters are mapped.  Outside ASCII, the
    two code units whose lower-case form holds an ASCII letter are mapped as
    Unicode maps them: the Kelvin sign U+212A to k, and the dotted capital I
    U+0130 to i followed by the combining dot U+0307.  Every other code
    unit is left as it is (the Unicode case tables are not modelled): its
    lower-case form is again outside ASCII, and no pattern of [getLogType]
    can tell the two apart. *)
Definition lowerUnit (c : char) : str :=
  if N.leb 65 c && N.leb c 90 then [(c + 32)%N]
  else if N.eqb c 8490 then [107%N]
  else if N.eqb c 304 then [105; 775]%N
  else [c].

Definition toLowerCase (s : str) : str := flat_map lowerUnit s.

(** Decimal digits of a natural number, as [n.toString()] writes them. *)
Fixpoint digitsFuel (fuel : nat) (n : N) (acc : str) : str :=
  match fuel with
  | O => acc
  | S f =>
      let acc' := (48 + N.modulo n 10)%N :: acc in
      if N.ltb n 10 then acc' else digitsFuel f (N.div n 10) acc'
  end.

Definition natToString (n : N) : str := digitsFuel (S (N.to_nat (N.log2 n))) n [].

Definition intToString (z : Z) : str :=
  if Z.ltb z 0 then 45%N :: natToString (Z.abs_N z) else natToString (Z.abs_N z).

(** [s.padStart(2, '0')] *)
Definition padStart2 (s : str) : str :=
  match s with
  | [] => [48; 48]%N
  | [c] => [48%N; c]
  | _ => s
  end.

End JS.

(* ================================================================== *)
(** * Frames

    A frame of a WebSocket reaches its handler as a Buffer, a sequence of
    bytes, and [data.toString()] decodes it as UTF-8.  The decoder is the one
    of the Encoding Standard, which the engine follows: a byte that cannot go
    on a sequence ends it with U+FFFD and is read again as a first byte, and
    a sequence that the end of the buffer cuts off gives U+FFFD.  A buffer
    is decoded on its own: nothing is kept from one call to the next. *)

Module Utf8.

Import JS.

Definition Buffer : Type := list Byte.byte.

(** The bytes of an ASCII literal. *)
Definition bytes (s : string) : Buffer := list_byte_of_string s.

(** A sequence of several bytes that has begun: the bits read so far, the
    number of bytes still to come, and the range the next byte has to be
    in. *)
Record Sequence : Type := {
  codePoint : N;
  needed : nat;
  lower : N;
  upper : N
}.

(** The state of the decoder: a sequence that has begun, or none. *)
Definition Decoder : Type := option Sequence.

Definition replacement : char := 65533%N.

(** A code point as UTF-16 code units. *)
Definition codeUnits (cp : N) : str :=
  if N.ltb cp 65536 then [cp]
  else [55296 + N.div (cp - 65536) 1024; 56320 + N.modulo (cp - 65536) 1024]%N.

(** A byte read when no sequence has begun. *)
Definition start (b : N) : str * Decoder :=
  if N.leb b 127 then ([b], None)
  else if N.leb 194 b && N.leb b 223 then
    ([], Some {| codePoint := N.land b 31; needed := 1; lower := 128; upper := 191 |})
  else if N.leb 224 b && N.leb b 239 then
    ([], Some {| codePoint := N.land b 15; needed := 2;
                 lower := if N.eqb b 224 then 160 else 128;
                 upper := if N.eqb b 237 then 159 else 191 |})
  else if N.leb 240 b && N.leb b 244 then
    ([], Some {| codePoint := N.land b 7; needed := 3;
                 lower := if N.eqb b 240 then 144 else 128;
                 upper := if N.eqb b 244 then 143 else 191 |})
  else ([replacement], None).

(** One byte: what is written, and the state after it. *)
Definition step (d : Decoder) (b : N) : str * Decoder :=
  match d with
  | None => start b
  | Some q =>
      if N.leb (lower q) b && N.leb b (upper q) then
        let cp := N.lor (N.shiftl (codePoint q) 6) (N.land b 63) in
        match needed q with
        | S (S n) =>
            ([], Some {| codePoint := cp; needed := S n; lower := 128; upper := 191 |})
        | _ => (codeUnits cp, None)
        end
      else (replacement :: fst (start b), snd (start b))
  end.

Fixpoint decodeFrom (d : Decoder) (data : Buffer) : str :=
  match data with
  | [] => match d with Some _ => [replacement] | None => [] end
  | b :: data' => fst (step d (Byte.to_N b)) ++ decodeFrom (snd (step d (Byte.to_N b))) data'
  end.

(** [data.toString()] *)
Definition toString (data : Buffer) : str := decodeFrom None data.

(** The state of the decoder at the end of a buffer. *)
Fixpoint stateAfter (d : Decoder) (data : Buffer) : Decoder :=
  match data with
  | [] => d
  | b :: data' => stateAfter (snd (step d (Byte.to_N b))) data'
  end.

(** The buffer does not end inside a sequence of several bytes. *)
Definition endsOnCharacter (data : Buffer) : bool :=
  match stateAfter None data with
  | None => true
  | Some _ => false
  end.

End Utf8.

(* ================================================================== *)
(** * Regular expressions

    The patterns of the source as terms, and a backtracking matcher for
    them: alternatives are tried left to right, quantifiers are greedy and
    give characters back on failure, as ECMAScript's pattern semantics
    prescribes.  None of the patterns has the multiline, global or unicode
    flag. *)

Module Regex.

Import JS.

(** The members of a character class. *)
Inductive item : Type :=
| IChar (c : char)     (* a literal character *)
| IDigit               (* \d *)
| IWord                (* \w *)
| ISpace.              (* \s *)

Inductive re : Type :=
| Eps
| Chr (c : char)            (* a literal character *)
| Any                       (* .  : any character but a line terminator *)
| Cls (items : list item)   (* [...], and \d \w \s on their own *)
| Bol                       (* ^ *)
| Eol                       (* $ *)
| WordB                     (* \b *)
| Seq (a b : re)
| Alt (a b : re)            (* a|b *)
| Star (a : re)             (* a* *)
| Plus (a : re)             (* a+ *)
| Opt (a : re)              (* a? *)
| Rep (n : nat) (a : re)    (* a{n} *)
| Grp (i : nat) (a : re).   (* capturing group number i *)

Definition digit : re := Cls [IDigit].
Definition space : re := Cls [ISpace].

Definition Seqs (l : list re) : re := fold_right Seq Eps l.

Fixpoint Alts (l : list re) : re :=
  match l with
  | [] => Eps
  | [a] => a
  | a :: l' => Alt a (Alts l')
  end.

(** A run of literal characters. *)
Definition Str (s : string) : re := Seqs (map Chr (lit s)).

(** Canonicalize of ECMAScript for the ignore-case flag, on the Basic Latin
    letters.  A pattern character is compared with an input character after
    both are canonicalised; a character outside ASCII never canonicalises to
    an ASCII one, and the characters of the patterns outside ASCII (the
    warning and check-mark glyphs) have no case, so for the patterns of the
    source the comparison below is the one ECMAScript makes. *)
Definition canon (c : char) : char :=
  if N.leb 97 c && N.leb c 122 then (c - 32)%N else c.

Definition chrMatch (icase : bool) (p x : char) : bool :=
  if icase then N.eqb (canon p) (canon x) else N.eqb p x.

Definition itemMatch (icase : bool) (it : item) (x : char) : bool :=
  match it with
  | IChar c => chrMatch icase c x
  | IDigit => isDigit x
  | IWord => isWordChar x
  | ISpace => isWhiteSpace x
  end.

(** A position of the matcher: the character before it, if any, and the
    input from it on. *)
Record pos : Type := Pos { before : option char; rest : str }.

Definition caps := list (nat * str).

(** What a successful match yields: where it ended and what its groups
    captured. *)
Definition cont := pos -> caps -> option caps.

Definition isWordAt (o : option char) : bool :=
  match o with
  | Some c => isWordChar c
  | None => false
  end.

(** One character accepted by [ok]. *)
Definition one (ok : char -> bool) (p : pos) (c : caps) (k : cont) : option caps :=
  match rest p with
  | x :: s' => if ok x then k {| before := Some x; rest := s' |} c else None
  | [] => None
  end.

(** The greedy loop of a quantifier without upper bound: another round of
    [step] first, the continuation when that fails.  A round that reads
    nothing is refused, as in RepeatMatcher. *)
Fixpoint loop (step : pos -> caps -> cont -> option caps) (fuel : nat)
  (p : pos) (c : caps) (k : cont) : option caps :=
  match fuel with
  | O => k p c
  | S f =>
      match step p c (fun p' c' =>
                        if Nat.ltb (List.length (rest p')) (List.length (rest p))
                        then loop step f p' c' k else None) with
      | Some r => Some r
      | None => k p c
      end
  end.

Fixpoint times (step : pos -> caps -> cont -> option caps) (n : nat)
  (p : pos) (c : caps) (k : cont) : option caps :=
  match n with
  | O => k p c
  | S n' => step p c (fun p' c' => times step n' p' c' k)
  end.

Fixpoint m (icase : bool) (r : re) (p : pos) (c : caps) (k : cont) : option caps :=
  match r with
  | Eps => k p c
  | Chr x => one (chrMatch icase x) p c k
  | Any => one (fun x => negb (isLineTerminator x)) p c k
  | Cls items => one (fun x => existsb (fun it => itemMatch icase it x) items) p c k
  | Bol => match before p with None => k p c | Some _ => None end
  | Eol => match rest p with [] => k p c | _ :: _ => None end
  | WordB =>
      if xorb (isWordAt (before p)) (isWordAt (hd_error (rest p)))
      then k p c else None
  | Seq a b => m icase a p c (fun p' c' => m icase b p' c' k)
  | Alt a b =>
      match m icase a p c k with
      | Some r => Some r
      | None => m icase b p c k
      end
  | Star a => loop (m icase a) (S (List.length (rest p))) p c k
  | Plus a =>
      m icase a p c (fun p' c' => loop (m icase a) (S (List.length (rest p'))) p' c' k)
  | Opt a =>
      match m icase a p c (fun p' c' =>
                             if Nat.ltb (List.length (rest p')) (List.length (rest p))
                             then k p' c' else None) with
      | Some r => Some r
      | None => k p c
      end
  | Rep n a => times (m icase a) n p c k
  | Grp i a =>
      m icase a p c (fun p' c' =>
        k p' ((i, firstn (List.length (rest p) - List.length (rest p')) (rest p)) :: c'))
  end.

(** The leftmost match: every start position in turn, from the first. *)
Fixpoint searchFrom (icase : bool) (r : re) (prev : option char) (s : str) : option caps :=
  match m icase r {| before := prev; rest := s |} [] (fun _ c => Some c) with
  | Some c => Some c
  | None =>
      match s with
      | [] => None
      | x :: s' => searchFrom icase r (Some x) s'
      end
  end.

(** [s.match(r)] for a pattern without the global flag: the captures of the
    leftmost match. *)
Definition exec (icase : bool) (r : re) (s : str) : option caps :=
  searchFrom icase r None s.

(** [r.test(s)] *)
Definition test (icase : bool) (r : re) (s : str) : bool :=
  match exec icase r s with
  | Some _ => true
  | None => false
  end.

Definition group (i : nat) (c : caps) : str :=
  match find (fun e => Nat.eqb (fst e) i) c with
  | Some e => snd e
  | None => []
  end.

End Regex.

(* ================================================================== *)
(** * The host of the extension

    What the code takes from its surroundings and the repository does not
    define: the converter of the ansi-to-html package as the source
    configures it, and the local time zone of the machine. *)

Record Host : Type := {
  (** [ansiConverter.toHtml]: a function of its argument (no [stream]
      option is given, so no state is kept between calls) *)
  ansiToHtml : JS.str -> JS.str;
  (** LocalTime(t) of ECMAScript: a time value shifted to local time *)
  localTime : Z -> Z;
  (** UTC(t) of ECMAScript: a local time shifted to a time value *)
  utcTime : Z -> Z
}.

(** A host in the UTC zone whose converter hands its text on unchanged, which
    is what the package does with text that holds no escape character. *)
Definition utcHost : Host :=
  {| ansiToHtml := fun s => s; localTime := fun t => t; utcTime := fun t => t |}.

(* ================================================================== *)
(** * Dates

    [new Date(text)] for the date-time texts [parseLogLine] builds, and the
    local calendar fields [formatTimestamp] reads.  A Date is modelled by its
    time value in milliseconds since the epoch; [None] is the invalid Date,
    whose [getTime()] is NaN. *)

Module JSDate.

Import JS.

Local Open Scope Z_scope.

Record Fields : Type := {
  year : Z; month : Z; day : Z;
  hour : Z; minute : Z; second : Z; millis : Z;
  zulu : bool   (* the text ends in Z *)
}.

Definition digitVal (c : char) : Z := Z.of_N c - 48.

Definition number (ds : str) : Z :=
  fold_left (fun acc c => acc * 10 + digitVal c) ds 0.

(** The milliseconds of a fraction: its first three digits, a shorter
    fraction filled up with zeros.  ECMAScript fixes the meaning of three
    digits; engines accept more or less and keep the leading three. *)
Definition fractionMillis (ds : str) : Z :=
  number (firstn 3 (ds ++ [48; 48; 48]%N)).

Definition allDigits (ds : str) : bool := forallb isDigit ds.

(** The end of a date-time text: an optional fraction, an optional Z. *)
Definition readTail (tl : str) : option (Z * bool) :=
  let zone (r : str) (ms : Z) :=
    match r with
    | [] => Some (ms, false)
    | [z] => if N.eqb z (chr "Z") then Some (ms, true) else None
    | _ => None
    end in
  match tl with
  | c :: ds =>
      if N.eqb c (chr ".") then
        match takeWhile isDigit ds with
        | [] => None
        | f => zone (dropWhile isDigit ds) (fractionMillis f)
        end
      else zone tl 0
  | [] => zone tl 0
  end.

(** The text YYYY-MM-DDTHH:mm:ss, an optional fraction, an optional Z. *)
Definition readFields (s : str) : option Fields :=
  match s with
  | y1 :: y2 :: y3 :: y4 :: c1 :: m1 :: m2 :: c2 :: d1 :: d2 :: t
      :: h1 :: h2 :: c3 :: n1 :: n2 :: c4 :: s1 :: s2 :: tl =>
      if allDigits [y1; y2; y3; y4; m1; m2; d1; d2; h1; h2; n1; n2; s1; s2]
         && N.eqb c1 (chr "-") && N.eqb c2 (chr "-") && N.eqb t (chr "T")
         && N.eqb c3 (chr ":") && N.eqb c4 (chr ":")
      then
        match readTail tl with
        | Some (ms, z) =>
            Some {| year := number [y1; y2; y3; y4]; month := number [m1; m2];
                    day := number [d1; d2]; hour := number [h1; h2];
                    minute := number [n1; n2]; second := number [s1; s2];
                    millis := ms; zulu := z |}
        | None => None
        end
      else None
  | _ => None
  end.

(** The element values a date-time text may hold.  A day up to 31 is taken
    for every month (it rolls over into the next month, as V8, the engine of
    the extension host, reads it); hour 24 is midnight of the next day. *)
Definition inRange (f : Fields) : bool :=
  (1 <=? month f) && (month f <=? 12) && (1 <=? day f) && (day f <=? 31)
  && (((hour f <=? 23) && (minute f <=? 59) && (second f <=? 59))
      || ((hour f =? 24) && (minute f =? 0) && (second f =? 0) && (millis f =? 0))).

(** The day number of a date of the proleptic Gregorian calendar, day 0
    being 1 January 1970. *)
Definition daysFromCivil (y m d : Z) : Z :=
  let y' := if m <=? 2 then y - 1 else y in
  let era := y' / 400 in
  let yoe := y' - era * 400 in
  let doy := (153 * (if 2 <? m then m - 3 else m + 9) + 2) / 5 + d - 1 in
  let doe := yoe * 365 + yoe / 4 - yoe / 100 + doy in
  era * 146097 + doe - 719468.

Definition msPerDay : Z := 86400000.

(** MakeDate(MakeDay(year, month - 1, day), MakeTime(hour, minute, second, ms)) *)
Definition timeValue (f : Fields) : Z :=
  daysFromCivil (year f) (month f) (day f) * msPerDay
  + hour f * 3600000 + minute f * 60000 + second f * 1000 + millis f.

(** [new Date(text)]: a text without Z is a local time. *)
Definition newDate (host : Host) (text : str) : option Z :=
  match readFields text with
  | Some f =>
      if inRange f
      then Some (if zulu f then timeValue f else utcTime host (timeValue f))
      else None
  | None => None
  end.

(** Year, month (from 1) and day of a day number. *)
Definition civilFromDays (z : Z) : Z * Z * Z :=
  let z' := z + 719468 in
  let era := z' / 146097 in
  let doe := z' - era * 146097 in
  let yoe := (doe - doe / 1460 + doe / 36524 - doe / 146096) / 365 in
  let doy := doe - (365 * yoe + yoe / 4 - yoe / 100) in
  let mp := (5 * doy + 2) / 153 in
  let d := doy - (153 * mp + 2) / 5 + 1 in
  let m := if mp <? 10 then mp + 3 else mp - 9 in
  (if m <=? 2 then yoe + era * 400 + 1 else yoe + era * 400, m, d).

(** The getters [formatTimestamp] calls, all on local time. *)
Definition getFullYear (host : Host) (t : Z) : Z :=
  fst (fst (civilFromDays (localTime host t / msPerDay))).
Definition getMonth (host : Host) (t : Z) : Z :=
  snd (fst (civilFromDays (localTime host t / msPerDay))) - 1.
Definition getDate (host : Host) (t : Z) : Z :=
  snd (civilFromDays (localTime host t / msPerDay)).
Definition getHours (host : Host) (t : Z) : Z :=
  (localTime host t mod msPerDay) / 3600000.
Definition getMinutes (host : Host) (t : Z) : Z :=
  (localTime host t mod 3600000) / 60000.
Definition getSeconds (host : Host) (t : Z) : Z :=
  (localTime host t mod 60000) / 1000.

End JSDate.

(* ================================================================== *)
(** * The line parser, the classifier and the renderer *)

Import JS.
Import Regex.
Import Utf8.

Local Open Scope string_scope.
Local Open Scope list_scope.

Inductive LogType : Type := error | warning | success | info | debug.

Record LogStyle : Type := {
  type : LogType;
  bgClass : str;
  borderColor : str;
  badgeBg : str;
  badgeText : str
}.

(** The text of a [LogType], as the template writes [style.type]. *)
Definition typeName (t : LogType) : str :=
  match t with
  | error => lit "error"
  | warning => lit "warning"
  | success => lit "success"
  | info => lit "info"
  | debug => lit "debug"
  end.

Definition LOG_STYLES (t : LogType) : LogStyle :=
  match t with
  | error =>
      {| type := error; bgClass := lit "log-error"; borderColor := lit "#f44336";
         badgeBg := lit "rgba(244, 67, 54, 0.4)"; badgeText := lit "#ff6b6b" |}
  | warning =>
      {| type := warning; bgClass := lit "log-warning"; borderColor := lit "#ff9800";
         badgeBg := lit "rgba(255, 152, 0, 0.4)"; badgeText := lit "#ffb74d" |}
  | success =>
      {| type := success; bgClass := lit "log-success"; borderColor := lit "#4caf50";
         badgeBg := lit "rgba(76, 175, 80, 0.4)"; badgeText := lit "#81c784" |}
  | info =>
      {| type := info; bgClass := lit "log-info"; borderColor := lit "#2196f3";
         badgeBg := lit "rgba(33, 150, 243, 0.4)"; badgeText := lit "#64b5f6" |}
  | debug =>
      {| type := debug; bgClass := lit "log-debug"; borderColor := lit "#9e9e9e";
         badgeBg := lit "rgba(158, 158, 158, 0.3)"; badgeText := lit "#bdbdbd" |}
  end.

Record ParsedLogLine : Type := {
  timestamp : option Z;   (* Date | null *)
  message : str
}.

(** The pattern "/^(\d{4}-\d{2}-\d{2}[T ]\d{2}:\d{2}:\d{2}(?:\.\d+)?(?:Z| UTC)?)\s+(G2)$/"
    where G2, the second group, is a dot under a star. *)
Definition timestampRegex : re :=
  Seqs [ Bol;
         Grp 1 (Seqs [ Rep 4 digit; Chr (chr "-"); Rep 2 digit; Chr (chr "-"); Rep 2 digit;
                       Cls [IChar (chr "T"); IChar (chr " ")];
                       Rep 2 digit; Chr (chr ":"); Rep 2 digit; Chr (chr ":"); Rep 2 digit;
                       Opt (Seq (Chr (chr ".")) (Plus digit));
                       Opt (Alt (Chr (chr "Z")) (Str " UTC")) ]);
         Plus space;
         Grp 2 (Star Any);
         Eol ].

Definition parseLogLine (host : Host) (line : str) : ParsedLogLine :=
  match exec false timestampRegex line with
  | Some c =>
      let timestampStr := group 1 c in
      let message := group 2 c in
      {| timestamp :=
           JSDate.newDate host
             (replace (lit " ") (lit "T") (replace (lit " UTC") (lit "Z") timestampStr));
         message := trim message |}
  | None => {| timestamp := None; message := line |}
  end.

(** The four rule groups of [getLogType], each the patterns of one [if],
    in the order of the source. *)
Definition errorPatterns : list (bool * re) :=
  [ (* "/(?:^|\s)(?:error|err):?\s/i" *)
    (true, Seqs [Alt Bol space; Alt (Str "error") (Str "err"); Opt (Chr (chr ":")); space]);
    (* "/\b(?:exception|failed|failure)\b/i" *)
    (true, Seqs [WordB; Alts [Str "exception"; Str "failed"; Str "failure"]; WordB]);
    (* "/(?:stack\s?trace):\s*$/i" *)
    (true, Seqs [Str "stack"; Opt space; Str "trace"; Chr (chr ":"); Star space; Eol]);
    (* "/^\s*at\s+[\w.]+\s*\(?.+:\d+:\d+\)?/" *)
    (false, Seqs [Bol; Star space; Str "at"; Plus space; Plus (Cls [IWord; IChar (chr ".")]);
                  Star space; Opt (Chr (chr "(")); Plus Any; Chr (chr ":"); Plus digit;
                  Chr (chr ":"); Plus digit; Opt (Chr (chr ")"))]);
    (* "/\b(?:uncaught|unhandled)\s+(?:exception|error)\b/i" *)
    (true, Seqs [WordB; Alt (Str "uncaught") (Str "unhandled"); Plus space;
                 Alt (Str "exception") (Str "error"); WordB]);
    (* "/\[(?:error|err|fatal)\]/i" *)
    (true, Seqs [Chr (chr "["); Alts [Str "error"; Str "err"; Str "fatal"]; Chr (chr "]")]);
    (* "/\b(?:crash|critical|fatal)\b/i" *)
    (true, Seqs [WordB; Alts [Str "crash"; Str "critical"; Str "fatal"]; WordB]) ].

Definition warningPatterns : list (bool * re) :=
  [ (* "/(?:^|\s)(?:warning|warn):?\s/i" *)
    (true, Seqs [Alt Bol space; Alt (Str "warning") (Str "warn"); Opt (Chr (chr ":")); space]);
    (* "/\[(?:warn(?:ing)?|attention)\]/i" *)
    (true, Seqs [Chr (chr "["); Alt (Seq (Str "warn") (Opt (Str "ing"))) (Str "attention");
                 Chr (chr "]")]);
    (* "/(?:deprecated|obsolete)/i" *)
    (true, Alt (Str "deprecated") (Str "obsolete"));
    (* "/\b(?:caution|attention|notice):\s/i" *)
    (true, Seqs [WordB; Alts [Str "caution"; Str "attention"; Str "notice"]; Chr (chr ":"); space]);
    (* the warning sign U+26A0, alone or followed by the variation selector U+FE0F *)
    (true, Alt (Chr 9888%N) (Seq (Chr 9888%N) (Chr 65039%N))) ].

Definition successPatterns : list (bool * re) :=
  [ (* "/(?:successfully|complete[d]?)\s+(?:initialized|started|completed|created|done|deployed)/i" *)
    (true, Seqs [Alt (Str "successfully") (Seq (Str "complete") (Opt (Cls [IChar (chr "d")])));
                 Plus space;
                 Alts [Str "initialized"; Str "started"; Str "completed"; Str "created";
                       Str "done"; Str "deployed"]]);
    (* "/\[(?:success|ok|done)\]/i" *)
    (true, Seqs [Chr (chr "["); Alts [Str "success"; Str "ok"; Str "done"]; Chr (chr "]")]);
    (* "/(?:listening|running)\s+(?:on|at)\s+(?:port\s+)?\d+/i" *)
    (true, Seqs [Alt (Str "listening") (Str "running"); Plus space; Alt (Str "on") (Str "at");
                 Plus space; Opt (Seq (Str "port") (Plus space)); Plus digit]);
    (* "/(?:connected|established|ready)\s+(?:to|for|on)/i" *)
    (true, Seqs [Alts [Str "connected"; Str "established"; Str "ready"]; Plus space;
                 Alts [Str "to"; Str "for"; Str "on"]]);
    (* the check mark U+2713, the square root U+221A, the white heavy check
       mark U+2705, then "|\[ok\]|done!" *)
    (true, Alts [Chr 10003%N; Chr 8730%N; Chr 9989%N; Str "[ok]"; Str "done!"]);
    (* "/\b(?:success(?:ful)?|completed|ready)\b/i" *)
    (true, Seqs [WordB; Alts [Seq (Str "success") (Opt (Str "ful")); Str "completed"; Str "ready"];
                 WordB]) ].

Definition infoPatterns : list (bool * re) :=
  [ (* "/(?:^|\s)(?:info|inf|information):?\s/i" *)
    (true, Seqs [Alt Bol space; Alts [Str "info"; Str "inf"; Str "information"];
                 Opt (Chr (chr ":")); space]);
    (* "/\[(?:info|information)\]/i" *)
    (true, Seqs [Chr (chr "["); Alt (Str "info") (Str "information"); Chr (chr "]")]);
    (* "/\b(?:status|state|current|progress)\b:?\s/i" *)
    (true, Seqs [WordB; Alts [Str "status"; Str "state"; Str "current"; Str "progress"]; WordB;
                 Opt (Chr (chr ":")); space]);
    (* "/\b(?:processing|executing|performing)\b/i" *)
    (true, Seqs [WordB; Alts [Str "processing"; Str "executing"; Str "performing"]; WordB]);
    (* "/\b(?:cloning|building|installing|downloading|fetching)\b/i" *)
    (true, Seqs [WordB; Alts [Str "cloning"; Str "building"; Str "installing"; Str "downloading";
                              Str "fetching"]; WordB]) ].

(** [p1.test(s) || p2.test(s) || ...] *)
Definition anyTest (ps : list (bool * re)) (s : str) : bool :=
  existsb (fun p => test (fst p) (snd p) s) ps.

Definition getLogType (message : str) : LogStyle :=
  let lowerMessage := toLowerCase message in
  if anyTest errorPatterns lowerMessage then LOG_STYLES error
  else if anyTest warningPatterns lowerMessage then LOG_STYLES warning
  else if anyTest successPatterns lowerMessage then LOG_STYLES success
  else if anyTest infoPatterns lowerMessage then LOG_STYLES info
  else LOG_STYLES debug.

Definition formatTimestamp (host : Host) (date : Z) : str :=
  let pad (n : Z) := padStart2 (intToString n) in
  let year := JSDate.getFullYear host date in
  let month := pad (JSDate.getMonth host date + 1)%Z in
  let day := pad (JSDate.getDate host date) in
  let hours := pad (JSDate.getHours host date) in
  let minutes := pad (JSDate.getMinutes host date) in
  let seconds := pad (JSDate.getSeconds host date) in
  intToString year ++ lit "-" ++ month ++ lit "-" ++ day ++ lit " "
  ++ hours ++ lit ":" ++ minutes ++ lit ":" ++ seconds.

Definition escapeHtml (text : str) : str :=
  replaceAll (chr "'") (lit "&#039;")
    (replaceAll 34%N (lit "&quot;")
       (replaceAll (chr ">") (lit "&gt;")
          (replaceAll (chr "<") (lit "&lt;")
             (replaceAll (chr "&") (lit "&amp;") text)))).

(* ================================================================== *)
(** * The data of the log view *)

(** A JavaScript number as a webview message can carry it for the tail
    depth: the webview script sends [parseInt(value, 10)], an integer or
    NaN. *)
Inductive Num : Type :=
| NaN
| Int (z : Z).

(** [if (n)] *)
Definition truthyNum (n : Num) : bool :=
  match n with
  | NaN => false
  | Int z => negb (Z.eqb z 0)
  end.

(** [if (s)] for a string *)
Definition truthyStr (s : str) : bool :=
  match s with
  | [] => false
  | _ :: _ => true
  end.

(** [n.toString()] *)
Definition numToString (n : Num) : str :=
  match n with
  | NaN => lit "NaN"
  | Int z => intToString z
  end.

Record Container : Type := {
  containerId : str;
  containerName : str;     (* name *)
  containerState : str     (* state *)
}.

(** The fields of an Application the log view reads. *)
Record Application : Type := {
  appTitle : str;              (* name *)
  appName : str;
  serverId : option str
}.

Record DokployClient : Type := {
  endpoint : str;
  apiKey : str
}.

(** The address of a log stream, kept as the values it is built from: the
    text itself is put together by the URL classes of the platform. *)
Inductive WsUrl : Type :=
| RuntimeLogsUrl (endpoint : str) (containerId : str) (tail : str) (serverId : option str)
| GivenUrl (url : str).

Record WsConfig : Type := {
  url : WsUrl;
  headers : list (str * str)
}.

(** [DokployClient.getRuntimeLogWsConfig]; the serverId parameter is set
    only when it is given and not empty. *)
Definition getRuntimeLogWsConfig (client : DokployClient) (containerId : str)
  (tail : Num) (serverId : option str) : WsConfig :=
  {| url := RuntimeLogsUrl (endpoint client) containerId (numToString tail)
              (match serverId with
               | Some s => if truthyStr s then Some s else None
               | None => None
               end);
     headers := [(lit "x-api-key", apiKey client)] |}.

Record RuntimeLogsConfig : Type := {
  app : Application;
  client : DokployClient;
  containers : list Container;
  selectedContainerId : str;
  tail : Num
}.

Inductive Command : Type := changeContainer | changeTail | refresh.

Record WebviewMessage : Type := {
  command : Command;
  msgContainerId : option str;   (* containerId? *)
  msgTail : option Num           (* tail? *)
}.

(** The document of the webview: which template of the class made it, and
    from what.  The stylesheet and the script of a template are the same
    for every call and are not written out. *)
Inductive Page : Type :=
| BlankPage                                   (* a panel that was never written *)
| LogsPage (content : str)                    (* getHtml(content) *)
| RuntimePage (content : str) (containers : list Container)
    (selectedContainerId : str) (tail : Num)  (* getRuntimeHtml(...) *)
| EmptyStatePage (appName : str).             (* getEmptyStateHtml(appName) *)

Record WebviewPanel : Type := {
  title : str;
  html : Page
}.

(** A WebSocket the class opened: its address, its headers, and the
    [isRuntime] argument its four handlers close over. *)
Record Socket : Type := {
  sockUrl : WsUrl;
  sockHeaders : list (str * str);
  sockRuntime : bool
}.

(** The fields of the class ([extensionUri] is never read). *)
Record LogsWebview : Type := {
  panel : option WebviewPanel;
  ws : option Socket;
  logBuffer : str;
  showTimestamp : bool;                    (* timestamp *)
  runtimeConfig : option RuntimeLogsConfig;
  isRuntimeLogs : bool
}.

(** What a method does to the world outside the object. *)
Inductive Effect : Type :=
| SocketClosed (s : Socket)         (* ws.close() *)
| SocketOpened (s : Socket)         (* new WebSocket(url, { headers }) *)
| PanelCreated (title : str)        (* createWebviewPanel *)
| PanelRevealed                     (* panel.reveal() *)
| PanelDisposed                     (* panel.dispose() *)
| HandlerRegistered                 (* webview.onDidReceiveMessage(...) *)
| ContainersRequested (appName : str).  (* client.getContainersByAppLabel(...) *)

(* ================================================================== *)
(** * Methods as commands

    A method reads and writes the fields of the object and acts on the
    world: a command maps a state to the next state and the effects it had,
    in order. *)

Definition Cmd : Type := LogsWebview -> LogsWebview * list Effect.

Definition skip : Cmd := fun s => (s, []).

Definition andThen (a b : Cmd) : Cmd :=
  fun s =>
    let (s1, e1) := a s in
    let (s2, e2) := b s1 in
    (s2, e1 ++ e2).

Definition emit (e : Effect) : Cmd := fun s => (s, [e]).

Definition modify (f : LogsWebview -> LogsWebview) : Cmd := fun s => (f s, []).

(** A command that depends on the current fields. *)
Definition reading (f : LogsWebview -> Cmd) : Cmd := fun s => f s s.

Notation "a ;; b" := (andThen a b) (at level 61, right associativity).

Definition setPanel (p : option WebviewPanel) (s : LogsWebview) : LogsWebview :=
  {| panel := p; ws := ws s; logBuffer := logBuffer s; showTimestamp := showTimestamp s;
     runtimeConfig := runtimeConfig s; isRuntimeLogs := isRuntimeLogs s |}.

Definition setWs (w : option Socket) (s : LogsWebview) : LogsWebview :=
  {| panel := panel s; ws := w; logBuffer := logBuffer s; showTimestamp := showTimestamp s;
     runtimeConfig := runtimeConfig s; isRuntimeLogs := isRuntimeLogs s |}.

Definition setLogBuffer (b : str) (s : LogsWebview) : LogsWebview :=
  {| panel := panel s; ws := ws s; logBuffer := b; showTimestamp := showTimestamp s;
     runtimeConfig := runtimeConfig s; isRuntimeLogs := isRuntimeLogs s |}.

Definition setRuntimeConfig (c : option RuntimeLogsConfig) (s : LogsWebview) : LogsWebview :=
  {| panel := panel s; ws := ws s; logBuffer := logBuffer s; showTimestamp := showTimestamp s;
     runtimeConfig := c; isRuntimeLogs := isRuntimeLogs s |}.

Definition setIsRuntimeLogs (b : bool) (s : LogsWebview) : LogsWebview :=
  {| panel := panel s; ws := ws s; logBuffer := logBuffer s; showTimestamp := showTimestamp s;
     runtimeConfig := runtimeConfig s; isRuntimeLogs := b |}.

(** [this.panel.webview.html = page] and [this.panel.title = t], on a panel
    that exists. *)
Definition setHtml (page : Page) (s : LogsWebview) : LogsWebview :=
  match panel s with
  | Some p => setPanel (Some {| title := title p; html := page |}) s
  | None => s
  end.

Definition setTitle (t : str) (s : LogsWebview) : LogsWebview :=
  match panel s with
  | Some p => setPanel (Some {| title := t; html := html p |}) s
  | None => s
  end.

Definition withSelected (id : str) (c : RuntimeLogsConfig) : RuntimeLogsConfig :=
  {| app := app c; client := client c; containers := containers c;
     selectedContainerId := id; tail := tail c |}.

Definition withTail (n : Num) (c : RuntimeLogsConfig) : RuntimeLogsConfig :=
  {| app := app c; client := client c; containers := containers c;
     selectedContainerId := selectedContainerId c; tail := n |}.

Definition withContainers (cs : list Container) (c : RuntimeLogsConfig) : RuntimeLogsConfig :=
  {| app := app c; client := client c; containers := cs;
     selectedContainerId := selectedContainerId c; tail := tail c |}.

(* ================================================================== *)
(** * The class LogsWebview *)

Section LogsWebviewClass.

Variable host : Host.

(** The row of a blank line. *)
Definition emptyRow : str := markup "<div class='log-line log-empty'>&nbsp;</div>".

(** The template literal of a rendered line; both renderers use it, with
    line breaks followed by [inner] and, before the closing tag, [outer]
    spaces of indentation. *)
Definition lineTemplate (inner outer : nat) (style : LogStyle)
  (timestampHtml messageHtml : str) : str :=
  let nl (n : nat) := LF :: repeat 32%N n in
  markup "<div class='log-line " ++ bgClass style ++ markup "'>" ++ nl inner
  ++ markup "<div class='log-border' style='background-color: " ++ borderColor style
  ++ markup "'></div>" ++ nl inner
  ++ timestampHtml ++ nl inner
  ++ markup "<span class='log-badge' style='background-color: " ++ badgeBg style
  ++ markup "; color: " ++ badgeText style ++ markup "'>" ++ typeName (type style)
  ++ markup "</span>" ++ nl inner
  ++ markup "<span class='log-message'>" ++ messageHtml ++ markup "</span>" ++ nl outer
  ++ markup "</div>".

Definition timestampSpan (inside : str) : str :=
  markup "<span class='log-timestamp'>" ++ inside ++ markup "</span>".

(** The function mapped over the lines in [updateContent]; [showTs] is
    the field [this.timestamp]. *)
Definition contentLine (showTs : bool) (line : str) : str :=
  if negb (truthyStr (trim line)) then emptyRow
  else
    let parsed := parseLogLine host line in
    let style := getLogType (message parsed) in
    let messageHtml := ansiToHtml host (escapeHtml (message parsed)) in
    let timestampHtml :=
      if showTs then
        match timestamp parsed with
        | Some date => timestampSpan (formatTimestamp host date)
        | None => timestampSpan []
        end
      else [] in
    lineTemplate 8 6 style timestampHtml messageHtml.

Definition formatLogLine (showTs : bool) (line : str) : str :=
  if negb (truthyStr (trim line)) then emptyRow
  else
    let parsed := parseLogLine host line in
    let style := getLogType (message parsed) in
    let messageHtml := ansiToHtml host (escapeHtml (message parsed)) in
    let timestampHtml :=
      match showTs, timestamp parsed with
      | true, Some date => timestampSpan (formatTimestamp host date)
      | _, _ => []
      end in
    lineTemplate 6 4 style timestampHtml messageHtml.

(** [htmlLines] of [updateContent] and of [updateRuntimeContent]. *)
Definition contentLines (showTs : bool) (logContent : str) : list str :=
  map (contentLine showTs) (split LF logContent).

Definition runtimeLines (showTs : bool) (logContent : str) : list str :=
  map (formatLogLine showTs) (split LF logContent).

Definition updateContent (logContent : str) : Cmd :=
  reading (fun this =>
    match panel this with
    | None => skip
    | Some _ =>
        modify (setHtml (LogsPage (join [LF] (contentLines (showTimestamp this) logContent))))
    end).

Definition updateRuntimeContent (logContent : str) (containers : list Container)
  (selectedContainerId : str) (tail : Num) : Cmd :=
  reading (fun this =>
    match panel this with
    | None => skip
    | Some _ =>
        modify (setHtml (RuntimePage (join [LF] (runtimeLines (showTimestamp this) logContent))
                           containers selectedContainerId tail))
    end).

(** [new LogsWebview(extensionUri, timestamp)]; the second argument
    defaults to false. *)
Definition constructor (timestamp : option bool) : LogsWebview :=
  {| panel := None; ws := None; logBuffer := [];
     showTimestamp := match timestamp with Some b => b | None => false end;
     runtimeConfig := None; isRuntimeLogs := false |}.

Definition closeWebSocket : Cmd :=
  reading (fun this =>
    match ws this with
    | Some sock => emit (SocketClosed sock) ;; modify (setWs None)
    | None => skip
    end).

(** The callback given to [panel.onDidDispose]. *)
Definition onDidDispose : Cmd :=
  modify (setPanel None) ;;
  closeWebSocket ;;
  modify (setRuntimeConfig None) ;;
  modify (setIsRuntimeLogs false).

Definition createOrRevealPanel (title : str) : Cmd :=
  reading (fun this =>
    match panel this with
    | Some _ => emit PanelRevealed
    | None =>
        emit (PanelCreated title) ;;
        modify (setPanel (Some (Build_WebviewPanel title BlankPage)))
    end) ;;
  modify (setTitle title).

Definition setupMessageHandler : Cmd :=
  reading (fun this =>
    match panel this with
    | None => skip
    | Some _ => emit HandlerRegistered
    end).

Definition connectWebSocket (wsUrl : WsUrl) (headers : list (str * str)) (isRuntime : bool) : Cmd :=
  closeWebSocket ;;
  let sock := {| sockUrl := wsUrl; sockHeaders := headers; sockRuntime := isRuntime |} in
  emit (SocketOpened sock) ;;
  modify (setWs (Some sock)).

(** The four handlers [connectWebSocket] attaches to the socket it opens.
    Each closes over [isRuntime] and acts on the fields of the object. *)
Definition onOpen (isRuntime : bool) : Cmd :=
  modify (setLogBuffer []) ;;
  reading (fun this =>
    match isRuntime, runtimeConfig this with
    | true, Some cfg =>
        updateRuntimeContent (lit "Connected. Waiting for logs...")
          (containers cfg) (selectedContainerId cfg) (tail cfg)
    | _, _ => updateContent (lit "Connected. Waiting for logs...")
    end).

(** [data] is the frame as the socket hands it over. *)
Definition onMessage (isRuntime : bool) (data : Buffer) : Cmd :=
  let message := toString data in
  modify (fun this => setLogBuffer (logBuffer this ++ message) this) ;;
  reading (fun this =>
    match isRuntime, runtimeConfig this with
    | true, Some cfg =>
        updateRuntimeContent (logBuffer this)
          (containers cfg) (selectedContainerId cfg) (tail cfg)
    | _, _ => updateContent (logBuffer this)
    end).

(** [errorMessage] is [error.message]. *)
Definition onError (isRuntime : bool) (errorMessage : str) : Cmd :=
  reading (fun this =>
    let errorContent :=
      lit "Connection error: " ++ errorMessage ++ [LF; LF] ++ logBuffer this in
    match isRuntime, runtimeConfig this with
    | true, Some cfg =>
        updateRuntimeContent errorContent
          (containers cfg) (selectedContainerId cfg) (tail cfg)
    | _, _ => updateContent errorContent
    end).

Definition onClose (isRuntime : bool) : Cmd :=
  reading (fun this =>
    if truthyStr (logBuffer this) then
      let closedContent := logBuffer this ++ [LF; LF] ++ lit "--- Log stream ended ---" in
      match isRuntime, runtimeConfig this with
      | true, Some cfg =>
          updateRuntimeContent closedContent
            (containers cfg) (selectedContainerId cfg) (tail cfg)
      | _, _ => updateContent closedContent
      end
    else skip).

Definition connectToRuntimeLogs : Cmd :=
  reading (fun this =>
    match runtimeConfig this, panel this with
    | Some cfg, Some _ =>
        let wsConfig :=
          getRuntimeLogWsConfig (client cfg) (selectedContainerId cfg) (tail cfg)
            (serverId (app cfg)) in
        modify (setLogBuffer []) ;;
        updateRuntimeContent (lit "Connecting to log stream...")
          (containers cfg) (selectedContainerId cfg) (tail cfg) ;;
        connectWebSocket (url wsConfig) (headers wsConfig) true
    | _, _ => skip
    end).

Definition showEmptyState (appName : str) : Cmd :=
  createOrRevealPanel (lit "Runtime Logs: " ++ appName) ;;
  modify (setIsRuntimeLogs true) ;;
  setupMessageHandler ;;
  modify (setHtml (EmptyStatePage appName)).

(** [showRuntimeLogs] from the point where the list of containers has
    arrived. *)
Definition showRuntimeLogs (a : Application) (c : DokployClient)
  (found : list Container) : Cmd :=
  match found with
  | [] => showEmptyState (appTitle a)
  | first :: _ =>
      modify (setRuntimeConfig
                (Some {| app := a; client := c; containers := found;
                         selectedContainerId := containerId first; tail := Int 100 |})) ;;
      modify (setIsRuntimeLogs true) ;;
      createOrRevealPanel (lit "Runtime Logs: " ++ appTitle a) ;;
      setupMessageHandler ;;
      connectToRuntimeLogs
  end.

Definition showWithWebSocket (title : str) (wsUrl : WsUrl) (headers : list (str * str)) : Cmd :=
  modify (setIsRuntimeLogs false) ;;
  modify (setRuntimeConfig None) ;;
  createOrRevealPanel title ;;
  modify (setLogBuffer []) ;;
  updateContent (lit "Connecting to log stream...") ;;
  connectWebSocket wsUrl headers false.

(** One run of the callback given to [onDidReceiveMessage], up to its
    first [await]: the refresh case asks for the containers and goes on in
    [onRefreshed] when they arrive. *)
Definition onDidReceiveMessage (message : WebviewMessage) : Cmd :=
  reading (fun this =>
    match runtimeConfig this with
    | None => skip
    | Some cfg =>
        match command message with
        | changeContainer =>
            match msgContainerId message with
            | Some id =>
                if truthyStr id then
                  modify (setRuntimeConfig (Some (withSelected id cfg))) ;;
                  connectToRuntimeLogs
                else skip
            | None => skip
            end
        | changeTail =>
            match msgTail message with
            | Some n =>
                if truthyNum n then
                  modify (setRuntimeConfig (Some (withTail n cfg))) ;;
                  connectToRuntimeLogs
                else skip
            | None => skip
            end
        | refresh => emit (ContainersRequested (appName (app cfg)))
        end
    end).

(** The rest of the refresh case.  Reading a field of a [runtimeConfig]
    that has become undefined throws, which ends the callback. *)
Definition onRefreshed (found : list Container) : Cmd :=
  reading (fun this =>
    match runtimeConfig this with
    | None => skip
    | Some cfg =>
        match found with
        | [] => showEmptyState (appTitle (app cfg))
        | first :: _ =>
            modify (setRuntimeConfig
                      (Some (withSelected (containerId first) (withContainers found cfg)))) ;;
            connectToRuntimeLogs
        end
    end).

Definition dispose : Cmd :=
  closeWebSocket ;;
  reading (fun this =>
    match panel this with
    | Some _ => emit PanelDisposed ;; onDidDispose
    | None => skip
    end).

(** What can happen to the object: a call of a public method, or a run of
    a callback it registered. *)
Inductive Event : Type :=
| CallShowRuntimeLogs (a : Application) (c : DokployClient) (found : list Container)
| CallShowWithWebSocket (title : str) (wsUrl : WsUrl) (headers : list (str * str))
| CallDispose
| WsOpen (isRuntime : bool)
| WsMessage (isRuntime : bool) (data : Buffer)
| WsError (isRuntime : bool) (errorMessage : str)
| WsClose (isRuntime : bool)
| Message (message : WebviewMessage)
| Refreshed (found : list Container)
| Disposed.

Definition handle (e : Event) : Cmd :=
  match e with
  | CallShowRuntimeLogs a c found => showRuntimeLogs a c found
  | CallShowWithWebSocket t u h => showWithWebSocket t u h
  | CallDispose => dispose
  | WsOpen r => onOpen r
  | WsMessage r data => onMessage r data
  | WsError r msg => onError r msg
  | WsClose r => onClose r
  | Message msg => onDidReceiveMessage msg
  | Refreshed found => onRefreshed found
  | Disposed => onDidDispose
  end.

(** The state after a run of events. *)
Definition run (events : list Event) (s : LogsWebview) : LogsWebview :=
  fold_left (fun s e => fst (handle e s)) events s.

(** The document the panel shows, if there is a panel. *)
Definition shown (s : LogsWebview) : option Page :=
  match panel s with
  | Some p => Some (html p)
  | None => None
  end.

(** An event of a socket.  The handlers [connectWebSocket] attaches stay on
    the socket they were attached to: they close over its [isRuntime] and
    over the object, and none of them looks at the field [ws].  So an event
    of a socket runs its handler whether the object still holds the socket
    or not; [closeWebSocket] calls [close] and drops the reference, and
    takes no handler off. *)
Inductive SocketEvent : Type :=
| SockOpen
| SockMessage (data : Buffer)
| SockError (errorMessage : str)
| SockClose.

Definition onSocket (sock : Socket) (e : SocketEvent) : Cmd :=
  match e with
  | SockOpen => onOpen (sockRuntime sock)
  | SockMessage data => onMessage (sockRuntime sock) data
  | SockError errorMessage => onError (sockRuntime sock) errorMessage
  | SockClose => onClose (sockRuntime sock)
  end.


End LogsWebviewClass.

(* ================================================================== *)
(** * The timestamp form of the specification

    The specification describes a leading timestamp as
    YYYY-MM-DD(T| )HH:MM:SS(.fraction)?(Z| UTC)? and its value as the
    instant it denotes.  [Stamp] is that description as data: the parts of a
    timestamp, the text they make, and the instant they denote.  The
    theorems on [parseLogLine] compare the regular expression and the Date
    of the code with it. *)

Inductive Zone : Type := NoZone | ZoneZ | ZoneUTC.

Record Stamp : Type := {
  yyyy : str; mo : str; dd : str;
  sep : char;
  hh : str; mi : str; ss : str;
  fraction : option str;
  zone : Zone
}.

Definition digitsOf (n : nat) (s : str) : bool :=
  Nat.eqb (List.length s) n && forallb isDigit s.

Definition wellFormed (t : Stamp) : bool :=
  digitsOf 4 (yyyy t) && digitsOf 2 (mo t) && digitsOf 2 (dd t)
  && (N.eqb (sep t) (chr "T") || N.eqb (sep t) (chr " "))
  && digitsOf 2 (hh t) && digitsOf 2 (mi t) && digitsOf 2 (ss t)
  && match fraction t with
     | None => true
     | Some f => truthyStr f && forallb isDigit f
     end.

Definition fractionText (f : option str) : str :=
  match f with
  | None => []
  | Some ds => chr "." :: ds
  end.

Definition zoneText (z : Zone) : str :=
  match z with
  | NoZone => []
  | ZoneZ => lit "Z"
  | ZoneUTC => lit " UTC"
  end.

Definition stampText (t : Stamp) : str :=
  yyyy t ++ lit "-" ++ mo t ++ lit "-" ++ dd t ++ [sep t]
  ++ hh t ++ lit ":" ++ mi t ++ lit ":" ++ ss t
  ++ fractionText (fraction t) ++ zoneText (zone t).

Definition stampFields (t : Stamp) : JSDate.Fields :=
  {| JSDate.year := JSDate.number (yyyy t);
     JSDate.month := JSDate.number (mo t);
     JSDate.day := JSDate.number (dd t);
     JSDate.hour := JSDate.number (hh t);
     JSDate.minute := JSDate.number (mi t);
     JSDate.second := JSDate.number (ss t);
     JSDate.millis := match fraction t with
                      | None => 0%Z
                      | Some f => JSDate.fractionMillis f
                      end;
     JSDate.zulu := match zone t with
                    | NoZone => false
                    | ZoneZ | ZoneUTC => true
                    end |}.

(** The instant the fields of a timestamp denote when they are read in
    UTC; none when a field is out of range. *)
Definition utcInstant (t : Stamp) : option Z :=
  let f := stampFields t in
  if JSDate.inRange f then Some (JSDate.timeValue f) else None.

(** The instant a timestamp denotes: its fields read in UTC when it ends in
    Z or UTC, and in the local zone of the host when it names no zone. *)
Definition stampInstant (host : Host) (t : Stamp) : option Z :=
  match zone t with
  | NoZone => option_map (utcTime host) (utcInstant t)
  | ZoneZ | ZoneUTC => utcInstant t
  end.

(** The white space the pattern requires after a timestamp. *)
Definition whiteSpace (ws : str) : bool :=
  truthyStr ws && forallb isWhiteSpace ws.

(** The text after a timestamp goes on with UTC and white space: the zone
    of a longer timestamp. *)
Definition followsUTC (after : str) : bool :=
  match stripPrefix (lit " UTC") after with
  | Some (w :: _) => isWhiteSpace w
  | _ => false
  end.

(** [ts] is the longest timestamp at the head of [ts ++ after]. *)
Definition longest (t : Stamp) (after : str) : bool :=
  match zone t with
  | NoZone => negb (followsUTC after)
  | ZoneZ | ZoneUTC => true
  end.

Definition noLineTerminator (s : str) : bool :=
  forallb (fun c => negb (isLineTerminator c)) s.

(* ================================================================== *)
(** * Views of the state used in the statements *)

Section Views.

Variable host : Host.

(** The renderer a handler with the given [isRuntime] uses in the state
    [this]: [formatLogLine] when the handler belongs to a runtime stream and
    a runtime configuration is set, the function of [updateContent]
    otherwise. *)
Definition renderLine (this : LogsWebview) (isRuntime : bool) (line : str) : str :=
  match isRuntime, runtimeConfig this with
  | true, Some _ => formatLogLine host (showTimestamp this) line
  | _, _ => contentLine host (showTimestamp this) line
  end.

(** The rendered lines of a log content, in order. *)
Definition renderLines (this : LogsWebview) (isRuntime : bool) (logContent : str) : list str :=
  map (renderLine this isRuntime) (split LF logContent).

(** The document such a handler writes for the rendered lines [lines]. *)
Definition pageOf (this : LogsWebview) (isRuntime : bool) (lines : list str) : Page :=
  match isRuntime, runtimeConfig this with
  | true, Some cfg =>
      RuntimePage (join [LF] lines) (containers cfg) (selectedContainerId cfg) (tail cfg)
  | _, _ => LogsPage (join [LF] lines)
  end.

(** A document whose log lines were rendered with the timestamp switched
    off. *)
Definition withoutTimestamps (page : Page) : Prop :=
  match page with
  | LogsPage content =>
      exists logContent, content = join [LF] (contentLines host false logContent)
  | RuntimePage content _ _ _ =>
      exists logContent, content = join [LF] (runtimeLines host false logContent)
  | BlankPage | EmptyStatePage _ => True
  end.


End Views.

(** The same timestamp with another zone suffix. *)
Definition withZone (z : Zone) (t : Stamp) : Stamp :=
  {| yyyy := yyyy t; mo := mo t; dd := dd t; sep := sep t;
     hh := hh t; mi := mi t; ss := ss t; fraction := fraction t; zone := z |}.


(* ================================================================== *)
(** * Examples used in the statements *)

Definition demoApp : Application :=
  {| appTitle := lit "api"; appName := lit "api-x1"; serverId := None |}.

Definition demoClient : DokployClient :=
  {| endpoint := lit "https://dokploy.example"; apiKey := lit "key" |}.

Definition demoContainer : Container :=
  {| containerId := lit "c1"; containerName := lit "api.1"; containerState := lit "running" |}.

(** The object after [showRuntimeLogs] found one container. *)
Definition demoRuntime : LogsWebview :=
  run utcHost [CallShowRuntimeLogs demoApp demoClient [demoContainer]] (constructor None).

(** The object after [showWithWebSocket] and the open event of its socket. *)
Definition demoStream : LogsWebview :=
  run utcHost [CallShowWithWebSocket (lit "Deployment") (GivenUrl (lit "wss://x/listen")) [];
               WsOpen false] (constructor None).

(** The timestamp 2024-01-05T10:00:00Z and the impossible 2024-13-45 10:00:00. *)
Definition demoStamp : Stamp :=
  {| yyyy := lit "2024"; mo := lit "01"; dd := lit "05"; sep := chr "T";
     hh := lit "10"; mi := lit "00"; ss := lit "00"; fraction := None; zone := ZoneZ |}.

Definition badStamp : Stamp :=
  {| yyyy := lit "2024"; mo := lit "13"; dd := lit "45"; sep := chr " ";
     hh := lit "10"; mi := lit "00"; ss := lit "00"; fraction := None; zone := NoZone |}.

(* ================================================================== *)
(** * The other services of the extension

    The git service, the deployments provider and the configuration
    service, which the log view does not use. *)

(** [a === b] on strings. *)
Definition sameText (a b : str) : bool :=
  if list_eq_dec N.eq_dec a b then true else false.

(* ================================================================== *)
(** * Patterns with a negated class and a lazy quantifier

    The patterns of the git service use two forms the patterns of the log
    view do not: a class that excludes one character, and the lazy
    quantifier +?.  [rx] adds them to the patterns of [Regex]; the matcher
    hands a pattern of [Regex] to the matcher of [Regex], without the
    ignore-case flag. *)

Module Pattern.

Inductive rx : Type :=
| Re (r : re)                (* a pattern of Regex *)
| NotChr (x : char)          (* [^x] *)
| Then (a b : rx)
| Many1 (a : rx)             (* a+ *)
| Few1 (a : rx)              (* a+? *)
| Maybe (a : rx)             (* a? *)
| Group (i : nat) (a : rx).  (* capturing group number i *)

Definition Thens (l : list rx) : rx := fold_right Then (Re Eps) l.

(** The loop of a lazy quantifier without upper bound: the continuation
    first, another round of [step] when that fails.  A round that reads
    nothing is refused, as in RepeatMatcher. *)
Fixpoint lazyLoop (step : pos -> caps -> cont -> option caps) (fuel : nat)
  (p : pos) (c : caps) (k : cont) : option caps :=
  match fuel with
  | O => k p c
  | S f =>
      match k p c with
      | Some r => Some r
      | None =>
          step p c (fun p' c' =>
                      if Nat.ltb (List.length (rest p')) (List.length (rest p))
                      then lazyLoop step f p' c' k else None)
      end
  end.

Fixpoint mx (r : rx) (p : pos) (c : caps) (k : cont) : option caps :=
  match r with
  | Re r' => m false r' p c k
  | NotChr x => one (fun y => negb (N.eqb x y)) p c k
  | Then a b => mx a p c (fun p' c' => mx b p' c' k)
  | Many1 a =>
      mx a p c (fun p' c' => loop (mx a) (S (List.length (rest p'))) p' c' k)
  | Few1 a =>
      mx a p c (fun p' c' => lazyLoop (mx a) (S (List.length (rest p'))) p' c' k)
  | Maybe a =>
      match mx a p c (fun p' c' =>
                        if Nat.ltb (List.length (rest p')) (List.length (rest p))
                        then k p' c' else None) with
      | Some r => Some r
      | None => k p c
      end
  | Group i a =>
      mx a p c (fun p' c' =>
        k p' ((i, firstn (List.length (rest p) - List.length (rest p')) (rest p)) :: c'))
  end.

(** The leftmost match: every start position in turn, from the first. *)
Fixpoint search (r : rx) (prev : option char) (s : str) : option caps :=
  match mx r {| before := prev; rest := s |} [] (fun _ c => Some c) with
  | Some c => Some c
  | None =>
      match s with
      | [] => None
      | x :: s' => search r (Some x) s'
      end
  end.

(** [s.match(r)] for a pattern without the global flag. *)
Definition exec (r : rx) (s : str) : option caps := search r None s.

(** [s.replace(r, rep)] for a pattern without the global flag and a
    replacement without dollar sign: the leftmost match is replaced.  The
    continuation hands back the input left after the match. *)
Fixpoint replaceFrom (r : re) (rep : str) (prev : option char) (s : str) : str :=
  match m false r {| before := prev; rest := s |} [] (fun p _ => Some [(0%nat, rest p)]) with
  | Some c => rep ++ group 0 c
  | None =>
      match s with
      | [] => []
      | x :: s' => x :: replaceFrom r rep (Some x) s'
      end
  end.

Definition replaceFirst (r : re) (rep : str) (s : str) : str := replaceFrom r rep None s.

End Pattern.

(* ================================================================== *)
(** * The git service

    [parseRemoteUrl] and [matchesRepository] of the class GitService.
    [getRepositoryInfo] runs git and hands the trimmed output to
    [parseRemoteUrl]. *)

Module GitService.

Import Pattern.

Record RepositoryInfo : Type := {
  owner : str;
  repo : str;
  url : str
}.

(** "^git@([^:]+):([^/]+)\/(.+?)(?:\.git)?$" *)
Definition sshPattern : rx :=
  Thens [Re Bol; Re (Str "git@"); Group 1 (Many1 (NotChr (chr ":"))); Re (Chr (chr ":"));
         Group 2 (Many1 (NotChr (chr "/"))); Re (Chr (chr "/"));
         Group 3 (Few1 (Re Any)); Maybe (Re (Str ".git")); Re Eol].

(** "^https?:\/\/[^/]+\/([^/]+)\/(.+?)(?:\.git)?$" *)
Definition httpsPattern : rx :=
  Thens [Re Bol; Re (Str "http"); Re (Opt (Chr (chr "s"))); Re (Str "://");
         Many1 (NotChr (chr "/")); Re (Chr (chr "/"));
         Group 1 (Many1 (NotChr (chr "/"))); Re (Chr (chr "/"));
         Group 2 (Few1 (Re Any)); Maybe (Re (Str ".git")); Re Eol].

Definition parseRemoteUrl (url : str) : option RepositoryInfo :=
  match exec sshPattern url with
  | Some sshMatch =>
      Some {| owner := group 2 sshMatch; repo := group 3 sshMatch; url := url |}
  | None =>
      match exec httpsPattern url with
      | Some httpsMatch =>
          Some {| owner := group 1 httpsMatch; repo := group 2 httpsMatch; url := url |}
      | None => None
      end
  end.

(** "\.git$" *)
Definition gitSuffix : re := Seq (Str ".git") Eol.

Section Matching.

(** [String.prototype.toLowerCase] of the platform. *)
Variable toLowerCase : str -> str.

(** [appRepo] and [appOwner] are optional fields of an application; an
    empty string is as good as a missing one. *)
Definition matchesRepository (appRepo appOwner : option str) (repoInfo : RepositoryInfo) : bool :=
  match appRepo, appOwner with
  | Some appRepo, Some appOwner =>
      if negb (truthyStr appRepo) || negb (truthyStr appOwner) then false
      else
        let normalizedAppRepo := toLowerCase (replaceFirst gitSuffix [] appRepo) in
        let normalizedRepo := toLowerCase (repo repoInfo) in
        let normalizedAppOwner := toLowerCase appOwner in
        let normalizedOwner := toLowerCase (owner repoInfo) in
        sameText normalizedAppRepo normalizedRepo
        && sameText normalizedAppOwner normalizedOwner
  | _, _ => false
  end.

End Matching.

End GitService.

(* ================================================================== *)
(** * The deployments provider

    The part of the class DeploymentsProvider that selects the applications
    of the workspace and words the age of a deployment. *)

Module Deployments.

(** The fields of an Application the provider reads. *)
Record Application : Type := {
  applicationId : str;
  name : str;
  repository : option str;
  owner : option str
}.

Record Environment : Type := {
  environmentId : str;
  applications : list Application
}.

Record Project : Type := {
  projectId : str;
  environments : list Environment
}.

Record MatchedEnvironment : Type := {
  environment : Environment;
  matchedApplications : list Application     (* applications *)
}.

Section Provider.

(** [String.prototype.toLowerCase] of the platform. *)
Variable toLowerCase : str -> str.

(** The loops of the source, each [push] an element added at the end. *)
Definition findMatchingEnvironments (repoInfo : option GitService.RepositoryInfo)
  (projects : list Project) : list MatchedEnvironment :=
  match repoInfo with
  | None => []
  | Some thisRepoInfo =>
      fold_left (fun matchedEnvs project =>
        fold_left (fun matchedEnvs env =>
          let matchedApps :=
            fold_left (fun matchedApps app =>
              if GitService.matchesRepository toLowerCase (repository app) (owner app)
                   thisRepoInfo
              then matchedApps ++ [app] else matchedApps)
              (applications env) [] in
          if Nat.ltb 0 (List.length matchedApps)
          then matchedEnvs ++ [{| environment := env; matchedApplications := matchedApps |}]
          else matchedEnvs)
          (environments project) matchedEnvs)
        projects []
  end.

(** [getMatchedApplications], on the field [matchedEnvironments]. *)
Definition getMatchedApplications (matchedEnvironments : list MatchedEnvironment)
  : list Application :=
  flat_map matchedApplications matchedEnvironments.

(** The description of a root item of the tree. *)
Definition description (matchedEnv : MatchedEnvironment) : str :=
  let n := List.length (matchedApplications matchedEnv) in
  natToString (N.of_nat n) ++ lit " app" ++ (if Nat.ltb 1 n then lit "s" else []).

End Provider.

(** [Math.floor(n / k)] for a positive [k]. *)
Definition floorDiv (n : Num) (k : Z) : Num :=
  match n with
  | NaN => NaN
  | Int z => Int (z / k)
  end.

(** [n < k]; a comparison with NaN is false. *)
Definition lessThan (n : Num) (k : Z) : bool :=
  match n with
  | NaN => false
  | Int z => Z.ltb z k
  end.

(** [formatDate].  [now] is the time value of [new Date()] and [date] that of
    [new Date(dateString)], none for an invalid Date; the time values of
    instants since 1970 and their differences are integers that the numbers
    of JavaScript hold exactly. *)
Definition formatDate (now : Z) (date : option Z) : str :=
  let diffMs := match date with Some d => Int (now - d) | None => NaN end in
  let diffMins := floorDiv diffMs 60000 in
  let diffHours := floorDiv diffMs 3600000 in
  let diffDays := floorDiv diffMs 86400000 in
  if lessThan diffMins 1 then lit "just now"
  else if lessThan diffMins 60 then numToString diffMins ++ lit "m ago"
  else if lessThan diffHours 24 then numToString diffHours ++ lit "h ago"
  else numToString diffDays ++ lit "d ago".

End Deployments.

(* ================================================================== *)
(** * The configuration service

    The class ConfigService keeps the servers and the active server in the
    settings of the editor and the API keys in its secret storage.  [Store]
    is what the two hold; a method maps a store to the next one. *)

Module ConfigService.

Record DokployServerConfig : Type := {
  id : str;
  name : str;
  endpoint : str
}.

Record Store : Type := {
  servers : list DokployServerConfig;   (* the setting dokploy.servers *)
  activeServerId : option str;          (* the setting dokploy.activeServerId *)
  secrets : str -> option str           (* the secret storage *)
}.

Definition API_KEY_PREFIX : str := lit "dokploy.apiKey.".

(** A store without settings and without secrets. *)
Definition emptyStore : Store :=
  {| servers := []; activeServerId := None; secrets := fun _ => None |}.

Definition getServers (st : Store) : list DokployServerConfig := servers st.

Definition getActiveServerId (st : Store) : option str := activeServerId st.

Definition updateServers (l : list DokployServerConfig) (st : Store) : Store :=
  {| servers := l; activeServerId := activeServerId st; secrets := secrets st |}.

Definition setActiveServerId (serverId : option str) (st : Store) : Store :=
  {| servers := servers st; activeServerId := serverId; secrets := secrets st |}.

(** [secrets.store(key, value)] and [secrets.delete(key)] *)
Definition store (key value : str) (st : Store) : Store :=
  {| servers := servers st; activeServerId := activeServerId st;
     secrets := fun k => if sameText k key then Some value else secrets st k |}.

Definition delete (key : str) (st : Store) : Store :=
  {| servers := servers st; activeServerId := activeServerId st;
     secrets := fun k => if sameText k key then None else secrets st k |}.

Definition getApiKey (serverId : str) (st : Store) : option str :=
  secrets st (API_KEY_PREFIX ++ serverId).

Definition addServer (server : DokployServerConfig) (apiKey : str) (st : Store) : Store :=
  let servers := getServers st in
  let isFirstServer := Nat.eqb (List.length servers) 0 in
  let st := updateServers (servers ++ [server]) st in
  let st := store (API_KEY_PREFIX ++ id server) apiKey st in
  if isFirstServer then setActiveServerId (Some (id server)) st else st.

(** [servers[index] = server] at the first index whose server has the id. *)
Fixpoint replaceAtId (server : DokployServerConfig) (l : list DokployServerConfig)
  : option (list DokployServerConfig) :=
  match l with
  | [] => None
  | s :: l' =>
      if sameText (id s) (id server) then Some (server :: l')
      else option_map (cons s) (replaceAtId server l')
  end.

Definition updateServer (server : DokployServerConfig) (apiKey : option str) (st : Store)
  : Store :=
  match replaceAtId server (getServers st) with
  | Some servers =>
      let st := updateServers servers st in
      match apiKey with
      | Some key => if truthyStr key then store (API_KEY_PREFIX ++ id server) key st else st
      | None => st
      end
  | None => st
  end.

Definition sameId (a : option str) (b : str) : bool :=
  match a with
  | Some x => sameText x b
  | None => false
  end.

Definition removeServer (serverId : str) (st : Store) : Store :=
  let servers := filter (fun s => negb (sameText (id s) serverId)) (getServers st) in
  let st := updateServers servers st in
  let st := delete (API_KEY_PREFIX ++ serverId) st in
  if sameId (getActiveServerId st) serverId then
    let newActive := match servers with
                     | first :: _ => Some (id first)
                     | [] => None
                     end in
    setActiveServerId newActive st
  else st.

Definition getActiveServer (st : Store) : option DokployServerConfig :=
  match getActiveServerId st with
  | None => None
  | Some activeId =>
      if negb (truthyStr activeId) then None
      else find (fun s => sameText (id s) activeId) (getServers st)
  end.

(** [endpoint.replace(/\/$/, '')] *)
Definition normalizeEndpoint (endpoint : str) : str :=
  Pattern.replaceFirst (Seq (Str "/") Eol) [] endpoint.

(** An answer of the user that [if (!answer) return] lets through. *)
Definition answered (answer : option str) : option str :=
  match answer with
  | Some text => if truthyStr text then Some text else None
  | None => None
  end.


End ConfigService.

(* ================================================================== *)
(** * The command that opens an application in the browser *)

Module Extension.

(** [server.endpoint.replace(/\/api$/, '')] *)
Definition serverUrl (endpoint : str) : str :=
  Pattern.replaceFirst (Seq (Str "/api") Eol) [] endpoint.

(** The address [openInBrowser] opens, or the error it shows.  [server] is
    what [getActiveServer] returns. *)
Definition openInBrowser (server : option ConfigService.DokployServerConfig)
  (projectId : str) (environmentId : option str) (applicationId : str) : str + str :=
  match server with
  | None => inl (lit "No active server configured")
  | Some server =>
      match ConfigService.answered environmentId with
      | None => inl (lit "Missing environment information for this application")
      | Some environmentId =>
          inr (serverUrl (ConfigService.endpoint server)
               ++ lit "/dashboard/project/" ++ projectId
               ++ lit "/environment/" ++ environmentId
               ++ lit "/services/application/" ++ applicationId)
      end
  end.

End Extension.

(* ================================================================== *)
(** * Facts about strings *)

Module JSFacts.

Import JS.

Lemma takeWhile_dropWhile (p : char -> bool) (s : str) :
  takeWhile p s ++ dropWhile p s = s.
Proof.
  induction s as [|c s IH]; simpl; [reflexivity|].
  destruct (p c); simpl; [now rewrite IH | reflexivity].
Qed.

Lemma takeWhile_all (p : char -> bool) (s : str) :
  forallb p (takeWhile p s) = true.
Proof.
  induction s as [|c s IH]; simpl; [reflexivity|].
  destruct (p c) eqn:E; simpl; [now rewrite E | reflexivity].
Qed.

Lemma dropWhile_head (p : char -> bool) (s : str) :
  match dropWhile p s with
  | [] => True
  | c :: _ => p c = false
  end.
Proof.
  induction s as [|c s IH]; simpl; [exact I|].
  destruct (p c) eqn:E; [exact IH | exact E].
Qed.

Lemma dropWhile_app_all (p : char -> bool) (a b : str) :
  forallb p a = true -> dropWhile p (a ++ b) = dropWhile p b.
Proof.
  induction a as [|c a IH]; simpl; [reflexivity|].
  intros H. apply andb_prop in H as [Hc Ha]. now rewrite Hc, IH.
Qed.

Lemma takeWhile_app_stop (p : char -> bool) (a b : str) :
  forallb p a = true ->
  match b with [] => True | c :: _ => p c = false end ->
  takeWhile p (a ++ b) = a /\ dropWhile p (a ++ b) = b.
Proof.
  induction a as [|c a IH]; simpl; intros Ha Hb.
  - destruct b as [|x b]; simpl; [split; reflexivity|]. now rewrite Hb.
  - apply andb_prop in Ha as [Hc Ha]. rewrite Hc.
    destruct (IH Ha Hb) as [-> ->]. split; reflexivity.
Qed.

Lemma forallb_dropWhile (q p : char -> bool) (s : str) :
  forallb q s = true -> forallb q (dropWhile p s) = true.
Proof.
  induction s as [|c s IH]; simpl; [reflexivity|].
  intros H. destruct (p c).
  - apply IH. now apply andb_prop in H as [_ H].
  - exact H.
Qed.

(** Leading white space does not change what [trim] returns. *)
Lemma trim_dropWhile (s : str) : trim (dropWhile isWhiteSpace s) = trim s.
Proof.
  unfold trim. f_equal. f_equal. f_equal.
  induction s as [|c s IH]; simpl; [reflexivity|].
  destruct (isWhiteSpace c) eqn:E; [exact IH | simpl; now rewrite E].
Qed.

(** ** Splitting at line breaks *)

Lemma split_nonempty (sep : char) (s : str) : split sep s <> [].
Proof.
  destruct s as [|c s]; simpl; [discriminate|].
  destruct (N.eqb c sep); [discriminate|].
  destruct (split sep s); discriminate.
Qed.

Lemma split_cons_other (sep c : char) (s : str) :
  N.eqb c sep = false ->
  split sep (c :: s) = (c :: hd [] (split sep s)) :: tl (split sep s).
Proof.
  intros H. simpl. rewrite H.
  destruct (split sep s) eqn:E; [now apply split_nonempty in E | reflexivity].
Qed.

(** The pieces of [a ++ b]: the pieces of [a], the last of them continued
    by the first piece of [b], then the other pieces of [b]. *)
Lemma split_app (sep : char) (a b : str) :
  split sep (a ++ b) =
  removelast (split sep a) ++ split sep (last (split sep a) [] ++ b).
Proof.
  induction a as [|c a IH].
  - reflexivity.
  - change ((c :: a) ++ b) with (c :: (a ++ b)).
    destruct (N.eqb c sep) eqn:E.
    + simpl. rewrite E. rewrite IH.
      destruct (split sep a) eqn:Ea; [now apply split_nonempty in Ea|].
      reflexivity.
    + rewrite !split_cons_other by exact E.
      rewrite IH.
      destruct (split sep a) as [|l ls] eqn:Ea; [now apply split_nonempty in Ea|].
      destruct ls as [|l' ls'].
      * simpl. rewrite E.
        destruct (split sep (l ++ b)) eqn:El; [now apply split_nonempty in El|].
        reflexivity.
      * simpl. reflexivity.
Qed.

(** A line break between [a] and [b] separates their pieces. *)
Lemma split_app_sep (sep : char) (a b : str) :
  split sep (a ++ sep :: b) = split sep a ++ split sep b.
Proof.
  induction a as [|c a IH].
  - simpl. now rewrite N.eqb_refl.
  - change ((c :: a) ++ sep :: b) with (c :: (a ++ sep :: b)).
    destruct (N.eqb c sep) eqn:E.
    + simpl. rewrite E. now rewrite IH.
    + rewrite !split_cons_other by exact E. rewrite IH.
      destruct (split sep a) eqn:Ea; [now apply split_nonempty in Ea|].
      reflexivity.
Qed.

Lemma last_map {A B : Type} (f : A -> B) (l : list A) (d : A) :
  last (map f l) (f d) = f (last l d).
Proof.
  induction l as [|x l IH]; [reflexivity|].
  destruct l as [|y l]; [reflexivity|].
  simpl in *. exact IH.
Qed.

Lemma removelast_map {A B : Type} (f : A -> B) (l : list A) :
  removelast (map f l) = map f (removelast l).
Proof.
  induction l as [|x l IH]; [reflexivity|].
  destruct l as [|y l]; [reflexivity|].
  simpl in *. now rewrite IH.
Qed.

End JSFacts.

(* ================================================================== *)
(** * Facts about the matcher *)

Module RegexFacts.

Import JS Regex JSFacts.

(** The character before the position reached by reading [run]. *)
Fixpoint prevOf (b : option char) (run : str) : option char :=
  match run with
  | [] => b
  | c :: r => prevOf (Some c) r
  end.

Lemma one_cons (ok : char -> bool) b x s c k :
  one ok (Pos b (x :: s)) c k = if ok x then k (Pos (Some x) s) c else None.
Proof. reflexivity. Qed.

(** A counted repetition of a one-character matcher reads a run of the
    characters it accepts. *)
Lemma times_run (ok : char -> bool) (run : str) : forall b s c k,
  forallb ok run = true ->
  times (one ok) (List.length run) (Pos b (run ++ s)) c k = k (Pos (prevOf b run) s) c.
Proof.
  induction run as [|x run IH]; intros b s c k H; simpl; [reflexivity|].
  simpl in H. apply andb_prop in H as [Hx Hr].
  rewrite one_cons, Hx. now apply IH.
Qed.

(** The greedy loop reads a whole run when the continuation succeeds
    after it: the longest reading is the first one tried. *)
Lemma loop_run (ok : char -> bool) (run : str) : forall fuel b s c k r,
  forallb ok run = true ->
  match s with [] => True | x :: _ => ok x = false end ->
  (List.length (run ++ s) < fuel)%nat ->
  k (Pos (prevOf b run) s) c = Some r ->
  loop (one ok) fuel (Pos b (run ++ s)) c k = Some r.
Proof.
  induction run as [|x run IH]; intros fuel b s c k r Hrun Hs Hfuel Hk.
  - simpl in *. destruct fuel as [|f]; simpl; [exact Hk|].
    destruct s as [|y s].
    + unfold one; simpl. exact Hk.
    + rewrite one_cons, Hs. exact Hk.
  - simpl in Hrun. apply andb_prop in Hrun as [Hx Hr].
    destruct fuel as [|f]; [simpl in Hfuel; lia|].
    simpl. rewrite one_cons, Hx. simpl.
    replace (Nat.ltb _ _) with true.
    + rewrite (IH f (Some x) s c k r); auto. simpl in Hfuel. lia.
    + symmetry. apply Nat.ltb_lt. lia.
Qed.

(** ** The fuel of the loop never runs out

    A matcher depends on its continuation only through the results the
    continuation gives; so the loop of a quantifier gives the same result
    for every fuel above the length of the input left, which is more than
    the rounds it can make. *)

Definition extensional (step : pos -> caps -> cont -> option caps) : Prop :=
  forall p c k1 k2, (forall p' c', k1 p' c' = k2 p' c') -> step p c k1 = step p c k2.

Lemma one_extensional (ok : char -> bool) : extensional (one ok).
Proof.
  intros p c k1 k2 H. unfold one. destruct (rest p) as [|x s]; [reflexivity|].
  destruct (ok x); [apply H | reflexivity].
Qed.

Lemma loop_extensional step fuel : extensional step -> extensional (loop step fuel).
Proof.
  intros Hstep. induction fuel as [|f IH]; intros p c k1 k2 H; simpl; [apply H|].
  rewrite (Hstep p c _ (fun p' c' =>
             if Nat.ltb (List.length (rest p')) (List.length (rest p))
             then loop step f p' c' k2 else None)).
  - now rewrite H.
  - intros p' c'. destruct (Nat.ltb _ _); [now apply IH | reflexivity].
Qed.

Lemma times_extensional step n : extensional step -> extensional (times step n).
Proof.
  intros Hstep. induction n as [|n IH]; intros p c k1 k2 H; simpl; [apply H|].
  apply Hstep. intros p' c'. now apply IH.
Qed.

Lemma m_extensional ic (r : re) : extensional (m ic r).
Proof.
  induction r as [ | x | | items | | | | a IHa b IHb | a IHa b IHb | a IHa | a IHa | a IHa
                 | n a IHa | i a IHa ]; intros p c k1 k2 H; cbn [m].
  - apply H.
  - now apply one_extensional.
  - now apply one_extensional.
  - now apply one_extensional.
  - destruct (before p); [reflexivity | apply H].
  - destruct (rest p); [apply H | reflexivity].
  - destruct (xorb _ _); [apply H | reflexivity].
  - apply IHa. intros p' c'. now apply IHb.
  - rewrite (IHa p c k1 k2 H), (IHb p c k1 k2 H). reflexivity.
  - now apply loop_extensional.
  - apply IHa. intros p' c'. now apply loop_extensional.
  - rewrite (IHa p c _ (fun p' c' =>
               if Nat.ltb (List.length (rest p')) (List.length (rest p))
               then k2 p' c' else None)).
    + now rewrite H.
    + intros p' c'. destruct (Nat.ltb _ _); [apply H | reflexivity].
  - now apply times_extensional.
  - apply IHa. intros p' c'. apply H.
Qed.

Lemma loop_fuel step : extensional step ->
  forall f1 f2 p c k,
    (List.length (rest p) < f1)%nat -> (List.length (rest p) < f2)%nat ->
    loop step f1 p c k = loop step f2 p c k.
Proof.
  intros Hstep. induction f1 as [|f1 IH]; intros f2 p c k H1 H2; [lia|].
  destruct f2 as [|f2]; [lia|]. simpl.
  rewrite (Hstep p c _ (fun p' c' =>
             if Nat.ltb (List.length (rest p')) (List.length (rest p))
             then loop step f2 p' c' k else None)); [reflexivity|].
  intros p' c'. destruct (Nat.ltb _ _) eqn:E; [|reflexivity].
  apply Nat.ltb_lt in E. apply IH; lia.
Qed.

(** The star of the matcher, with any fuel above the length of the input. *)
Lemma star_fuel ic (a : re) (fuel : nat) p c k :
  (List.length (rest p) < fuel)%nat ->
  loop (m ic a) fuel p c k = m ic (Star a) p c k.
Proof.
  intros H. cbn [m]. apply loop_fuel; [apply m_extensional | exact H | lia].
Qed.

(** A run of literal characters read with the case kept. *)
Lemma m_literal (l : str) : forall b s c k,
  m false (Seqs (map Chr l)) (Pos b s) c k =
  match stripPrefix l s with
  | Some r => k (Pos (prevOf b (firstn (List.length l) s)) r) c
  | None => None
  end.
Proof.
  induction l as [|x l IH]; intros b s c k; simpl; [reflexivity|].
  destruct s as [|y s]; [reflexivity|].
  rewrite one_cons. unfold chrMatch.
  destruct (N.eqb x y); [|reflexivity].
  apply IH.
Qed.

Lemma firstn_app_length (a b : str) :
  firstn (List.length (a ++ b) - List.length b) (a ++ b) = a.
Proof.
  rewrite length_app. replace (_ + _ - _)%nat with (List.length a) by lia.
  rewrite firstn_app, Nat.sub_diag, firstn_all. simpl. apply app_nil_r.
Qed.


(** ** The pattern of [parseLogLine] *)

Definition okDigit (x : char) : bool := existsb (fun it => itemMatch false it x) [IDigit].
Definition okSpace (x : char) : bool := existsb (fun it => itemMatch false it x) [ISpace].
Definition okAny (x : char) : bool := negb (isLineTerminator x).

Lemma okDigit_eq x : okDigit x = isDigit x.
Proof. unfold okDigit. simpl. apply orb_false_r. Qed.

Lemma okSpace_eq x : okSpace x = isWhiteSpace x.
Proof. unfold okSpace. simpl. apply orb_false_r. Qed.

Lemma forallb_eq (p q : char -> bool) (s : str) :
  (forall x, p x = q x) -> forallb p s = forallb q s.
Proof. intros H. induction s as [|x s IH]; simpl; [reflexivity|]. now rewrite H, IH. Qed.

Lemma m_digits (n : nat) (run : str) b s c k :
  digitsOf n run = true ->
  m false (Rep n digit) (Pos b (run ++ s)) c k = k (Pos (prevOf b run) s) c.
Proof.
  unfold digitsOf. intros H. apply andb_prop in H as [Hn Hd].
  apply Nat.eqb_eq in Hn. subst n.
  change (m false (Rep (List.length run) digit)) with (times (one okDigit) (List.length run)).
  apply times_run. rewrite <- Hd. apply forallb_eq, okDigit_eq.
Qed.

Lemma m_chr (x : char) b s c k :
  m false (Chr x) (Pos b (x :: s)) c k = k (Pos (Some x) s) c.
Proof. simpl. rewrite one_cons. unfold chrMatch. now rewrite N.eqb_refl. Qed.

(** White space is neither a digit, nor a dot, nor the letter Z. *)
Lemma space_other (w : char) :
  isWhiteSpace w = true ->
  isDigit w = false /\ N.eqb 46 w = false /\ N.eqb 90 w = false.
Proof.
  intros H. repeat split.
  - unfold isDigit. destruct (N.leb 48 w) eqn:E1; [|reflexivity].
    destruct (N.leb w 57) eqn:E2; [|reflexivity].
    apply N.leb_le in E1, E2. exfalso.
    unfold isWhiteSpace in H.
    repeat (apply orb_prop in H as [H|H]);
      try (apply N.eqb_eq in H; lia).
    apply andb_prop in H as [H _]. apply N.leb_le in H. lia.
  - destruct (N.eqb_spec 46 w) as [<-|]; [discriminate H | reflexivity].
  - destruct (N.eqb_spec 90 w) as [<-|]; [discriminate H | reflexivity].
Qed.

(** What follows the first group: white space, the message, the end. *)
Definition tailRe : re := Seqs [Plus space; Grp 2 (Star Any); Eol].

Lemma tail_success b (w : char) (ws msg : str) c :
  isWhiteSpace w = true ->
  forallb isWhiteSpace ws = true ->
  noLineTerminator msg = true ->
  m false tailRe (Pos b (w :: ws ++ msg)) c (fun _ c' => Some c')
  = Some ((2%nat, dropWhile isWhiteSpace msg) :: c).
Proof.
  intros Hw Hws Hmsg.
  unfold tailRe, Seqs. simpl fold_right.
  change (m false (Seq (Plus space) ?r) ?p ?c ?k)
    with (m false (Plus space) p c (fun p' c' => m false r p' c' k)).
  change (m false (Plus space) ?p ?c ?k)
    with (one okSpace p c (fun p' c' => loop (one okSpace) (S (List.length (rest p'))) p' c' k)).
  rewrite one_cons, okSpace_eq, Hw.
  cbv beta. unfold rest at 1.
  rewrite <- (takeWhile_dropWhile isWhiteSpace (ws ++ msg)).
  apply loop_run.
  - rewrite (forallb_eq _ _ _ okSpace_eq). apply takeWhile_all.
  - pose proof (dropWhile_head isWhiteSpace (ws ++ msg)) as H.
    destruct (dropWhile isWhiteSpace (ws ++ msg)); [exact I|]. now rewrite okSpace_eq.
  - lia.
  - rewrite dropWhile_app_all by exact Hws.
    set (R := dropWhile isWhiteSpace msg).
    set (b' := prevOf _ _).
    change (m false (Seq (Grp 2 (Star Any)) ?r) ?p ?c ?k)
      with (loop (one okAny) (S (List.length (rest p))) p c
              (fun p' c' => m false r p'
                 ((2%nat, firstn (List.length (rest p) - List.length (rest p')) (rest p)) :: c') k)).
    unfold rest at 1 2 3.
    rewrite <- (app_nil_r R) at 2.
    apply loop_run.
    + apply forallb_dropWhile. exact Hmsg.
    + exact I.
    + rewrite app_nil_r. lia.
    + simpl. rewrite Nat.sub_0_r, firstn_all. reflexivity.
Qed.

Lemma tail_fail b (s : str) c k :
  match s with [] => True | x :: _ => isWhiteSpace x = false end ->
  m false tailRe (Pos b s) c k = None.
Proof.
  intros H. unfold tailRe, Seqs. simpl.
  destruct s as [|x s]; [reflexivity|].
  rewrite one_cons. simpl. now rewrite H.
Qed.


Definition zoneRe : re := Opt (Alt (Chr (chr "Z")) (Str " UTC")).
Definition fractionRe : re := Opt (Seq (Chr (chr ".")) (Plus digit)).

(** The optional zone, before a continuation that wants white space next:
    the zone is read when it stands there, and skipped when it does not. *)
Lemma zone_step (z : Zone) (w : char) (rest0 : str) b c (K : cont) r :
  isWhiteSpace w = true ->
  match z with NoZone => followsUTC (w :: rest0) = false | _ => True end ->
  (forall b', K (Pos b' (w :: rest0)) c = Some r) ->
  (forall b' s, match s with [] => True | x :: _ => isWhiteSpace x = false end ->
                K (Pos b' s) c = None) ->
  m false zoneRe (Pos b (zoneText z ++ w :: rest0)) c K = Some r.
Proof.
  intros Hw Hlong Hok Hfail.
  destruct (space_other w Hw) as (_ & _ & HZ).
  unfold zoneRe.
  change (m false (Opt ?a) ?p ?c ?k)
    with (match m false a p c (fun p' c' =>
                  if Nat.ltb (List.length (rest p')) (List.length (rest p))
                  then k p' c' else None) with
          | Some r => Some r
          | None => k p c
          end).
  change (m false (Alt ?a ?a') ?p ?c ?k)
    with (match m false a p c k with Some r => Some r | None => m false a' p c k end).
  unfold Str. rewrite m_literal.
  destruct z; simpl zoneText.
  - (* no zone *)
    simpl List.app. simpl m. rewrite one_cons. unfold chrMatch.
    change (chr "Z") with 90%N. rewrite HZ.
    unfold followsUTC in Hlong.
    destruct (stripPrefix (lit " UTC") (w :: rest0)) as [after|] eqn:E.
    + unfold rest.
      destruct (Nat.ltb _ _); [|apply Hok].
      rewrite Hfail; [apply Hok|].
      destruct after as [|x after]; [exact I | exact Hlong].
    + apply Hok.
  - (* Z *)
    simpl List.app. simpl m. rewrite one_cons. unfold chrMatch. simpl N.eqb.
    unfold rest. replace (Nat.ltb _ _) with true.
    + now rewrite Hok.
    + symmetry. apply Nat.ltb_lt. simpl. lia.
  - (* UTC *)
    simpl List.app. simpl m. rewrite one_cons. unfold chrMatch. simpl N.eqb. cbv iota.
    simpl stripPrefix. unfold rest.
    replace (Nat.ltb _ _) with true.
    + now rewrite Hok.
    + symmetry. apply Nat.ltb_lt. simpl. lia.
Qed.

(** The optional fraction, before a continuation that succeeds after it. *)
Lemma fraction_step (f : option str) (x : char) (rest0 : str) b c (K : cont) r :
  match f with Some ds => truthyStr ds && forallb isDigit ds | None => true end = true ->
  isDigit x = false -> N.eqb 46 x = false ->
  (forall b', K (Pos b' (x :: rest0)) c = Some r) ->
  m false fractionRe (Pos b (fractionText f ++ x :: rest0)) c K = Some r.
Proof.
  intros Hf Hx Hdot Hok.
  unfold fractionRe.
  change (m false (Opt ?a) ?p ?c ?k)
    with (match m false a p c (fun p' c' =>
                  if Nat.ltb (List.length (rest p')) (List.length (rest p))
                  then k p' c' else None) with
          | Some r => Some r
          | None => k p c
          end).
  destruct f as [ds|]; simpl fractionText.
  - apply andb_prop in Hf as [Hne Hds].
    destruct ds as [|d ds]; [discriminate Hne|].
    simpl in Hds. apply andb_prop in Hds as [Hd Hds].
    change (m false (Seq (Chr ?y) (Plus digit)) ?p ?c ?k)
      with (m false (Chr y) p c (fun p1 c1 =>
              one okDigit p1 c1 (fun p' c' =>
                loop (one okDigit) (S (List.length (rest p'))) p' c' k))).
    simpl List.app. rewrite m_chr, one_cons, okDigit_eq, Hd.
    cbv beta. unfold rest at 1.
    rewrite (loop_run okDigit ds (S (List.length (ds ++ x :: rest0))) (Some d) (x :: rest0) c _ r);
      [reflexivity | | | | ].
    + rewrite <- Hds. apply forallb_eq, okDigit_eq.
    + now rewrite okDigit_eq.
    + lia.
    + unfold rest. replace (Nat.ltb _ _) with true; [apply Hok|].
      symmetry. apply Nat.ltb_lt. simpl. rewrite length_app. simpl. lia.
  - simpl List.app. simpl m. rewrite one_cons. unfold chrMatch.
    change (chr ".") with 46%N. rewrite Hdot. apply Hok.
Qed.


Lemma m_seq ic a a' p c k :
  m ic (Seq a a') p c k = m ic a p c (fun p' c' => m ic a' p' c' k).
Proof. reflexivity. Qed.

Lemma m_sep (x : char) b s c k :
  N.eqb x (chr "T") || N.eqb x (chr " ") = true ->
  m false (Cls [IChar (chr "T"); IChar (chr " ")]) (Pos b (x :: s)) c k
  = k (Pos (Some x) s) c.
Proof.
  intros H.
  apply orb_prop in H as [H | H]; apply N.eqb_eq in H; subst x; reflexivity.
Qed.

(** The first group of the pattern, without its parentheses. *)
Definition stampRe : re :=
  Seqs [ Rep 4 digit; Chr (chr "-"); Rep 2 digit; Chr (chr "-"); Rep 2 digit;
         Cls [IChar (chr "T"); IChar (chr " ")];
         Rep 2 digit; Chr (chr ":"); Rep 2 digit; Chr (chr ":"); Rep 2 digit;
         fractionRe; zoneRe ].

(** The first group reads a well-formed timestamp to its end, when that is
    its longest reading and the continuation asks for white space. *)
Lemma stamp_step (t : Stamp) (w : char) (rest0 : str) c (K : cont) r :
  wellFormed t = true ->
  isWhiteSpace w = true ->
  longest t (w :: rest0) = true ->
  (forall b', K (Pos b' (w :: rest0)) c = Some r) ->
  (forall b' s, match s with [] => True | x :: _ => isWhiteSpace x = false end ->
                K (Pos b' s) c = None) ->
  m false stampRe (Pos None (stampText t ++ w :: rest0)) c K = Some r.
Proof.
  intros Hwf Hw Hlong Hok Hfail.
  unfold wellFormed in Hwf.
  do 7 (apply andb_prop in Hwf as [Hwf ?]).
  destruct (space_other w Hw) as (Hwd & Hwdot & _).
  unfold stampText. rewrite <- !app_assoc.
  change (lit "-") with [45%N]. change (lit ":") with [58%N].
  cbn [List.app].
  unfold stampRe, Seqs. cbn [fold_right].
  rewrite m_seq, m_digits by assumption. cbv beta.
  rewrite m_seq. change (chr "-") with 45%N. rewrite m_chr.
  rewrite m_seq, m_digits by assumption. cbv beta.
  rewrite m_seq, m_chr.
  rewrite m_seq, m_digits by assumption. cbv beta.
  rewrite m_seq, m_sep by assumption.
  rewrite m_seq, m_digits by assumption. cbv beta.
  rewrite m_seq. change (chr ":") with 58%N. rewrite m_chr.
  rewrite m_seq, m_digits by assumption. cbv beta.
  rewrite m_seq, m_chr.
  rewrite m_seq, m_digits by assumption. cbv beta.
  rewrite m_seq.
  set (b := prevOf _ _).
  assert (Hz : forall b', m false (Seq zoneRe Eps) (Pos b' (zoneText (zone t) ++ w :: rest0)) c K
                          = Some r).
  { intros b'. rewrite m_seq. apply zone_step; auto.
    unfold longest in Hlong. destruct (zone t); auto.
    now apply negb_true_iff in Hlong. }
  unfold longest in Hlong.
  destruct (zone t); cbn [zoneText List.app] in *.
  - apply fraction_step; auto.
  - change (lit "Z") with [90%N] in *. cbn [List.app] in *.
    apply fraction_step; auto.
  - change (lit " UTC") with [32; 85; 84; 67]%N in *. cbn [List.app] in *.
    apply fraction_step; auto.
Qed.

Lemma searchFrom_here ic r prev s c :
  m ic r (Pos prev s) [] (fun _ c' => Some c') = Some c ->
  searchFrom ic r prev s = Some c.
Proof. intros H. destruct s; simpl; now rewrite H. Qed.

(** What [line.match(timestampRegex)] yields on a timestamp, white space
    and a message on one line. *)
Lemma exec_timestampRegex (t : Stamp) (w : char) (ws msg : str) :
  wellFormed t = true ->
  isWhiteSpace w = true ->
  forallb isWhiteSpace ws = true ->
  noLineTerminator msg = true ->
  longest t (w :: ws ++ msg) = true ->
  exec false timestampRegex (stampText t ++ w :: ws ++ msg)
  = Some [(2%nat, dropWhile isWhiteSpace msg); (1%nat, stampText t)].
Proof.
  intros Hwf Hw Hws Hmsg Hlong.
  apply searchFrom_here.
  change timestampRegex with (Seq Bol (Seq (Grp 1 stampRe) tailRe)).
  rewrite m_seq. cbn [m before]. 
  apply stamp_step; auto.
  - intros b'. unfold rest.
    rewrite firstn_app_length.
    now rewrite tail_success.
  - intros b' s Hs. now apply tail_fail.
Qed.

End RegexFacts.

(* ================================================================== *)
(** * Facts about dates and about [parseLogLine] *)

Module DateFacts.

Import JS JSFacts.
Local Open Scope string_scope.
Local Open Scope list_scope.

Lemma digit_differs (x c : char) :
  isDigit x = false -> isDigit c = true -> N.eqb x c = false.
Proof.
  intros Hx Hc. destruct (N.eqb_spec x c) as [->|]; [congruence | reflexivity].
Qed.

Lemma digits_free (x : char) (s : str) :
  isDigit x = false -> forallb isDigit s = true ->
  forallb (fun c => negb (N.eqb x c)) s = true.
Proof.
  intros Hx. induction s as [|c s IH]; simpl; [reflexivity|].
  intros H. apply andb_prop in H as [Hc Hs].
  now rewrite (digit_differs _ _ Hx Hc), IH.
Qed.

Lemma digitsOf_digits n s : digitsOf n s = true -> forallb isDigit s = true.
Proof. unfold digitsOf. intros H. now apply andb_prop in H as [_ H]. Qed.

Lemma digitsOf_2 s :
  digitsOf 2 s = true ->
  exists a b, s = [a; b] /\ isDigit a = true /\ isDigit b = true.
Proof.
  unfold digitsOf. intros H. apply andb_prop in H as [Hn Hd].
  destruct s as [|a [|b [|? ?]]]; try discriminate Hn.
  simpl in Hd. apply andb_prop in Hd as [Ha Hd]. apply andb_prop in Hd as [Hb _].
  now exists a, b.
Qed.

Lemma digitsOf_4 s :
  digitsOf 4 s = true ->
  exists a b c d, s = [a; b; c; d]
    /\ isDigit a = true /\ isDigit b = true /\ isDigit c = true /\ isDigit d = true.
Proof.
  unfold digitsOf. intros H. apply andb_prop in H as [Hn Hd].
  destruct s as [|a [|b [|c [|d [|? ?]]]]]; try discriminate Hn.
  simpl in Hd.
  apply andb_prop in Hd as [Ha Hd]. apply andb_prop in Hd as [Hb Hd].
  apply andb_prop in Hd as [Hc Hd]. apply andb_prop in Hd as [Hd _].
  now exists a, b, c, d.
Qed.

(** [replace] passes over text that holds no first character of the
    pattern. *)
Lemma replace_skip (p0 : char) (pat rep a s : str) :
  forallb (fun c => negb (N.eqb p0 c)) a = true ->
  replace (p0 :: pat) rep (a ++ s) = a ++ replace (p0 :: pat) rep s.
Proof.
  induction a as [|c a IH]; intros H; [reflexivity|].
  simpl in H. apply andb_prop in H as [Hc Ha]. apply negb_true_iff in Hc.
  change ((c :: a) ++ s) with (c :: (a ++ s)).
  cbn [replace stripPrefix]. rewrite Hc. now rewrite IH.
Qed.

Lemma replace_step (p0 p1 : char) (pat rep : str) (c : char) (s : str) :
  N.eqb p1 c = false ->
  replace (p0 :: p1 :: pat) rep (p0 :: c :: s)
  = p0 :: replace (p0 :: p1 :: pat) rep (c :: s).
Proof.
  intros H. cbn [replace stripPrefix]. now rewrite N.eqb_refl, H.
Qed.

(** The text given to [new Date]: T between date and time, Z for a zone. *)
Definition isoText (t : Stamp) : str :=
  yyyy t ++ lit "-" ++ mo t ++ lit "-" ++ dd t ++ lit "T"
  ++ hh t ++ lit ":" ++ mi t ++ lit ":" ++ ss t
  ++ fractionText (fraction t)
  ++ match zone t with NoZone => [] | ZoneZ | ZoneUTC => lit "Z" end.

Lemma fraction_free (x : char) (f : option str) :
  isDigit x = false -> N.eqb x 46 = false ->
  match f with Some ds => truthyStr ds && forallb isDigit ds | None => true end = true ->
  forallb (fun c => negb (N.eqb x c)) (fractionText f) = true.
Proof.
  intros Hx Hdot Hf. destruct f as [ds|]; [|reflexivity].
  apply andb_prop in Hf as [_ Hf].
  simpl. change (chr ".") with 46%N. rewrite Hdot. simpl. now apply digits_free.
Qed.

Ltac free_of :=
  repeat rewrite forallb_app;
  repeat (apply andb_true_intro; split);
  first [ reflexivity
        | apply digits_free; [reflexivity | solve [eauto using digitsOf_digits]]
        | apply fraction_free; [reflexivity | reflexivity | assumption] ].

Lemma normalize_stampText (t : Stamp) :
  wellFormed t = true ->
  replace (lit " ") (lit "T") (replace (lit " UTC") (lit "Z") (stampText t)) = isoText t.
Proof.
  intros Hwf. unfold wellFormed in Hwf.
  do 7 (apply andb_prop in Hwf as [Hwf ?]).
  unfold stampText, isoText.
  change (lit " UTC") with [32; 85; 84; 67]%N.
  change (lit " ") with [32%N]. change (lit "T") with [84%N].
  change (lit "Z") with [90%N].
  destruct (digitsOf_2 _ H2) as (h1 & h2 & Ehh & Hh1 & Hh2).
  assert (Hpre : forallb (fun c => negb (N.eqb 32 c))
                   (yyyy t ++ lit "-" ++ mo t ++ lit "-" ++ dd t) = true) by free_of.
  assert (Hpost : forallb (fun c => negb (N.eqb 32 c))
                    (hh t ++ lit ":" ++ mi t ++ lit ":" ++ ss t ++ fractionText (fraction t)) = true)
    by free_of.
  replace (yyyy t ++ lit "-" ++ mo t ++ lit "-" ++ dd t ++ [sep t] ++ hh t ++ lit ":" ++ mi t
           ++ lit ":" ++ ss t ++ fractionText (fraction t) ++ zoneText (zone t))
    with ((yyyy t ++ lit "-" ++ mo t ++ lit "-" ++ dd t) ++ sep t
          :: (hh t ++ lit ":" ++ mi t ++ lit ":" ++ ss t ++ fractionText (fraction t))
             ++ zoneText (zone t))
    by (repeat rewrite <- app_assoc; reflexivity).
  replace (yyyy t ++ lit "-" ++ mo t ++ lit "-" ++ dd t ++ [84%N] ++ hh t ++ lit ":" ++ mi t
           ++ lit ":" ++ ss t ++ fractionText (fraction t)
           ++ match zone t with NoZone => [] | _ => [90%N] end)
    with ((yyyy t ++ lit "-" ++ mo t ++ lit "-" ++ dd t) ++ 84%N
          :: (hh t ++ lit ":" ++ mi t ++ lit ":" ++ ss t ++ fractionText (fraction t))
             ++ match zone t with NoZone => [] | _ => [90%N] end)
    by (repeat rewrite <- app_assoc; reflexivity).
  set (pre := yyyy t ++ lit "-" ++ mo t ++ lit "-" ++ dd t) in *.
  set (post := hh t ++ lit ":" ++ mi t ++ lit ":" ++ ss t ++ fractionText (fraction t)) in *.
  assert (Ez : replace [32; 85; 84; 67]%N [90%N] (zoneText (zone t))
               = match zone t with NoZone => [] | _ => [90%N] end)
    by (destruct (zone t); reflexivity).
  assert (Ez' : replace [32%N] [84%N] (match zone t with NoZone => [] | _ => [90%N] end)
                = match zone t with NoZone => [] | _ => [90%N] end)
    by (destruct (zone t); reflexivity).
  set (zz := match zone t with NoZone => [] | _ => [90%N] end) in *.
  assert (Einner : replace [32; 85; 84; 67]%N [90%N] (pre ++ sep t :: post ++ zoneText (zone t))
                   = pre ++ sep t :: post ++ zz).
  { rewrite replace_skip by exact Hpre. f_equal.
    apply orb_prop in H3 as [Hs | Hs]; apply N.eqb_eq in Hs; rewrite Hs.
    - change (chr "T" :: post ++ zoneText (zone t)) with ([84%N] ++ post ++ zoneText (zone t)).
      rewrite replace_skip by reflexivity.
      rewrite replace_skip by exact Hpost.
      now rewrite Ez.
    - change (chr " ") with 32%N.
      assert (Epost : post = h1 :: (h2 :: lit ":" ++ mi t ++ lit ":" ++ ss t
                                     ++ fractionText (fraction t))).
      { unfold post. now rewrite Ehh. }
      rewrite Epost at 1.
      change ((h1 :: ?x) ++ ?y) with (h1 :: (x ++ y)).
      rewrite replace_step by (apply digit_differs; [reflexivity | exact Hh1]).
      change (h1 :: ?x ++ ?y) with ((h1 :: x) ++ y).
      rewrite <- Epost.
      rewrite replace_skip by exact Hpost.
      now rewrite Ez. }
  rewrite Einner.
  rewrite replace_skip by exact Hpre. f_equal.
  apply orb_prop in H3 as [Hs | Hs]; apply N.eqb_eq in Hs; rewrite Hs.
  - change (chr "T" :: post ++ zz) with ([84%N] ++ post ++ zz).
    rewrite replace_skip by reflexivity.
    rewrite replace_skip by exact Hpost.
    now rewrite Ez'.
  - reflexivity.
Qed.


Lemma readTail_stamp (f : option str) (z : Zone) :
  match f with Some ds => truthyStr ds && forallb isDigit ds | None => true end = true ->
  JSDate.readTail
    (fractionText f ++ match z with NoZone => [] | ZoneZ | ZoneUTC => lit "Z" end)
  = Some (match f with None => 0%Z | Some ds => JSDate.fractionMillis ds end,
          match z with NoZone => false | ZoneZ | ZoneUTC => true end).
Proof.
  intros Hf. destruct f as [ds|].
  - apply andb_prop in Hf as [Hne Hds].
    cbn [fractionText List.app]. unfold JSDate.readTail.
    rewrite N.eqb_refl.
    assert (Hstop : match (match z with NoZone => [] | _ => lit "Z" end) with
                    | [] => True
                    | c :: _ => isDigit c = false
                    end) by (destruct z; simpl; auto).
    destruct (takeWhile_app_stop isDigit ds _ Hds Hstop) as [-> ->].
    destruct ds as [|d ds]; [discriminate Hne|].
    destruct z; reflexivity.
  - destruct z; reflexivity.
Qed.

Lemma readFields_isoText (t : Stamp) :
  wellFormed t = true -> JSDate.readFields (isoText t) = Some (stampFields t).
Proof.
  intros Hwf. unfold wellFormed in Hwf.
  do 7 (apply andb_prop in Hwf as [Hwf ?]).
  destruct (digitsOf_4 _ Hwf) as (y1 & y2 & y3 & y4 & Ey & Hy1 & Hy2 & Hy3 & Hy4).
  destruct (digitsOf_2 _ H5) as (m1 & m2 & Em & Hm1 & Hm2).
  destruct (digitsOf_2 _ H4) as (d1 & d2 & Ed & Hd1 & Hd2).
  destruct (digitsOf_2 _ H2) as (h1 & h2 & Eh & Hh1 & Hh2).
  destruct (digitsOf_2 _ H1) as (n1 & n2 & En & Hn1 & Hn2).
  destruct (digitsOf_2 _ H0) as (s1 & s2 & Es & Hs1 & Hs2).
  unfold isoText, stampFields. rewrite Ey, Em, Ed, Eh, En, Es.
  change (lit "-") with [45%N]. change (lit ":") with [58%N]. change (lit "T") with [84%N].
  cbn [List.app]. unfold JSDate.readFields.
  unfold JSDate.allDigits. cbn [forallb].
  rewrite Hy1, Hy2, Hy3, Hy4, Hm1, Hm2, Hd1, Hd2, Hh1, Hh2, Hn1, Hn2, Hs1, Hs2.
  cbn [andb]. change (N.eqb 45 (chr "-")) with true.
  change (N.eqb 84 (chr "T")) with true. change (N.eqb 58 (chr ":")) with true.
  cbn [andb].
  now rewrite readTail_stamp.
Qed.

(** [new Date] on the text [parseLogLine] builds from a timestamp gives
    the instant the timestamp denotes. *)
Lemma newDate_stamp (host : Host) (t : Stamp) :
  wellFormed t = true ->
  JSDate.newDate host
    (replace (lit " ") (lit "T") (replace (lit " UTC") (lit "Z") (stampText t)))
  = stampInstant host t.
Proof.
  intros Hwf. rewrite normalize_stampText by exact Hwf.
  unfold JSDate.newDate. rewrite readFields_isoText by exact Hwf.
  unfold stampInstant, utcInstant.
  destruct (JSDate.inRange (stampFields t)); destruct (zone t) eqn:Ez;
    unfold stampFields; cbn [JSDate.zulu]; try rewrite Ez; reflexivity.
Qed.


(** What [parseLogLine] returns on a timestamp, white space and a message
    on one line. *)
Lemma parseLogLine_stamp (host : Host) (t : Stamp) (ws msg : str) :
  wellFormed t = true ->
  whiteSpace ws = true ->
  noLineTerminator msg = true ->
  longest t (ws ++ msg) = true ->
  parseLogLine host (stampText t ++ ws ++ msg)
  = {| timestamp := stampInstant host t; message := trim msg |}.
Proof.
  intros Hwf Hws Hmsg Hlong.
  unfold whiteSpace in Hws. apply andb_prop in Hws as [Hne Hws].
  destruct ws as [|w ws]; [discriminate Hne|].
  simpl in Hws. apply andb_prop in Hws as [Hw Hws].
  unfold parseLogLine.
  change ((w :: ws) ++ msg) with (w :: ws ++ msg) in *.
  rewrite RegexFacts.exec_timestampRegex by assumption.
  cbn [Regex.group find fst snd Nat.eqb].
  now rewrite newDate_stamp, trim_dropWhile.
Qed.

End DateFacts.

(* ================================================================== *)
(** * Facts about the handlers *)

Module HandlerFacts.

Section WithHost.

Variable host : Host.

(** What a stream handler does when it renders [logContent]. *)
Definition display (isRuntime : bool) (logContent : str) : Cmd :=
  reading (fun this =>
    match isRuntime, runtimeConfig this with
    | true, Some cfg =>
        updateRuntimeContent host logContent
          (containers cfg) (selectedContainerId cfg) (tail cfg)
    | _, _ => updateContent host logContent
    end).

Lemma display_spec (isRuntime : bool) (logContent : str) (s : LogsWebview) :
  display isRuntime logContent s =
  (match panel s with
   | Some _ => setHtml (pageOf s isRuntime (renderLines host s isRuntime logContent)) s
   | None => s
   end, []).
Proof.
  unfold display, reading, updateRuntimeContent, updateContent, reading, modify, skip,
    pageOf, renderLines, renderLine, runtimeLines, contentLines.
  destruct isRuntime, (runtimeConfig s), (panel s); reflexivity.
Qed.

Lemma onMessage_spec (isRuntime : bool) (data : Buffer) (s : LogsWebview) :
  onMessage host isRuntime data s =
  display isRuntime (logBuffer s ++ toString data)
    (setLogBuffer (logBuffer s ++ toString data) s).
Proof.
  unfold onMessage, display, andThen, modify, reading. cbn [logBuffer setLogBuffer runtimeConfig].
  destruct isRuntime, (runtimeConfig s);
    match goal with |- (let (_, _) := ?x in _) = _ => destruct x eqn:E end; reflexivity.
Qed.

Lemma onError_spec (isRuntime : bool) (reason : str) (s : LogsWebview) :
  onError host isRuntime reason s =
  display isRuntime (lit "Connection error: " ++ reason ++ [LF; LF] ++ logBuffer s) s.
Proof. reflexivity. Qed.

Lemma onClose_spec (isRuntime : bool) (s : LogsWebview) :
  onClose host isRuntime s =
  if truthyStr (logBuffer s)
  then display isRuntime (logBuffer s ++ [LF; LF] ++ lit "--- Log stream ended ---") s
  else (s, []).
Proof.
  unfold onClose, reading. destruct (truthyStr (logBuffer s)); reflexivity.
Qed.

(** ** Effects and state of the commands *)

Lemma andThen_fst (a b : Cmd) (s : LogsWebview) :
  fst ((a ;; b) s) = fst (b (fst (a s))).
Proof.
  unfold andThen. destruct (a s) as [s1 e1]. cbn [fst].
  destruct (b s1) as [s2 e2]. reflexivity.
Qed.

(** ** The timestamp switch is never written *)

Definition Inv (s : LogsWebview) : Prop :=
  showTimestamp s = false
  /\ forall page, shown s = Some page -> withoutTimestamps host page.

Definition Preserves (cmd : Cmd) : Prop := forall s, Inv s -> Inv (fst (cmd s)).

Lemma preserves_skip : Preserves skip.
Proof. intros s H. exact H. Qed.

Lemma preserves_emit e : Preserves (emit e).
Proof. intros s H. exact H. Qed.

Lemma preserves_andThen a b : Preserves a -> Preserves b -> Preserves (a ;; b).
Proof. intros Ha Hb s H. rewrite andThen_fst. apply Hb, Ha, H. Qed.

Lemma preserves_reading f : (forall this, Inv this -> Inv (fst (f this this))) ->
  Preserves (reading f).
Proof. intros Hf s H. apply Hf, H. Qed.

Lemma preserves_branch f : (forall this, Preserves (f this)) -> Preserves (reading f).
Proof. intros Hf s H. now apply Hf. Qed.

Lemma preserves_modify f : (forall s, Inv s -> Inv (f s)) -> Preserves (modify f).
Proof. intros Hf s H. apply Hf, H. Qed.

Create HintDb preserve.

Lemma preserves_setWs w : Preserves (modify (setWs w)).
Proof. intros s H. exact H. Qed.

Lemma preserves_setLogBuffer b : Preserves (modify (setLogBuffer b)).
Proof. intros s H. exact H. Qed.

Lemma preserves_setRuntimeConfig c : Preserves (modify (setRuntimeConfig c)).
Proof. intros s H. exact H. Qed.

Lemma preserves_setIsRuntimeLogs b : Preserves (modify (setIsRuntimeLogs b)).
Proof. intros s H. exact H. Qed.

Lemma preserves_setPanel_none : Preserves (modify (setPanel None)).
Proof. intros s [H _]. split; [exact H | discriminate]. Qed.

Lemma preserves_setPanel_blank t :
  Preserves (modify (setPanel (Some (Build_WebviewPanel t BlankPage)))).
Proof.
  intros s [H _]. split; [exact H|].
  intros page Hp. injection Hp as <-. exact I.
Qed.

Lemma preserves_setTitle t : Preserves (modify (setTitle t)).
Proof.
  intros s [H Hp]. cbn [fst modify]. unfold setTitle.
  destruct (panel s) as [p|] eqn:E; [|now split].
  split; [exact H|]. intros page Hpage. injection Hpage as <-.
  apply Hp. unfold shown. now rewrite E.
Qed.

Lemma inv_setHtml page s : withoutTimestamps host page -> Inv s -> Inv (setHtml page s).
Proof.
  intros Hpage [H Hp]. unfold setHtml. destruct (panel s) as [p|] eqn:E; [|now split].
  split; [exact H|]. intros page' Hpage'. injection Hpage' as <-. exact Hpage.
Qed.

Lemma preserves_setHtml_empty name : Preserves (modify (setHtml (EmptyStatePage name))).
Proof. intros s H. apply inv_setHtml; [exact I | exact H]. Qed.

Lemma preserves_updateContent logContent : Preserves (updateContent host logContent).
Proof.
  apply preserves_reading. intros this H.
  destruct (panel this); [|exact H].
  apply inv_setHtml; [|exact H].
  destruct H as [-> _]. now exists logContent.
Qed.

Lemma preserves_updateRuntimeContent logContent cs sel n :
  Preserves (updateRuntimeContent host logContent cs sel n).
Proof.
  apply preserves_reading. intros this H.
  destruct (panel this); [|exact H].
  apply inv_setHtml; [|exact H].
  destruct H as [-> _]. now exists logContent.
Qed.

Hint Resolve preserves_skip preserves_emit preserves_andThen preserves_setWs
  preserves_setLogBuffer preserves_setRuntimeConfig preserves_setIsRuntimeLogs
  preserves_setPanel_none preserves_setPanel_blank preserves_setTitle
  preserves_setHtml_empty preserves_updateContent preserves_updateRuntimeContent : preserve.

Lemma preserves_closeWebSocket : Preserves closeWebSocket.
Proof.
  apply preserves_branch. intros this. destruct (ws this); auto with preserve.
Qed.

Hint Resolve preserves_closeWebSocket : preserve.

Lemma preserves_connectWebSocket u h r : Preserves (connectWebSocket u h r).
Proof. unfold connectWebSocket. auto 10 with preserve. Qed.

Lemma preserves_onDidDispose : Preserves onDidDispose.
Proof. unfold onDidDispose. auto 10 with preserve. Qed.

Lemma preserves_createOrRevealPanel t : Preserves (createOrRevealPanel t).
Proof.
  unfold createOrRevealPanel. apply preserves_andThen; [|auto with preserve].
  apply preserves_branch. intros this. destruct (panel this); auto with preserve.
Qed.

Lemma preserves_setupMessageHandler : Preserves setupMessageHandler.
Proof.
  apply preserves_branch. intros this. destruct (panel this); auto with preserve.
Qed.

Hint Resolve preserves_connectWebSocket preserves_onDidDispose preserves_createOrRevealPanel
  preserves_setupMessageHandler : preserve.

Lemma preserves_connectToRuntimeLogs : Preserves (connectToRuntimeLogs host).
Proof.
  apply preserves_branch. intros this.
  destruct (runtimeConfig this) as [cfg|]; [|auto with preserve].
  destruct (panel this); auto 10 with preserve.
Qed.

Lemma preserves_showEmptyState name : Preserves (showEmptyState name).
Proof. unfold showEmptyState. auto 10 with preserve. Qed.

Hint Resolve preserves_connectToRuntimeLogs preserves_showEmptyState : preserve.

Lemma preserves_display logContent (isRuntime : bool) :
  Preserves (reading (fun this =>
    match isRuntime, runtimeConfig this with
    | true, Some cfg =>
        updateRuntimeContent host logContent
          (containers cfg) (selectedContainerId cfg) (tail cfg)
    | _, _ => updateContent host logContent
    end)).
Proof.
  apply preserves_branch. intros this.
  destruct isRuntime, (runtimeConfig this); auto with preserve.
Qed.

Lemma preserves_handle (e : Event) : Preserves (handle host e).
Proof.
  destruct e as [a c found | t u h | | isRuntime | isRuntime data | isRuntime reason
                | isRuntime | msg | found | ]; cbn [handle].
  - (* showRuntimeLogs *)
    unfold showRuntimeLogs. destruct found as [|first found']; auto 10 with preserve.
  - (* showWithWebSocket *)
    unfold showWithWebSocket. auto 10 with preserve.
  - (* dispose *)
    unfold dispose. apply preserves_andThen; [auto with preserve|].
    apply preserves_branch. intros this. destruct (panel this); auto with preserve.
  - (* open *)
    unfold onOpen. apply preserves_andThen; [auto with preserve|].
    apply preserves_display.
  - (* message *)
    unfold onMessage. apply preserves_andThen.
    + apply preserves_modify. intros s H. exact H.
    + apply preserves_reading. intros this H.
      destruct isRuntime, (runtimeConfig this);
        first [ now apply preserves_updateRuntimeContent | now apply preserves_updateContent ].
  - (* error *)
    apply preserves_reading. intros this H.
    destruct isRuntime, (runtimeConfig this);
      first [ now apply preserves_updateRuntimeContent | now apply preserves_updateContent ].
  - (* close *)
    apply preserves_reading. intros this H.
    destruct (truthyStr (logBuffer this)); [|exact H].
    destruct isRuntime, (runtimeConfig this);
      first [ now apply preserves_updateRuntimeContent | now apply preserves_updateContent ].
  - (* webview message *)
    apply preserves_branch. intros this.
    destruct (runtimeConfig this) as [cfg|]; [|auto with preserve].
    destruct (command msg).
    + destruct (msgContainerId msg) as [id|]; [|auto with preserve].
      destruct (truthyStr id); auto with preserve.
    + destruct (msgTail msg) as [n|]; [|auto with preserve].
      destruct (truthyNum n); auto with preserve.
    + auto with preserve.
  - (* refreshed *)
    apply preserves_branch. intros this.
    destruct (runtimeConfig this) as [cfg|]; [|auto with preserve].
    destruct found as [|first found']; auto with preserve.
  - (* disposed *)
    apply preserves_onDidDispose.
Qed.

(** Every state the object reaches from one with the switch off has the
    switch off, and shows log lines rendered without timestamps. *)
Lemma inv_run (events : list Event) : forall s, Inv s -> Inv (run host events s).
Proof.
  induction events as [|e events IH]; intros s H; [exact H|].
  apply IH. now apply preserves_handle.
Qed.

End WithHost.

End HandlerFacts.

(* ================================================================== *)
(** * Properties of the pipeline *)

Import JSFacts HandlerFacts.

Lemma logBuffer_setHtml (page : Page) (s : LogsWebview) :
  logBuffer (setHtml page s) = logBuffer s.
Proof. unfold setHtml. destruct (panel s); reflexivity. Qed.

Lemma shown_setHtml (page : Page) (s : LogsWebview) (p : WebviewPanel) :
  panel s = Some p -> shown (setHtml page s) = Some page.
Proof. intros H. unfold shown, setHtml. rewrite H. reflexivity. Qed.

Lemma modify_andThen (f : LogsWebview -> LogsWebview) (c : Cmd) (s : LogsWebview) :
  (modify f ;; c) s = c (f s).
Proof. unfold andThen, modify. destruct (c (f s)). reflexivity. Qed.

Lemma renderLine_blank (host : Host) (this : LogsWebview) (isRuntime : bool) :
  renderLine host this isRuntime [] = emptyRow.
Proof. unfold renderLine. destruct isRuntime, (runtimeConfig this); reflexivity. Qed.

(** ** What a socket handler leaves as it was *)

(** The handlers of a socket write the buffer and the document, and
    nothing else. *)
Definition sameSession (a b : LogsWebview) : Prop :=
  runtimeConfig a = runtimeConfig b
  /\ showTimestamp a = showTimestamp b
  /\ ws a = ws b
  /\ (panel a = None <-> panel b = None).

Lemma sameSession_refl (a : LogsWebview) : sameSession a a.
Proof. repeat split; auto. Qed.

Lemma sameSession_trans (a b c : LogsWebview) :
  sameSession a b -> sameSession b c -> sameSession a c.
Proof.
  intros (H1 & H2 & H3 & H4) (K1 & K2 & K3 & K4).
  repeat split; try congruence; intros H; [apply K4, H4, H | apply H4, K4, H].
Qed.

Lemma sameSession_display (host : Host) (isRuntime : bool) (logContent : str)
  (s : LogsWebview) :
  sameSession s (fst (display host isRuntime logContent s)).
Proof.
  rewrite display_spec. cbn [fst]. destruct s as [[p|] w b t rc ir]; cbn;
    repeat split; auto; discriminate.
Qed.

Lemma onOpen_spec (host : Host) (isRuntime : bool) (s : LogsWebview) :
  onOpen host isRuntime s
  = display host isRuntime (lit "Connected. Waiting for logs...") (setLogBuffer [] s).
Proof. unfold onOpen. rewrite modify_andThen. reflexivity. Qed.

Lemma sameSession_onSocket (host : Host) (sock : Socket) (e : SocketEvent) (s : LogsWebview) :
  sameSession s (fst (onSocket host sock e s)).
Proof.
  destruct e as [|data|reason|]; cbn [onSocket].
  - rewrite onOpen_spec.
    apply (sameSession_trans _ (setLogBuffer [] s)); [|apply sameSession_display].
    repeat split; auto.
  - rewrite onMessage_spec.
    apply (sameSession_trans _ (setLogBuffer (logBuffer s ++ toString data) s));
      [|apply sameSession_display].
    repeat split; auto.
  - rewrite onError_spec. apply sameSession_display.
  - rewrite onClose_spec. destruct (truthyStr (logBuffer s));
      [apply sameSession_display | apply sameSession_refl].
Qed.


Lemma renderLine_same (host : Host) (a b : LogsWebview) (isRuntime : bool) :
  sameSession a b -> renderLine host b isRuntime = renderLine host a isRuntime.
Proof. intros (H1 & H2 & _). unfold renderLine. now rewrite H1, H2. Qed.

Lemma pageOf_same (a b : LogsWebview) (isRuntime : bool) (lines : list str) :
  sameSession a b -> pageOf b isRuntime lines = pageOf a isRuntime lines.
Proof. intros (H1 & _). unfold pageOf. now rewrite H1. Qed.

(** What the message handler leaves: the buffer with the text of the frame
    at its end and, if there is a panel, the document made of one rendered
    row for each piece of that buffer between line feeds. *)
Lemma onMessage_shown (host : Host) (isRuntime : bool) (data : Buffer) (s : LogsWebview) :
  let s' := fst (onMessage host isRuntime data s) in
  logBuffer s' = logBuffer s ++ toString data
  /\ shown s' = match panel s with
                | Some _ =>
                    Some (pageOf s isRuntime
                            (map (renderLine host s isRuntime)
                               (split LF (logBuffer s ++ toString data))))
                | None => None
                end.
Proof.
  cbv zeta. rewrite onMessage_spec, display_spec. cbn [fst panel setLogBuffer].
  destruct (panel s) as [p|] eqn:Hp.
  - split; [apply logBuffer_setHtml|].
    erewrite shown_setHtml by (cbn [panel setLogBuffer]; exact Hp). reflexivity.
  - split; [reflexivity|]. unfold shown. cbn [panel setLogBuffer]. now rewrite Hp.
Qed.

(** ** C1: what a later chunk does to the rendered lines *)

(** The fragment after the last line break is rendered like every other
    piece of the buffer, whichever renderer is in use. *)
Lemma renderLines_last (host : Host) (this : LogsWebview) (isRuntime : bool) (buffer : str) :
  last (renderLines host this isRuntime buffer) (renderLine host this isRuntime [])
  = renderLine host this isRuntime (last (split LF buffer) []).
Proof. unfold renderLines. apply last_map. Qed.

(** C1, as the code has it.  After a chunk the panel, if there is one, shows
    one rendered row for each piece of the buffer between line breaks, the
    unfinished fragment after the last line break included: it is the last
    row, a blank one when the fragment is empty.  After the next chunk the panel shows the same rows but the last,
    in place and in order, then the row of the fragment continued by the
    chunk in place of the last, and the rows of the further lines of the
    chunk. *)
Theorem rendered_lines_after_chunk (host : Host) (this : LogsWebview) (isRuntime : bool)
  (c1 c2 : Buffer) :
  let buffer := logBuffer this ++ toString c1 in
  let rows content := map (renderLine host this isRuntime) (split LF content) in
  let s1 := fst (onMessage host isRuntime c1 this) in
  let s2 := fst (onMessage host isRuntime c2 s1) in
  logBuffer s1 = buffer
  /\ shown s1 = match panel this with
                | Some _ => Some (pageOf this isRuntime (rows buffer))
                | None => None
                end
  /\ last (rows buffer) emptyRow = renderLine host this isRuntime (last (split LF buffer) [])
  /\ renderLine host this isRuntime [] = emptyRow
  /\ logBuffer s2 = buffer ++ toString c2
  /\ shown s2 = match panel this with
                | Some _ =>
                    Some (pageOf this isRuntime
                            (removelast (rows buffer)
                             ++ rows (last (split LF buffer) [] ++ toString c2)))
                | None => None
                end.
Proof.
  cbv zeta.
  destruct (onMessage_shown host isRuntime c1 this) as [B1 S1]. cbv zeta in B1, S1.
  destruct (onMessage_shown host isRuntime c2 (fst (onMessage host isRuntime c1 this)))
    as [B2 S2]. cbv zeta in B2, S2.
  pose proof (sameSession_onSocket host
                {| sockUrl := GivenUrl []; sockHeaders := []; sockRuntime := isRuntime |}
                (SockMessage c1) this) as Hsame.
  cbn [onSocket sockRuntime] in Hsame.
  split; [exact B1|]. split; [exact S1|]. split.
  - rewrite <- (renderLine_blank host this isRuntime). apply last_map.
  - split; [apply renderLine_blank|]. split; [now rewrite B2, B1|].
    rewrite S2, B1, (renderLine_same host _ _ isRuntime Hsame).
    pose proof (fun lines => pageOf_same this _ isRuntime lines Hsame) as Hpage.
    destruct Hsame as (_ & _ & _ & [Hp12 Hp21]).
    destruct (panel this) as [p|] eqn:Hp;
      destruct (panel (fst (onMessage host isRuntime c1 this))) as [p1|] eqn:Hp1.
    + f_equal. rewrite Hpage. f_equal. now rewrite split_app, map_app, removelast_map.
    + specialize (Hp21 eq_refl). discriminate Hp21.
    + specialize (Hp12 eq_refl). discriminate Hp12.
    + reflexivity.
Qed.

(** C1 fails as stated: a buffer [abc] without line break is rendered as a
    line, and the chunk [def] replaces that line by another. *)
Lemma trailing_fragment_is_rendered :
  let s1 := run utcHost [WsMessage false (bytes "abc")] demoStream in
  let s2 := run utcHost [WsMessage false (bytes "def")] s1 in
  logBuffer s1 = lit "abc"
  /\ shown s1 = Some (LogsPage (join [LF] [contentLine utcHost false (lit "abc")]))
  /\ shown s2 = Some (LogsPage (join [LF] [contentLine utcHost false (lit "abcdef")]))
  /\ contentLines utcHost false (logBuffer s1) = [contentLine utcHost false (lit "abc")]
  /\ ~ In (contentLine utcHost false (lit "abc")) (contentLines utcHost false (logBuffer s2)).
Proof.
  cbv zeta. repeat split; try reflexivity.
  vm_compute. intros [H | []]. discriminate H.
Qed.

(** ** C2 and C3: what [parseLogLine] makes of a leading timestamp *)

(** C2, as the code has it.  On a line made of a well-formed timestamp,
    white space and a message without line terminator, where the fields of
    the timestamp are out of range, [parseLogLine] returns no timestamp and
    the trimmed message: the text of the timestamp is dropped, the line is
    not given back whole. *)
Theorem impossible_date_drops_stamp (host : Host) (t : Stamp) (ws M : str) :
  wellFormed t = true ->
  whiteSpace ws = true ->
  noLineTerminator M = true ->
  longest t (ws ++ M) = true ->
  utcInstant t = None ->
  parseLogLine host (stampText t ++ ws ++ M) = {| timestamp := None; message := trim M |}.
Proof.
  intros Hwf Hws HM Hlong Hbad.
  rewrite DateFacts.parseLogLine_stamp by assumption.
  unfold stampInstant. rewrite Hbad. destruct (zone t); reflexivity.
Qed.

(** The theorem on a line with month 13 and day 45. *)
Lemma impossible_date_drops_stamp_witness :
  parseLogLine utcHost (lit "2024-13-45 10:00:00 hello")
  = {| timestamp := None; message := lit "hello" |}.
Proof.
  exact (impossible_date_drops_stamp utcHost badStamp (lit " ") (lit "hello")
           eq_refl eq_refl eq_refl eq_refl eq_refl).
Defined.

(** C2 fails as stated: the message of such a line is not the whole line. *)
Lemma impossible_date_line_not_kept :
  parseLogLine utcHost (lit "2024-13-45 10:00:00 hello")
  = {| timestamp := None; message := lit "hello" |}
  /\ message (parseLogLine utcHost (lit "2024-13-45 10:00:00 hello"))
     <> lit "2024-13-45 10:00:00 hello".
Proof. split; [reflexivity | discriminate]. Qed.

(** C3, as the code has it.  On a line made of a well-formed timestamp (the
    longest one at the head of the line), white space and a message M
    without line terminator, [parseLogLine] returns trim(M) and the instant
    the timestamp denotes: none when a field is out of range, the fields
    read in UTC under either zone suffix, and in the local zone of the host
    without one.  The Z and the UTC variant of a timestamp give the same
    result. *)
Theorem timestamped_line_is_parsed (host : Host) (t : Stamp) (ws M : str) :
  wellFormed t = true ->
  whiteSpace ws = true ->
  noLineTerminator M = true ->
  longest t (ws ++ M) = true ->
  let parsed := parseLogLine host (stampText t ++ ws ++ M) in
  message parsed = trim M
  /\ timestamp parsed = stampInstant host t
  /\ (zone t <> NoZone -> timestamp parsed = utcInstant t)
  /\ parseLogLine host (stampText (withZone ZoneUTC t) ++ ws ++ M)
     = parseLogLine host (stampText (withZone ZoneZ t) ++ ws ++ M).
Proof.
  intros Hwf Hws HM Hlong. cbv zeta.
  rewrite DateFacts.parseLogLine_stamp by assumption. cbn [message timestamp].
  repeat split.
  - unfold stampInstant. destruct (zone t); congruence.
  - rewrite !DateFacts.parseLogLine_stamp by first [assumption | exact Hwf | reflexivity].
    reflexivity.
Qed.

(** The theorem on the first example line of the specification, with its
    two zone suffixes. *)
Lemma timestamped_line_is_parsed_witness :
  let parsed := parseLogLine utcHost (lit "2024-01-05T10:00:00Z Listening on port 3000") in
  message parsed = lit "Listening on port 3000"
  /\ timestamp parsed = Some 1704448800000%Z
  /\ (ZoneZ <> NoZone -> timestamp parsed = Some 1704448800000%Z)
  /\ parseLogLine utcHost (lit "2024-01-05T10:00:00 UTC Listening on port 3000")
     = parseLogLine utcHost (lit "2024-01-05T10:00:00Z Listening on port 3000").
Proof.
  exact (timestamped_line_is_parsed utcHost demoStamp (lit " ") (lit "Listening on port 3000")
           eq_refl eq_refl eq_refl eq_refl).
Defined.

(** C3 fails as stated: a carriage return at the end of the message makes
    the pattern fail, so the line comes back whole and without timestamp;
    and a timestamp of the right form with fields out of range yields no
    instant. *)
Lemma timestamp_not_always_parsed :
  parseLogLine utcHost (lit "2024-01-05T10:00:00Z hello" ++ [CR])
  = {| timestamp := None; message := lit "2024-01-05T10:00:00Z hello" ++ [CR] |}
  /\ trim (lit "hello" ++ [CR]) = lit "hello"
  /\ timestamp (parseLogLine utcHost (lit "2024-13-45 10:00:00 hello")) = None.
Proof. repeat split; reflexivity. Qed.

(** The example lines of the specification. *)
Example parse_listening :
  parseLogLine utcHost (lit "2024-01-05T10:00:00Z Listening on port 3000")
  = {| timestamp := Some 1704448800000%Z; message := lit "Listening on port 3000" |}.
Proof. reflexivity. Qed.

Example parse_without_timestamp :
  parseLogLine utcHost (lit "ERROR: connection refused")
  = {| timestamp := None; message := lit "ERROR: connection refused" |}.
Proof. reflexivity. Qed.

Example classify_examples :
  map (fun text => type (getLogType (lit text)))
    [ "Listening on port 3000"; "ERROR: connection refused"; "INFO: retrying";
      "[WARN] disk almost full"; "    at Object.run (/app/index.js:10:5)"; "hello world" ]
  = [success; error; info; warning; error; debug].
Proof. reflexivity. Qed.

(** ** C4: the order of the rule groups *)

(** C4.  [getLogType] tries the groups error, warning, success, info in
    this order and the first group with a matching pattern decides; a
    message with an error marker is an error whatever else it holds, the
    quoted message included. *)
Theorem classification_precedence (message : str) :
  let lower := toLowerCase message in
  (anyTest errorPatterns lower = true -> getLogType message = LOG_STYLES error)
  /\ (anyTest errorPatterns lower = false -> anyTest warningPatterns lower = true ->
      getLogType message = LOG_STYLES warning)
  /\ (anyTest errorPatterns lower = false -> anyTest warningPatterns lower = false ->
      anyTest successPatterns lower = true -> getLogType message = LOG_STYLES success)
  /\ (anyTest errorPatterns lower = false -> anyTest warningPatterns lower = false ->
      anyTest successPatterns lower = false -> anyTest infoPatterns lower = true ->
      getLogType message = LOG_STYLES info)
  /\ (anyTest errorPatterns lower = false -> anyTest warningPatterns lower = false ->
      anyTest successPatterns lower = false -> anyTest infoPatterns lower = false ->
      getLogType message = LOG_STYLES debug)
  /\ (anyTest errorPatterns lower = true -> anyTest successPatterns lower = true ->
      type (getLogType message) = error)
  /\ (let quoted := lit "Build failed: deployment was not completed successfully" in
      anyTest errorPatterns (toLowerCase quoted) = true
      /\ anyTest successPatterns (toLowerCase quoted) = true
      /\ type (getLogType quoted) = error).
Proof.
  cbv zeta. unfold getLogType.
  repeat split; try (intros; repeat match goal with H : _ = _ |- _ => rewrite H end; reflexivity).
  all: vm_compute; reflexivity.
Qed.

(** ** C5 and C6: the end of a stream *)

Lemma split_one (sep : char) (s : str) :
  forallb (fun c => negb (N.eqb c sep)) s = true -> split sep s = [s].
Proof.
  induction s as [|c s IH]; [reflexivity|].
  intros H. simpl in H. apply andb_prop in H as [Hc Hs].
  apply negb_true_iff in Hc. simpl. rewrite Hc, IH by exact Hs. reflexivity.
Qed.

Lemma renderLines_break (host : Host) (this : LogsWebview) (isRuntime : bool) (a b : str) :
  renderLines host this isRuntime (a ++ [LF; LF] ++ b)
  = renderLines host this isRuntime a ++ emptyRow :: renderLines host this isRuntime b.
Proof.
  unfold renderLines. cbn [List.app].
  rewrite split_app_sep, map_app. f_equal.
  change (split LF (LF :: b)) with ([] :: split LF b).
  cbn [map]. now rewrite renderLine_blank.
Qed.

(** C5.  The error handler leaves the buffer as it is and shows, in the
    panel if there is one, the line of the error, a blank row, and then the
    rendered lines of the buffer. *)
Theorem error_line_precedes_buffer (host : Host) (s : LogsWebview) (isRuntime : bool)
  (reason : str) :
  let s' := fst (onError host isRuntime reason s) in
  logBuffer s' = logBuffer s
  /\ shown s' =
     match panel s with
     | Some _ =>
         Some (pageOf s isRuntime
                 (renderLines host s isRuntime (lit "Connection error: " ++ reason)
                  ++ emptyRow :: renderLines host s isRuntime (logBuffer s)))
     | None => None
     end
  /\ (forallb (fun c => negb (N.eqb c LF)) reason = true ->
      renderLines host s isRuntime (lit "Connection error: " ++ reason)
      = [renderLine host s isRuntime (lit "Connection error: " ++ reason)]).
Proof.
  cbv zeta. rewrite onError_spec, display_spec. cbn [fst].
  split; [|split].
  - destruct (panel s); [apply logBuffer_setHtml | reflexivity].
  - destruct (panel s) as [p|] eqn:Hp; [|unfold shown; now rewrite Hp].
    rewrite (shown_setHtml _ _ _ Hp). do 2 f_equal.
    rewrite app_assoc. rewrite renderLines_break. reflexivity.
  - intros Hreason. unfold renderLines. rewrite split_one; [reflexivity|].
    rewrite forallb_app, Hreason. reflexivity.
Qed.

(** An error on a stream that received one line. *)
Example error_example :
  let s := run utcHost [WsMessage false (bytes "ok")] demoStream in
  let s' := fst (onError utcHost false (lit "boom") s) in
  logBuffer s' = lit "ok"
  /\ shown s' =
     Some (LogsPage (join [LF] [contentLine utcHost false (lit "Connection error: boom");
                                emptyRow;
                                contentLine utcHost false (lit "ok")])).
Proof. split; reflexivity. Qed.

(** C6.  The close handler does nothing when the buffer is empty; on a
    buffer that is not empty it shows, in the panel if there is one, the
    rendered lines of the buffer, a blank row and the line of the marker,
    which is the last one. *)
Theorem close_appends_marker (host : Host) (s : LogsWebview) (isRuntime : bool) :
  (logBuffer s = [] -> onClose host isRuntime s = (s, []))
  /\ (logBuffer s <> [] ->
      let s' := fst (onClose host isRuntime s) in
      let lines :=
        renderLines host s isRuntime (logBuffer s)
        ++ [emptyRow; renderLine host s isRuntime (lit "--- Log stream ended ---")] in
      shown s' = match panel s with
                 | Some _ => Some (pageOf s isRuntime lines)
                 | None => None
                 end
      /\ last lines emptyRow = renderLine host s isRuntime (lit "--- Log stream ended ---")
      /\ logBuffer s' = logBuffer s).
Proof.
  split.
  - intros H. rewrite onClose_spec, H. reflexivity.
  - intros H. cbv zeta.
    rewrite onClose_spec.
    destruct (logBuffer s) as [|c b] eqn:Eb; [congruence|]. cbn [truthyStr].
    rewrite display_spec. cbn [fst].
    split; [|split].
    + destruct (panel s) as [p|] eqn:Hp; [|unfold shown; now rewrite Hp].
      rewrite (shown_setHtml _ _ _ Hp). do 2 f_equal.
      rewrite renderLines_break. reflexivity.
    + change [emptyRow; ?m] with ([emptyRow] ++ [m]).
      rewrite app_assoc. apply last_last.
    + destruct (panel s); [rewrite logBuffer_setHtml|]; exact Eb.
Qed.

(** The marker on a stream that received one line, and none on a stream
    that received nothing. *)
Example close_examples :
  shown (run utcHost [WsMessage false (bytes "ok"); WsClose false] demoStream)
  = Some (LogsPage (join [LF] [contentLine utcHost false (lit "ok"); emptyRow;
                               contentLine utcHost false (lit "--- Log stream ended ---")]))
  /\ run utcHost [WsClose false] demoStream = demoStream.
Proof. split; reflexivity. Qed.

(** ** C9: chunks add up *)

(** A buffer that does not end inside a sequence is decoded like its two
    parts one after the other. *)
Lemma decodeFrom_app (a b : Buffer) : forall d,
  stateAfter d a = None ->
  decodeFrom d (a ++ b) = decodeFrom d a ++ decodeFrom None b.
Proof.
  induction a as [|x a IH]; intros d H; cbn [List.app decodeFrom stateAfter] in *.
  - now subst d.
  - rewrite (IH _ H). apply app_assoc.
Qed.

Lemma toString_app (c1 c2 : Buffer) :
  endsOnCharacter c1 = true -> toString (c1 ++ c2) = toString c1 ++ toString c2.
Proof.
  unfold endsOnCharacter, toString. intros H. apply decodeFrom_app.
  now destruct (stateAfter None c1).
Qed.

(** C9, as the code has it.  Each frame is decoded on its own and its text
    is added to the buffer.  Two chunks in a row, of which the first ends on
    a character and not inside the bytes of one, leave the object, and so
    the document it shows, as their concatenation in one chunk does: a line
    split between them is not seen. *)
Theorem chunks_concatenate (host : Host) (s : LogsWebview) (isRuntime : bool)
  (c1 c2 : Buffer) :
  endsOnCharacter c1 = true ->
  run host [WsMessage isRuntime c1; WsMessage isRuntime c2] s
  = run host [WsMessage isRuntime (c1 ++ c2)] s
  /\ shown (run host [WsMessage isRuntime c1; WsMessage isRuntime c2] s)
     = shown (run host [WsMessage isRuntime (c1 ++ c2)] s)
  /\ logBuffer (run host [WsMessage isRuntime c1; WsMessage isRuntime c2] s)
     = logBuffer s ++ toString (c1 ++ c2)
  /\ snd (onMessage host isRuntime c1 s) = []
  /\ snd (onMessage host isRuntime c2 (fst (onMessage host isRuntime c1 s))) = [].
Proof.
  intros Hc1.
  assert (E : run host [WsMessage isRuntime c1; WsMessage isRuntime c2] s
              = run host [WsMessage isRuntime (c1 ++ c2)] s).
  { unfold run. cbn [fold_left handle].
    rewrite !onMessage_spec, !display_spec, (toString_app c1 c2 Hc1).
    destruct s as [[p|] w b t rc ir]; destruct isRuntime, rc;
      cbn; rewrite <- ?app_assoc; reflexivity. }
  rewrite E. split; [reflexivity|]. split; [reflexivity|]. split.
  - unfold run. cbn [fold_left handle].
    now destruct (onMessage_shown host isRuntime (c1 ++ c2) s) as [B _].
  - split; rewrite ?onMessage_spec, ?display_spec; reflexivity.
Qed.

(** The theorem on a word with an accent that ends the first chunk. *)
Lemma chunks_concatenate_witness :
  let c1 := bytes "caf" ++ [Byte.xc3; Byte.xa9] in
  let c2 := bytes " au lait" in
  run utcHost [WsMessage false c1; WsMessage false c2] demoStream
  = run utcHost [WsMessage false (c1 ++ c2)] demoStream
  /\ logBuffer (run utcHost [WsMessage false c1; WsMessage false c2] demoStream)
     = lit "caf" ++ [233%N] ++ lit " au lait".
Proof.
  pose proof (chunks_concatenate utcHost demoStream false
                (bytes "caf" ++ [Byte.xc3; Byte.xa9]) (bytes " au lait") eq_refl)
    as (H1 & _ & H3 & _).
  cbv zeta. split; [exact H1 | exact H3].
Defined.

(** C9 fails as stated: the two bytes of a letter with an accent, one in
    each chunk, are decoded to two replacement characters, and in one chunk
    to the letter. *)
Lemma split_character_is_seen :
  let c1 := [Byte.xc3] in
  let c2 := [Byte.xa9] in
  let two := run utcHost [WsMessage false c1; WsMessage false c2] demoStream in
  let one := run utcHost [WsMessage false (c1 ++ c2)] demoStream in
  endsOnCharacter c1 = false
  /\ logBuffer two = [65533; 65533]%N
  /\ logBuffer one = [233%N]
  /\ shown two = Some (LogsPage (join [LF] [contentLine utcHost false [65533; 65533]%N]))
  /\ shown one = Some (LogsPage (join [LF] [contentLine utcHost false [233%N]]))
  /\ shown two <> shown one.
Proof.
  cbv zeta. repeat split; try reflexivity.
  vm_compute. intros H. discriminate H.
Qed.

(** ** C7 and C8: reconfiguration *)

Lemma connectToRuntimeLogs_spec (host : Host) (s : LogsWebview)
  (cfg : RuntimeLogsConfig) (p : WebviewPanel) :
  runtimeConfig s = Some cfg -> panel s = Some p ->
  let sock := {| sockUrl := url (getRuntimeLogWsConfig (client cfg) (selectedContainerId cfg)
                                   (tail cfg) (serverId (app cfg)));
                 sockHeaders := headers (getRuntimeLogWsConfig (client cfg)
                                           (selectedContainerId cfg) (tail cfg)
                                           (serverId (app cfg)));
                 sockRuntime := true |} in
  connectToRuntimeLogs host s
  = ({| panel := Some {| title := title p;
                         html := RuntimePage
                                   (join [LF] (runtimeLines host (showTimestamp s)
                                                 (lit "Connecting to log stream...")))
                                   (containers cfg) (selectedContainerId cfg) (tail cfg) |};
        ws := Some sock;
        logBuffer := [];
        showTimestamp := showTimestamp s;
        runtimeConfig := Some cfg;
        isRuntimeLogs := isRuntimeLogs s |},
     match ws s with
     | Some old => [SocketClosed old; SocketOpened sock]
     | None => [SocketOpened sock]
     end).
Proof.
  destruct s as [pn w b t rc ir]. cbn [runtimeConfig panel]. intros -> ->.
  destruct w; reflexivity.
Qed.


Lemma run_cons (host : Host) (e : Event) (events : list Event) (s : LogsWebview) :
  run host (e :: events) s = run host events (fst (handle host e s)).
Proof. reflexivity. Qed.








(** C8, as the code has it.  A changeTail message whose depth is missing,
    NaN or zero changes nothing and has no effect.  Every other number, a
    negative one included, is taken as the new depth: the socket is closed
    and a new one is opened. *)
Theorem changeTail_guard (host : Host) (s : LogsWebview) (message : WebviewMessage) :
  command message = changeTail ->
  ((msgTail message = None \/ msgTail message = Some NaN \/ msgTail message = Some (Int 0)) ->
   onDidReceiveMessage host message s = (s, []))
  /\ (forall n cfg p,
        msgTail message = Some n -> truthyNum n = true ->
        runtimeConfig s = Some cfg -> panel s = Some p ->
        runtimeConfig (fst (onDidReceiveMessage host message s)) = Some (withTail n cfg)
        /\ exists sock,
             ws (fst (onDidReceiveMessage host message s)) = Some sock
             /\ snd (onDidReceiveMessage host message s)
                = match ws s with
                  | Some old => [SocketClosed old; SocketOpened sock]
                  | None => [SocketOpened sock]
                  end).
Proof.
  intros Hcmd. split.
  - intros H. unfold onDidReceiveMessage, reading. rewrite Hcmd.
    destruct (runtimeConfig s); [|reflexivity].
    destruct H as [-> | [-> | ->]]; reflexivity.
  - intros n cfg p Hn Ht Hcfg Hp.
    assert (E : onDidReceiveMessage host message s
                = connectToRuntimeLogs host (setRuntimeConfig (Some (withTail n cfg)) s)).
    { unfold onDidReceiveMessage, reading. rewrite Hcfg, Hcmd, Hn, Ht.
      apply modify_andThen. }
    rewrite E.
    rewrite (connectToRuntimeLogs_spec host (setRuntimeConfig (Some (withTail n cfg)) s)
               (withTail n cfg) p eq_refl Hp).
    cbn [fst snd runtimeConfig ws]. split; [reflexivity|].
    eexists. split; reflexivity.
Qed.

(** The theorem on a changeTail message that carries NaN. *)
Lemma changeTail_guard_witness :
  onDidReceiveMessage utcHost
    {| command := changeTail; msgContainerId := None; msgTail := Some NaN |} demoRuntime
  = (demoRuntime, []).
Proof.
  exact (proj1 (changeTail_guard utcHost demoRuntime
                  {| command := changeTail; msgContainerId := None; msgTail := Some NaN |}
                  eq_refl)
           (or_intror (or_introl eq_refl))).
Defined.

(** C8 fails as stated: a depth of -5 is not refused.  The configuration
    takes it, the socket of the session is closed and another is opened. *)
Lemma negative_tail_replaces_session :
  let message := {| command := changeTail; msgContainerId := None;
                    msgTail := Some (Int (-5)) |} in
  let old := {| sockUrl := RuntimeLogsUrl (lit "https://dokploy.example") (lit "c1")
                             (lit "100") None;
                sockHeaders := [(lit "x-api-key", lit "key")]; sockRuntime := true |} in
  let new := {| sockUrl := RuntimeLogsUrl (lit "https://dokploy.example") (lit "c1")
                             (lit "-5") None;
                sockHeaders := [(lit "x-api-key", lit "key")]; sockRuntime := true |} in
  ws demoRuntime = Some old
  /\ option_map tail (runtimeConfig (fst (onDidReceiveMessage utcHost message demoRuntime)))
     = Some (Int (-5))
  /\ snd (onDidReceiveMessage utcHost message demoRuntime)
     = [SocketClosed old; SocketOpened new].
Proof. cbv zeta. repeat split; reflexivity. Qed.

(** ** C10: the timestamp switch *)

(** C10.  The object the extension builds has the switch off in every
    state it reaches; the documents it shows hold log lines rendered with
    the switch off, and such a line has nothing in the place of the
    timestamp, whatever the line was. *)
Theorem timestamps_are_never_rendered (host : Host) (events : list Event) :
  let s := run host events (constructor None) in
  showTimestamp s = false
  /\ (forall page, shown s = Some page -> withoutTimestamps host page)
  /\ (forall line,
        contentLine host (showTimestamp s) line
        = if negb (truthyStr (trim line)) then emptyRow
          else lineTemplate 8 6 (getLogType (message (parseLogLine host line))) []
                 (ansiToHtml host (escapeHtml (message (parseLogLine host line)))))
  /\ (forall line,
        formatLogLine host (showTimestamp s) line
        = if negb (truthyStr (trim line)) then emptyRow
          else lineTemplate 6 4 (getLogType (message (parseLogLine host line))) []
                 (ansiToHtml host (escapeHtml (message (parseLogLine host line))))).
Proof.
  cbv zeta.
  destruct (inv_run host events (constructor None)) as [Hts Hpage].
  { split; [reflexivity | discriminate]. }
  rewrite Hts. repeat split; auto.
Qed.

(** A line with a timestamp that parses, rendered by the object of the
    extension: the place of the timestamp is empty. *)
Example stamped_line_without_timestamp :
  contentLine utcHost (showTimestamp demoStream)
    (lit "2024-01-05T10:00:00Z Listening on port 3000")
  = lineTemplate 8 6 (LOG_STYLES success) [] (lit "Listening on port 3000").
Proof. reflexivity. Qed.

(* ================================================================== *)
(** * Further properties of the renderer *)

Module RendererFacts.

(** What [escapeHtml] makes of one character. *)
Definition escapeChar (c : char) : str :=
  if N.eqb c (chr "&") then lit "&amp;"
  else if N.eqb c (chr "<") then lit "&lt;"
  else if N.eqb c (chr ">") then lit "&gt;"
  else if N.eqb c 34 then lit "&quot;"
  else if N.eqb c (chr "'") then lit "&#039;"
  else [c].

Lemma flat_map_flat_map {A B C : Type} (f : A -> list B) (g : B -> list C) (l : list A) :
  flat_map g (flat_map f l) = flat_map (fun x => flat_map g (f x)) l.
Proof.
  induction l as [|x l IH]; [reflexivity|].
  cbn [flat_map]. now rewrite flat_map_app, IH.
Qed.

Lemma escapeHtml_flat_map (text : str) :
  escapeHtml text = flat_map escapeChar text.
Proof.
  unfold escapeHtml, replaceAll.
  rewrite !flat_map_flat_map.
  apply flat_map_ext. intros c. unfold escapeChar.
  change (chr "&") with 38%N. change (chr "<") with 60%N.
  change (chr ">") with 62%N. change (chr "'") with 39%N.
  destruct (N.eqb_spec c 38) as [->|H38]; [reflexivity|].
  destruct (N.eqb_spec c 60) as [->|H60]; [reflexivity|].
  destruct (N.eqb_spec c 62) as [->|H62]; [reflexivity|].
  destruct (N.eqb_spec c 34) as [->|H34]; [reflexivity|].
  destruct (N.eqb_spec c 39) as [->|H39]; [reflexivity|].
  apply N.eqb_neq in H60, H62, H34, H39.
  cbn [flat_map List.app]. rewrite H60. cbn [flat_map List.app].
  rewrite H62. cbn [flat_map List.app]. rewrite H34. cbn [flat_map List.app].
  rewrite H39. reflexivity.
Qed.

(** The five replacements of [escapeHtml], made one after the other, come
    to one pass over the text that escapes each character once: the
    ampersand of an entity written for an angle bracket or a quote is not
    escaped again, because the ampersands are replaced first.  So a text
    can be escaped piece by piece. *)
Theorem escapeHtml_one_pass (a b : str) :
  escapeHtml a = flat_map escapeChar a
  /\ escapeHtml (a ++ b) = escapeHtml a ++ escapeHtml b.
Proof.
  split; [apply escapeHtml_flat_map|].
  rewrite !escapeHtml_flat_map. apply flat_map_app.
Qed.

(** The characters an escaped text may not hold as they are. *)
Definition isMarkupChar (c : char) : bool :=
  N.eqb c (chr "<") || N.eqb c (chr ">") || N.eqb c 34 || N.eqb c (chr "'").

Lemma escapeChar_clean (c : char) : forallb (fun x => negb (isMarkupChar x)) (escapeChar c) = true.
Proof.
  unfold escapeChar.
  change (chr "&") with 38%N. change (chr "<") with 60%N.
  change (chr ">") with 62%N. change (chr "'") with 39%N.
  destruct (N.eqb_spec c 38); [reflexivity|].
  destruct (N.eqb_spec c 60) as [|H60]; [reflexivity|].
  destruct (N.eqb_spec c 62) as [|H62]; [reflexivity|].
  destruct (N.eqb_spec c 34) as [|H34]; [reflexivity|].
  destruct (N.eqb_spec c 39) as [|H39]; [reflexivity|].
  apply N.eqb_neq in H60, H62, H34, H39.
  cbn [forallb]. unfold isMarkupChar.
  change (chr "<") with 60%N. change (chr ">") with 62%N. change (chr "'") with 39%N.
  now rewrite H60, H62, H34, H39.
Qed.

(** An escaped text holds no angle bracket and no quote, whatever the
    message was; and a text without ampersand, angle bracket and quote is
    left as it is. *)
Theorem escapeHtml_no_markup (text : str) :
  forallb (fun c => negb (isMarkupChar c)) (escapeHtml text) = true
  /\ (forallb (fun c => negb (isMarkupChar c || N.eqb c (chr "&"))) text = true ->
      escapeHtml text = text).
Proof.
  rewrite escapeHtml_flat_map. split.
  - induction text as [|c text IH]; [reflexivity|].
    cbn [flat_map]. now rewrite forallb_app, escapeChar_clean, IH.
  - induction text as [|c text IH]; [reflexivity|].
    cbn [forallb flat_map]. intros H. apply andb_prop in H as [Hc Ht].
    rewrite (IH Ht). apply negb_true_iff in Hc.
    apply orb_false_elim in Hc as [Hm Ha]. unfold isMarkupChar in Hm.
    apply orb_false_elim in Hm as [Hm H39]. apply orb_false_elim in Hm as [Hm H34].
    apply orb_false_elim in Hm as [H60 H62].
    unfold escapeChar. now rewrite Ha, H60, H62, H34, H39.
Qed.

Lemma escapeChar_cases (c : char) :
  (c = 38%N /\ escapeChar c = lit "&amp;")
  \/ (c = 60%N /\ escapeChar c = lit "&lt;")
  \/ (c = 62%N /\ escapeChar c = lit "&gt;")
  \/ (c = 34%N /\ escapeChar c = lit "&quot;")
  \/ (c = 39%N /\ escapeChar c = lit "&#039;")
  \/ (c <> 38%N /\ escapeChar c = [c]).
Proof.
  unfold escapeChar.
  change (chr "&") with 38%N. change (chr "<") with 60%N.
  change (chr ">") with 62%N. change (chr "'") with 39%N.
  destruct (N.eqb_spec c 38); [now left|].
  destruct (N.eqb_spec c 60); [now right; left|].
  destruct (N.eqb_spec c 62); [now right; right; left|].
  destruct (N.eqb_spec c 34); [now right; right; right; left|].
  destruct (N.eqb_spec c 39); [now right; right; right; right; left|].
  now right; right; right; right; right.
Qed.

(** Two messages with the same escaped text are the same message. *)
Theorem escapeHtml_injective (a b : str) :
  escapeHtml a = escapeHtml b -> a = b.
Proof.
  rewrite !escapeHtml_flat_map. revert b.
  induction a as [|x a IH]; intros [|y b] H.
  - reflexivity.
  - exfalso. cbn [flat_map] in H.
    destruct (escapeChar_cases y) as [[_ E]|[[_ E]|[[_ E]|[[_ E]|[[_ E]|[_ E]]]]]];
      rewrite E in H; discriminate H.
  - exfalso. cbn [flat_map] in H.
    destruct (escapeChar_cases x) as [[_ E]|[[_ E]|[[_ E]|[[_ E]|[[_ E]|[_ E]]]]]];
      rewrite E in H; discriminate H.
  - cbn [flat_map] in H.
    destruct (escapeChar_cases x) as [[Hx E]|[[Hx E]|[[Hx E]|[[Hx E]|[[Hx E]|[Hx E]]]]]];
      destruct (escapeChar_cases y) as [[Hy F]|[[Hy F]|[[Hy F]|[[Hy F]|[[Hy F]|[Hy F]]]]]];
      rewrite E, F in H; cbn in H;
      try discriminate H;
      try (injection H as H; subst; f_equal; now apply IH);
      try (injection H as H0 H; congruence).
Qed.

Lemma escapeHtml_injective_witness : lit "a<b" = lit "a<b".
Proof. exact (escapeHtml_injective (lit "a<b") (lit "a<b") eq_refl). Defined.


(** ** One row for each line *)

Lemma split_length (sep : char) (s : str) :
  List.length (split sep s) = S (count_occ N.eq_dec s sep).
Proof.
  induction s as [|c s IH]; [reflexivity|].
  destruct (N.eqb_spec c sep) as [->|Hne].
  - cbn [split]. rewrite N.eqb_refl. cbn [List.length].
    rewrite count_occ_cons_eq by reflexivity. now rewrite IH.
  - rewrite split_cons_other by (now apply N.eqb_neq).
    rewrite count_occ_cons_neq by exact Hne. rewrite <- IH.
    destruct (split sep s) eqn:E; [now apply split_nonempty in E | reflexivity].
Qed.

Lemma trim_blank (line : str) : forallb isWhiteSpace line = true -> trim line = [].
Proof.
  intros H. unfold trim.
  replace (dropWhile isWhiteSpace line) with (@nil N); [reflexivity|].
  symmetry. rewrite <- (app_nil_r line). now rewrite dropWhile_app_all.
Qed.

(** The panel gets one row for each line of the content, one more than
    the content has line breaks; and a line of white space alone, the empty
    line included, gets the blank row, so that it keeps its place. *)
Theorem one_row_per_line (host : Host) (this : LogsWebview) (isRuntime : bool)
  (logContent : str) :
  List.length (renderLines host this isRuntime logContent)
  = S (count_occ N.eq_dec logContent LF)
  /\ (forall line, forallb isWhiteSpace line = true ->
        renderLine host this isRuntime line = emptyRow).
Proof.
  split.
  - unfold renderLines. rewrite length_map. apply split_length.
  - intros line H. unfold renderLine, formatLogLine, contentLine.
    rewrite (trim_blank line H). destruct isRuntime, (runtimeConfig this); reflexivity.
Qed.

End RendererFacts.

(* ================================================================== *)
(** * The calendar of [formatTimestamp] *)

Module CalendarFacts.

Local Open Scope Z_scope.

Definition isLeap (y : Z) : bool :=
  ((y mod 4 =? 0) && negb (y mod 100 =? 0)) || (y mod 400 =? 0).

Definition daysInMonth (y m : Z) : Z :=
  if m =? 2 then (if isLeap y then 29 else 28)
  else if (m =? 4) || (m =? 6) || (m =? 9) || (m =? 11) then 30 else 31.

(** The day of the era for a year of the era and a day of that year, the
    years running from March. *)
Definition dayOfEra (yoe doy : Z) : Z := yoe * 365 + yoe / 4 - yoe / 100 + doy.

(** The days of an era up to day [doe], less the leap days among them: 365
    for each year that has gone by. *)
Definition eraDays (doe : Z) : Z := doe - doe / 1460 + doe / 36524 - doe / 146096.

Definition yearOfEra (doe : Z) : Z := eraDays doe / 365.

(** The year of the era that runs from March of [yoe] holds a 29 February. *)
Definition longYear (yoe : Z) : bool := isLeap (yoe + 1).

Definition lastDay (yoe : Z) : Z := if longYear yoe then 365 else 364.

Lemma eraDays_step (a : Z) : 0 <= a < 146096 -> eraDays a <= eraDays (a + 1).
Proof.
  intros H. unfold eraDays.
  assert (H3 : a / 146096 = 0) by (apply Z.div_small; lia).
  assert (H1 : (a + 1) / 1460 <= a / 1460 + 1).
  { assert (H1 : (a + 1) / 1460 <= (a + 1 * 1460) / 1460) by (apply Z.div_le_mono; lia).
    rewrite Z.div_add in H1 by lia. exact H1. }
  assert (H2 : a / 36524 <= (a + 1) / 36524) by (apply Z.div_le_mono; lia).
  destruct (Z.eq_dec (a + 1) 146096) as [E|E].
  - assert (a = 146095) by lia. subst a. vm_compute. discriminate.
  - assert (H4 : (a + 1) / 146096 = 0) by (apply Z.div_small; lia). lia.
Qed.

Lemma eraDays_mono (a b : Z) : 0 <= a -> a <= b -> b <= 146096 -> eraDays a <= eraDays b.
Proof.
  intros Ha Hab Hb.
  replace b with (a + Z.of_nat (Z.to_nat (b - a))) in * by lia.
  induction (Z.to_nat (b - a)) as [|n IH]; [rewrite Z.add_0_r; lia|].
  rewrite Nat2Z.inj_succ in *.
  transitivity (eraDays (a + Z.of_nat n)); [apply IH; lia|].
  replace (a + Z.succ (Z.of_nat n)) with (a + Z.of_nat n + 1) by lia.
  apply eraDays_step. lia.
Qed.

(** The first and the last day of a year of the era belong to it. *)
Definition checkYear (yoe : Z) : bool :=
  (yearOfEra (dayOfEra yoe 0) =? yoe) && (yearOfEra (dayOfEra yoe (lastDay yoe)) =? yoe)
  && (0 <=? dayOfEra yoe 0) && (dayOfEra yoe (lastDay yoe) <=? 146096).

Lemma checkYear_all : forallb (fun i => checkYear (Z.of_nat i)) (seq 0 400) = true.
Proof. vm_compute. reflexivity. Qed.

Lemma dayOfEra_inverse (yoe doy : Z) :
  0 <= yoe < 400 -> 0 <= doy <= 365 -> (doy = 365 -> longYear yoe = true) ->
  yearOfEra (dayOfEra yoe doy) = yoe /\ 0 <= dayOfEra yoe doy <= 146096.
Proof.
  intros Hy Hd Hlong.
  pose proof checkYear_all as H.
  rewrite forallb_forall in H.
  specialize (H (Z.to_nat yoe)). rewrite in_seq in H.
  assert (Hin : (0 <= Z.to_nat yoe < 0 + 400)%nat) by lia.
  specialize (H Hin). rewrite Z2Nat.id in H by lia.
  unfold checkYear in H.
  apply andb_prop in H as [H H4]. apply andb_prop in H as [H H3].
  apply andb_prop in H as [H1 H2].
  apply Z.eqb_eq in H1, H2. apply Z.leb_le in H3, H4.
  assert (Hlast : doy <= lastDay yoe).
  { unfold lastDay. destruct (longYear yoe); [lia|].
    destruct (Z.eq_dec doy 365) as [E|E]; [now apply Hlong in E | lia]. }
  assert (Hlo : dayOfEra yoe 0 <= dayOfEra yoe doy) by (unfold dayOfEra; lia).
  assert (Hhi : dayOfEra yoe doy <= dayOfEra yoe (lastDay yoe)) by (unfold dayOfEra; lia).
  split; [|lia].
  unfold yearOfEra in *.
  pose proof (eraDays_mono _ _ H3 Hlo ltac:(lia)) as M1.
  pose proof (eraDays_mono (dayOfEra yoe doy) (dayOfEra yoe (lastDay yoe)) ltac:(lia) Hhi H4) as M2.
  apply (Z.div_le_mono _ _ 365) in M1; [|lia].
  apply (Z.div_le_mono _ _ 365) in M2; [|lia].
  lia.
Qed.

(** The day of the year, from March, of day [d] of the month with index
    [mp] from March. *)
Definition dayOfYear (mp d : Z) : Z := (153 * mp + 2) / 5 + d - 1.

Definition monthLength (mp : Z) : Z :=
  if mp =? 11 then 29
  else if (mp =? 1) || (mp =? 3) || (mp =? 6) || (mp =? 8) then 30 else 31.

Definition checkMonth (mp d : Z) : bool :=
  let doy := dayOfYear mp d in
  if (d =? 0) || (monthLength mp <? d) then true
  else ((5 * doy + 2) / 153 =? mp) && (doy - (153 * mp + 2) / 5 + 1 =? d)
       && (0 <=? doy) && (doy <=? 365) && implb (doy =? 365) ((mp =? 11) && (d =? 29)).

Lemma checkMonth_all :
  forallb (fun i => forallb (fun j => checkMonth (Z.of_nat i) (Z.of_nat j)) (seq 0 32))
    (seq 0 12) = true.
Proof. vm_compute. reflexivity. Qed.

Lemma dayOfYear_inverse (mp d : Z) :
  0 <= mp <= 11 -> 1 <= d <= monthLength mp ->
  (5 * dayOfYear mp d + 2) / 153 = mp
  /\ dayOfYear mp d - (153 * mp + 2) / 5 + 1 = d
  /\ 0 <= dayOfYear mp d <= 365
  /\ (dayOfYear mp d = 365 -> mp = 11 /\ d = 29).
Proof.
  intros Hm Hd.
  assert (Hd31 : d <= 31).
  { unfold monthLength in Hd. destruct (mp =? 11); [lia|]. destruct (_ || _); lia. }
  pose proof checkMonth_all as H.
  rewrite forallb_forall in H.
  specialize (H (Z.to_nat mp)). rewrite in_seq in H.
  assert (Hin : (0 <= Z.to_nat mp < 0 + 12)%nat) by lia.
  specialize (H Hin). rewrite forallb_forall in H.
  specialize (H (Z.to_nat d)). rewrite in_seq in H.
  assert (Hin' : (0 <= Z.to_nat d < 0 + 32)%nat) by lia.
  specialize (H Hin'). rewrite !Z2Nat.id in H by lia.
  unfold checkMonth in H.
  replace (d =? 0) with false in H by (symmetry; apply Z.eqb_neq; lia).
  replace (monthLength mp <? d) with false in H by (symmetry; apply Z.ltb_ge; lia).
  cbn [orb] in H.
  apply andb_prop in H as [H H5]. apply andb_prop in H as [H H4].
  apply andb_prop in H as [H H3]. apply andb_prop in H as [H1 H2].
  apply Z.eqb_eq in H1, H2. apply Z.leb_le in H3, H4.
  split; [assumption|]. split; [assumption|]. split; [lia|].
  intros E. apply Z.eqb_eq in E. rewrite E in H5. cbn [implb] in H5.
  apply andb_prop in H5 as [H5 H6]. apply Z.eqb_eq in H5, H6. auto.
Qed.

(** A date of the calendar comes back from its day number. *)
Lemma civil_roundtrip (y m d : Z) :
  1 <= m <= 12 -> 1 <= d <= daysInMonth y m ->
  JSDate.civilFromDays (JSDate.daysFromCivil y m d) = (y, m, d).
Proof.
  intros Hm Hd.
  unfold JSDate.civilFromDays, JSDate.daysFromCivil. cbv zeta.
  set (y' := if m <=? 2 then y - 1 else y).
  set (mp := if 2 <? m then m - 3 else m + 9).
  set (era := y' / 400).
  set (yoe := y' - era * 400).
  fold (dayOfYear mp d). fold (dayOfEra yoe (dayOfYear mp d)).
  assert (Hyoe : 0 <= yoe < 400).
  { unfold yoe, era. pose proof (Z.mod_pos_bound y' 400 ltac:(lia)) as Hb.
    rewrite Z.mod_eq in Hb by lia. lia. }
  assert (Hmp : 0 <= mp <= 11) by (unfold mp; destruct (2 <? m) eqn:E;
    [apply Z.ltb_lt in E | apply Z.ltb_ge in E]; lia).
  assert (Hleap : isLeap (y' + 1) = longYear yoe).
  { unfold longYear, isLeap.
    replace (y' + 1) with (yoe + 1 + era * 400) by (unfold yoe; lia).
    assert (E4 : (yoe + 1 + era * 400) mod 4 = (yoe + 1) mod 4)
      by (replace (era * 400) with (era * 100 * 4) by lia; apply Z.mod_add; lia).
    assert (E100 : (yoe + 1 + era * 400) mod 100 = (yoe + 1) mod 100)
      by (replace (era * 400) with (era * 4 * 100) by lia; apply Z.mod_add; lia).
    assert (E400 : (yoe + 1 + era * 400) mod 400 = (yoe + 1) mod 400)
      by (apply Z.mod_add; lia).
    now rewrite E4, E100, E400. }
  assert (Hlen : 1 <= d <= monthLength mp /\ (mp = 11 -> d = 29 -> longYear yoe = true)).
  { unfold daysInMonth in Hd. unfold monthLength, mp, y' in *.
    assert (Hc : m = 1 \/ m = 2 \/ m = 3 \/ m = 4 \/ m = 5 \/ m = 6 \/ m = 7 \/ m = 8
                 \/ m = 9 \/ m = 10 \/ m = 11 \/ m = 12) by lia.
    repeat destruct Hc as [-> | Hc]; try subst m; cbn in *; try (split; [lia | intros; lia]).
    rewrite <- Hleap. replace (y - 1 + 1) with y by lia.
    destruct (isLeap y); split; try lia; auto. }
  destruct Hlen as [Hlen Hfeb].
  destruct (dayOfYear_inverse mp d Hmp Hlen) as (Hmp' & Hd' & Hdoy & H365).
  destruct (dayOfEra_inverse yoe (dayOfYear mp d) Hyoe Hdoy) as [Hy' Hdoe].
  { intros E. destruct (H365 E) as [E1 E2]. now apply Hfeb. }
  set (doe := dayOfEra yoe (dayOfYear mp d)) in *.
  replace (era * 146097 + doe - 719468 + 719468) with (doe + era * 146097) by lia.
  rewrite Z.div_add by lia. rewrite (Z.div_small doe) by lia.
  rewrite !Z.add_0_l.
  replace (doe + era * 146097 - era * 146097) with doe by lia.
  fold (eraDays doe). fold (yearOfEra doe). rewrite Hy'.
  replace (doe - (365 * yoe + yoe / 4 - yoe / 100)) with (dayOfYear mp d)
    by (unfold doe, dayOfEra; lia).
  rewrite Hmp', Hd'.
  assert (Ey : yoe + era * 400 = y') by (unfold yoe; lia).
  rewrite Ey. unfold mp, y'.
  destruct (2 <? m) eqn:E2; [apply Z.ltb_lt in E2 | apply Z.ltb_ge in E2].
  - replace (m - 3 <? 10) with true by (symmetry; apply Z.ltb_lt; lia).
    replace (m - 3 + 3) with m by lia.
    replace (m <=? 2) with false by (symmetry; apply Z.leb_gt; lia).
    reflexivity.
  - replace (m + 9 <? 10) with false by (symmetry; apply Z.ltb_ge; lia).
    replace (m + 9 - 9) with m by lia.
    replace (m <=? 2) with true by (symmetry; apply Z.leb_le; lia).
    repeat f_equal; lia.
Qed.

End CalendarFacts.

(* ================================================================== *)
(** * A timestamp read by [parseLogLine] and written by [formatTimestamp] *)

Module TimestampFacts.

Import CalendarFacts DateFacts.

Definition decimalDigits : list char := [48; 49; 50; 51; 52; 53; 54; 55; 56; 57]%N.

Lemma isDigit_decimal (c : char) : isDigit c = true -> In c decimalDigits.
Proof.
  unfold isDigit. intros H. apply andb_prop in H as [H1 H2].
  apply N.leb_le in H1, H2.
  assert (Hc : (c = 48 \/ c = 49 \/ c = 50 \/ c = 51 \/ c = 52 \/ c = 53 \/ c = 54
                \/ c = 55 \/ c = 56 \/ c = 57)%N) by lia.
  repeat (destruct Hc as [-> | Hc]; [cbn; tauto|]). subst c. cbn. tauto.
Qed.

Lemma sameText_eq (a b : str) : sameText a b = true -> a = b.
Proof. unfold sameText. now destruct (list_eq_dec N.eq_dec a b). Qed.

Lemma two_digits_all :
  forallb (fun a => forallb (fun b =>
    sameText (padStart2 (intToString (JSDate.number [a; b]))) [a; b])
    decimalDigits) decimalDigits = true.
Proof. vm_compute. reflexivity. Qed.

Lemma four_digits_all :
  forallb (fun a => forallb (fun b => forallb (fun c => forallb (fun d =>
    N.eqb a 48 || sameText (intToString (JSDate.number [a; b; c; d])) [a; b; c; d])
    decimalDigits) decimalDigits) decimalDigits) decimalDigits = true.
Proof. vm_compute. reflexivity. Qed.

(** A field of two digits is written back as it was read. *)
Lemma pad_number (s : str) :
  digitsOf 2 s = true -> padStart2 (intToString (JSDate.number s)) = s.
Proof.
  intros H. destruct (digitsOf_2 s H) as (a & b & -> & Ha & Hb).
  pose proof two_digits_all as Hall. rewrite forallb_forall in Hall.
  specialize (Hall a (isDigit_decimal a Ha)). rewrite forallb_forall in Hall.
  exact (sameText_eq _ _ (Hall b (isDigit_decimal b Hb))).
Qed.

Lemma two_digits_bound (s : str) :
  digitsOf 2 s = true -> (0 <= JSDate.number s <= 99)%Z.
Proof.
  intros H. destruct (digitsOf_2 s H) as (a & b & -> & Ha & Hb).
  unfold isDigit in Ha, Hb.
  apply andb_prop in Ha as [Ha1 Ha2]. apply andb_prop in Hb as [Hb1 Hb2].
  apply N.leb_le in Ha1, Ha2, Hb1, Hb2.
  unfold JSDate.number, JSDate.digitVal. cbn [fold_left]. lia.
Qed.

(** A year of four digits is written back as it was read unless it starts
    with a zero: the year is written without padding. *)
Lemma year_number (s : str) :
  digitsOf 4 s = true -> (1000 <= JSDate.number s)%Z ->
  intToString (JSDate.number s) = s.
Proof.
  intros H Hy. destruct (digitsOf_4 s H) as (a & b & c & d & -> & Ha & Hb & Hc & Hd).
  pose proof four_digits_all as Hall. rewrite forallb_forall in Hall.
  specialize (Hall a (isDigit_decimal a Ha)). rewrite forallb_forall in Hall.
  specialize (Hall b (isDigit_decimal b Hb)). rewrite forallb_forall in Hall.
  specialize (Hall c (isDigit_decimal c Hc)). rewrite forallb_forall in Hall.
  specialize (Hall d (isDigit_decimal d Hd)).
  apply orb_prop in Hall as [E | E]; [| exact (sameText_eq _ _ E)].
  exfalso. apply N.eqb_eq in E. subst a.
  unfold isDigit in Hb, Hc, Hd.
  apply andb_prop in Hb as [Hb1 Hb2]. apply andb_prop in Hc as [Hc1 Hc2].
  apply andb_prop in Hd as [Hd1 Hd2].
  apply N.leb_le in Hb1, Hb2, Hc1, Hc2, Hd1, Hd2.
  unfold JSDate.number, JSDate.digitVal in Hy. cbn [fold_left] in Hy. lia.
Qed.

Lemma fractionMillis_bound (f : str) :
  forallb isDigit f = true -> (0 <= JSDate.fractionMillis f <= 999)%Z.
Proof.
  intros H. unfold JSDate.fractionMillis.
  assert (Hd : forall c, isDigit c = true -> (48 <= c <= 57)%N).
  { intros c Hc. unfold isDigit in Hc. apply andb_prop in Hc as [H1 H2].
    apply N.leb_le in H1, H2. lia. }
  destruct f as [|a [|b [|c f]]]; cbn [List.app firstn forallb] in *;
    repeat match goal with
           | H : (_ && _)%bool = true |- _ => apply andb_prop in H as [? ?]
           | H : isDigit _ = true |- _ => apply Hd in H
           end;
    unfold JSDate.number, JSDate.digitVal; cbn [fold_left]; lia.
Qed.

(** The calendar fields of a time of day. *)
Lemma time_of_day (days h m s ms : Z) :
  (0 <= h <= 23 -> 0 <= m <= 59 -> 0 <= s <= 59 -> 0 <= ms <= 999 ->
   let t := days * JSDate.msPerDay + h * 3600000 + m * 60000 + s * 1000 + ms in
   t / JSDate.msPerDay = days
   /\ (t mod JSDate.msPerDay) / 3600000 = h
   /\ (t mod 3600000) / 60000 = m
   /\ (t mod 60000) / 1000 = s)%Z.
Proof.
  intros Hh Hm Hs Hms t. unfold JSDate.msPerDay in *.
  assert (E1 : (t / 86400000 = days)%Z).
  { symmetry. apply (Z.div_unique t 86400000 days (h * 3600000 + m * 60000 + s * 1000 + ms));
      [left|unfold t]; lia. }
  assert (E2 : (t mod 86400000 = h * 3600000 + m * 60000 + s * 1000 + ms)%Z).
  { symmetry. apply (Z.mod_unique t 86400000 days); [left|unfold t]; lia. }
  assert (E3 : (t mod 3600000 = m * 60000 + s * 1000 + ms)%Z).
  { symmetry. apply (Z.mod_unique t 3600000 (days * 24 + h)); [left|unfold t]; lia. }
  assert (E4 : (t mod 60000 = s * 1000 + ms)%Z).
  { symmetry. apply (Z.mod_unique t 60000 (days * 1440 + h * 60 + m)); [left|unfold t]; lia. }
  rewrite E1, E2, E3, E4. split; [reflexivity|].
  split; [|split]; symmetry.
  - apply (Z.div_unique _ 3600000 h (m * 60000 + s * 1000 + ms)); [left|]; lia.
  - apply (Z.div_unique _ 60000 m (s * 1000 + ms)); [left|]; lia.
  - apply (Z.div_unique _ 1000 s ms); [left|]; lia.
Qed.

(** A timestamp names a day of the calendar and a time of that day, and its
    year has no leading zero. *)
Definition calendarTime (t : Stamp) : bool :=
  let f := stampFields t in
  (1000 <=? JSDate.year f)%Z
  && (1 <=? JSDate.month f)%Z && (JSDate.month f <=? 12)%Z
  && (1 <=? JSDate.day f)%Z
  && (JSDate.day f <=? daysInMonth (JSDate.year f) (JSDate.month f))%Z
  && (JSDate.hour f <=? 23)%Z && (JSDate.minute f <=? 59)%Z
  && (JSDate.second f <=? 59)%Z.

(** The date and the time of a timestamp as [formatTimestamp] writes them. *)
Definition clockText (t : Stamp) : str :=
  yyyy t ++ lit "-" ++ mo t ++ lit "-" ++ dd t ++ lit " "
  ++ hh t ++ lit ":" ++ mi t ++ lit ":" ++ ss t.

(** The host shows the fields of a timestamp as the timestamp gives them:
    local time undoes the shift applied to a timestamp without zone, and a
    timestamp in UTC is shown by a host in UTC. *)
Definition showsFields (host : Host) (t : Stamp) : Prop :=
  let v := JSDate.timeValue (stampFields t) in
  match zone t with
  | NoZone => localTime host (utcTime host v) = v
  | ZoneZ | ZoneUTC => localTime host v = v
  end.

Lemma daysInMonth_31 (y m : Z) : (daysInMonth y m <= 31)%Z.
Proof.
  unfold daysInMonth. destruct (m =? 2)%Z; [destruct (isLeap y); lia|].
  destruct (_ || _); lia.
Qed.

Lemma calendarTime_instant (host : Host) (t : Stamp) :
  calendarTime t = true ->
  stampInstant host t
  = Some (match zone t with
          | NoZone => utcTime host (JSDate.timeValue (stampFields t))
          | ZoneZ | ZoneUTC => JSDate.timeValue (stampFields t)
          end).
Proof.
  unfold calendarTime. cbv zeta. intros H.
  apply andb_prop in H as [H Hs]. apply andb_prop in H as [H Hmi].
  apply andb_prop in H as [H Hh]. apply andb_prop in H as [H Hdmax].
  apply andb_prop in H as [H Hd1]. apply andb_prop in H as [H Hm12].
  apply andb_prop in H as [H Hm1].
  unfold stampInstant, utcInstant.
  assert (E : JSDate.inRange (stampFields t) = true).
  { unfold JSDate.inRange. rewrite Hm1, Hm12, Hd1, Hh, Hmi, Hs. cbn [andb orb].
    rewrite Bool.andb_true_r. apply Z.leb_le. apply Z.leb_le in Hdmax.
    pose proof (daysInMonth_31 (JSDate.year (stampFields t)) (JSDate.month (stampFields t))).
    lia. }
  rewrite E. now destruct (zone t).
Qed.

Lemma formatTimestamp_fields (host : Host) (t : Stamp) (instant : Z) :
  wellFormed t = true ->
  calendarTime t = true ->
  localTime host instant = JSDate.timeValue (stampFields t) ->
  formatTimestamp host instant = clockText t.
Proof.
  intros Hwf Hcal Hlocal.
  unfold wellFormed in Hwf.
  do 7 (apply andb_prop in Hwf as [Hwf ?]).
  unfold calendarTime in Hcal. cbv zeta in Hcal.
  do 7 (apply andb_prop in Hcal as [Hcal ?]).
  repeat match goal with
         | H : (_ <=? _)%Z = true |- _ => apply Z.leb_le in H
         end.
  set (f := stampFields t) in *.
  assert (Hms : (0 <= JSDate.millis f <= 999)%Z).
  { unfold f, stampFields. cbn [JSDate.millis].
    destruct (fraction t) as [fr|]; [|lia].
    apply andb_prop in H as [_ H]. now apply fractionMillis_bound. }
  pose proof (two_digits_bound (hh t) ltac:(assumption)) as Bh.
  pose proof (two_digits_bound (mi t) ltac:(assumption)) as Bm.
  pose proof (two_digits_bound (ss t) ltac:(assumption)) as Bs.
  change (JSDate.number (hh t)) with (JSDate.hour f) in Bh.
  change (JSDate.number (mi t)) with (JSDate.minute f) in Bm.
  change (JSDate.number (ss t)) with (JSDate.second f) in Bs.
  destruct (time_of_day (JSDate.daysFromCivil (JSDate.year f) (JSDate.month f) (JSDate.day f))
              (JSDate.hour f) (JSDate.minute f) (JSDate.second f) (JSDate.millis f))
    as (Ed & Eh & Em & Es); try lia.
  fold (JSDate.timeValue f) in Ed, Eh, Em, Es.
  unfold formatTimestamp, clockText. cbv zeta.
  unfold JSDate.getFullYear, JSDate.getMonth, JSDate.getDate, JSDate.getHours,
    JSDate.getMinutes, JSDate.getSeconds.
  rewrite Hlocal, Ed, Eh, Em, Es.
  rewrite civil_roundtrip by lia. cbn [fst snd].
  replace (JSDate.month f - 1 + 1)%Z with (JSDate.month f) by lia.
  unfold f, stampFields.
  cbn [JSDate.year JSDate.month JSDate.day JSDate.hour JSDate.minute JSDate.second].
  rewrite year_number by assumption.
  rewrite !pad_number by assumption.
  reflexivity.
Qed.

(** A log line that starts with a timestamp of a day of the calendar,
    with a year of four digits without leading zero and a time up to
    23:59:59, is parsed to an instant that [formatTimestamp] writes as the
    date and the time of the timestamp, separated by a space and without
    fraction or zone -- on a host that shows the fields as given. *)
Theorem timestamp_round_trip (host : Host) (t : Stamp) (ws msg : str) :
  wellFormed t = true ->
  calendarTime t = true ->
  whiteSpace ws = true ->
  noLineTerminator msg = true ->
  longest t (ws ++ msg) = true ->
  showsFields host t ->
  option_map (formatTimestamp host)
    (timestamp (parseLogLine host (stampText t ++ ws ++ msg)))
  = Some (clockText t).
Proof.
  intros Hwf Hcal Hws Hmsg Hlong Hhost.
  rewrite parseLogLine_stamp by assumption. cbn [timestamp].
  rewrite calendarTime_instant by assumption. cbn [option_map].
  f_equal. apply formatTimestamp_fields; try assumption.
  unfold showsFields in Hhost. cbv zeta in Hhost.
  destruct (zone t); exact Hhost.
Qed.

Lemma timestamp_round_trip_witness :
  option_map (formatTimestamp utcHost)
    (timestamp (parseLogLine utcHost (lit "2024-01-05T10:00:00Z Listening on port 3000")))
  = Some (lit "2024-01-05 10:00:00").
Proof.
  exact (timestamp_round_trip utcHost demoStamp (lit " ") (lit "Listening on port 3000")
           eq_refl eq_refl eq_refl eq_refl eq_refl eq_refl).
Defined.

End TimestampFacts.

(* ================================================================== *)
(** * Lines without timestamp *)

Module ParserFacts.

Import RegexFacts.

Definition startsWithDigit (line : str) : bool :=
  match line with
  | c :: _ => isDigit c
  | [] => false
  end.

(** The pattern is tied to the start of the line. *)
Lemma timestampRegex_later (x : char) (s : str) :
  searchFrom false timestampRegex (Some x) s = None.
Proof.
  revert x. induction s as [|y s IH]; intros x; cbn [searchFrom];
    change timestampRegex with (Seq Bol (Seq (Grp 1 stampRe) tailRe));
    rewrite m_seq; cbn [m before]; [reflexivity | apply IH].
Qed.

(** A line that does not start with a digit -- the empty line is one -- has
    no timestamp, and its message is the line as it is: white space at its
    ends stays, while the message after a timestamp is trimmed. *)
Theorem line_without_digit_is_kept (host : Host) (line : str) :
  startsWithDigit line = false ->
  parseLogLine host line = {| timestamp := None; message := line |}.
Proof.
  intros H. unfold parseLogLine, exec.
  replace (searchFrom false timestampRegex None line) with (@None caps); [reflexivity|].
  symmetry. destruct line as [|c line]; cbn [searchFrom];
    change timestampRegex with (Seq Bol (Seq (Grp 1 stampRe) tailRe));
    rewrite m_seq; cbn [m before].
  - reflexivity.
  - unfold stampRe, Seqs. cbn [fold_right]. rewrite m_seq.
    change (m false (Rep 4 digit) ?p ?c ?k) with (times (one okDigit) 4 p c k).
    cbn [times]. rewrite one_cons, okDigit_eq.
    cbn [startsWithDigit] in H. rewrite H.
    change (Seq Bol (Seq (Grp 1 stampRe) tailRe)) with timestampRegex.
    apply timestampRegex_later.
Qed.

Lemma line_without_digit_is_kept_witness :
  parseLogLine utcHost (lit "  at Server.listen (net.js:1)  ")
  = {| timestamp := None; message := lit "  at Server.listen (net.js:1)  " |}.
Proof.
  exact (line_without_digit_is_kept utcHost (lit "  at Server.listen (net.js:1)  ") eq_refl).
Defined.

End ParserFacts.

(* ================================================================== *)
(** * The socket and the panel over the life of the object *)

Module SessionFacts.

(** The effects of a run of events, in order. *)
Fixpoint effects (host : Host) (events : list Event) (s : LogsWebview) : list Effect :=
  match events with
  | [] => []
  | e :: rest =>
      snd (handle host e s) ++ effects host rest (fst (handle host e s))
  end.

(** A list of effects seen from the sockets: [held] is the socket that is
    open before, [held'] the one that is open after.  A socket is opened
    only when none is open, and the socket that is closed is the open one. *)
Fixpoint follows (held : option Socket) (es : list Effect) (held' : option Socket) : Prop :=
  match es with
  | [] => held = held'
  | SocketOpened x :: rest => held = None /\ follows (Some x) rest held'
  | SocketClosed x :: rest => held = Some x /\ follows None rest held'
  | _ :: rest => follows held rest held'
  end.

Definition isSocketEffect (e : Effect) : bool :=
  match e with
  | SocketOpened _ | SocketClosed _ => true
  | _ => false
  end.

Definition opened (es : list Effect) : nat :=
  List.length (filter (fun e => match e with SocketOpened _ => true | _ => false end) es).

Definition closed (es : list Effect) : nat :=
  List.length (filter (fun e => match e with SocketClosed _ => true | _ => false end) es).

Definition live (s : LogsWebview) : nat :=
  match ws s with
  | Some _ => 1
  | None => 0
  end.

Lemma follows_app (a b c : option Socket) (es1 es2 : list Effect) :
  follows a es1 b -> follows b es2 c -> follows a (es1 ++ es2) c.
Proof.
  revert a. induction es1 as [|e es1 IH]; intros a H1 H2.
  - cbn in H1. subst b. exact H2.
  - destruct e; cbn in *; try (destruct H1 as [E H1]; split; [exact E|]); now apply IH.
Qed.

Lemma follows_count (a b : option Socket) (es : list Effect) :
  follows a es b ->
  (match a with Some _ => 1 | None => 0 end) + opened es
  = closed es + (match b with Some _ => 1 | None => 0 end).
Proof.
  unfold opened, closed. revert a.
  induction es as [|e es IH]; intros a H.
  - cbn in H. subst b. cbn. lia.
  - destruct e; cbn in *;
      try (destruct H as [-> H]); try specialize (IH _ H); cbn in *; lia.
Qed.

(** A command keeps the field [ws] in step with the sockets it opens and
    closes. *)
Definition Tracks (cmd : Cmd) : Prop :=
  forall s, follows (ws s) (snd (cmd s)) (ws (fst (cmd s))).

Lemma tracks_skip : Tracks skip.
Proof. intros s. reflexivity. Qed.

Lemma tracks_emit (e : Effect) : isSocketEffect e = false -> Tracks (emit e).
Proof. intros H s. destruct e; try discriminate H; reflexivity. Qed.

Lemma tracks_modify (f : LogsWebview -> LogsWebview) :
  (forall s, ws (f s) = ws s) -> Tracks (modify f).
Proof. intros H s. cbn. symmetry. apply H. Qed.

Lemma tracks_andThen (a b : Cmd) : Tracks a -> Tracks b -> Tracks (a ;; b).
Proof.
  intros Ha Hb s. specialize (Ha s). unfold andThen.
  destruct (a s) as [s1 e1]. specialize (Hb s1).
  destruct (b s1) as [s2 e2]. cbn [fst snd] in *.
  eapply follows_app; eassumption.
Qed.

Lemma tracks_reading (f : LogsWebview -> Cmd) :
  (forall this, Tracks (f this)) -> Tracks (reading f).
Proof. intros H s. apply H. Qed.

Lemma ws_setHtml (page : Page) (s : LogsWebview) : ws (setHtml page s) = ws s.
Proof. unfold setHtml. now destruct (panel s). Qed.

Lemma ws_setTitle (t : str) (s : LogsWebview) : ws (setTitle t s) = ws s.
Proof. unfold setTitle. now destruct (panel s). Qed.

Lemma tracks_setPanel p : Tracks (modify (setPanel p)).
Proof. now apply tracks_modify. Qed.

Lemma tracks_setLogBuffer b : Tracks (modify (setLogBuffer b)).
Proof. now apply tracks_modify. Qed.

Lemma tracks_setRuntimeConfig c : Tracks (modify (setRuntimeConfig c)).
Proof. now apply tracks_modify. Qed.

Lemma tracks_setIsRuntimeLogs b : Tracks (modify (setIsRuntimeLogs b)).
Proof. now apply tracks_modify. Qed.

Lemma tracks_setHtml page : Tracks (modify (setHtml page)).
Proof. apply tracks_modify. apply ws_setHtml. Qed.

Lemma tracks_setTitle t : Tracks (modify (setTitle t)).
Proof. apply tracks_modify. apply ws_setTitle. Qed.

Lemma tracks_closeWebSocket : Tracks closeWebSocket.
Proof.
  intros s. unfold closeWebSocket, reading.
  destruct (ws s) as [sock|] eqn:E; cbn; auto.
Qed.

(** After [closeWebSocket] no socket is held. *)
Lemma closeWebSocket_none (s : LogsWebview) : ws (fst (closeWebSocket s)) = None.
Proof.
  unfold closeWebSocket, reading. destruct (ws s) as [sock|] eqn:E; cbn; auto.
Qed.

Lemma tracks_connectWebSocket u h r : Tracks (connectWebSocket u h r).
Proof.
  intros s. unfold connectWebSocket.
  pose proof (tracks_closeWebSocket s) as Hc.
  pose proof (closeWebSocket_none s) as Hn.
  unfold andThen. destruct (closeWebSocket s) as [s1 e1]. cbn [fst snd] in *.
  eapply follows_app; [exact Hc|]. cbn. auto.
Qed.

Create HintDb tracks.

#[local] Hint Resolve tracks_skip tracks_andThen tracks_setPanel tracks_setLogBuffer
  tracks_setRuntimeConfig tracks_setIsRuntimeLogs tracks_setHtml tracks_setTitle
  tracks_closeWebSocket tracks_connectWebSocket : tracks.

#[local] Hint Extern 1 (Tracks (emit _)) => (apply tracks_emit; reflexivity) : tracks.

Section WithHost.

Variable host : Host.

Lemma tracks_updateContent logContent : Tracks (updateContent host logContent).
Proof.
  apply tracks_reading. intros this. destruct (panel this); auto with tracks.
Qed.

Lemma tracks_updateRuntimeContent logContent cs sel n :
  Tracks (updateRuntimeContent host logContent cs sel n).
Proof.
  apply tracks_reading. intros this. destruct (panel this); auto with tracks.
Qed.

Hint Resolve tracks_updateContent tracks_updateRuntimeContent : tracks.

Lemma tracks_onDidDispose : Tracks onDidDispose.
Proof. unfold onDidDispose. auto 10 with tracks. Qed.

Lemma tracks_createOrRevealPanel t : Tracks (createOrRevealPanel t).
Proof.
  unfold createOrRevealPanel. apply tracks_andThen; [|auto with tracks].
  apply tracks_reading. intros this. destruct (panel this); auto with tracks.
Qed.

Lemma tracks_setupMessageHandler : Tracks setupMessageHandler.
Proof.
  apply tracks_reading. intros this. destruct (panel this); auto with tracks.
Qed.

Hint Resolve tracks_onDidDispose tracks_createOrRevealPanel tracks_setupMessageHandler : tracks.

Lemma tracks_connectToRuntimeLogs : Tracks (connectToRuntimeLogs host).
Proof.
  apply tracks_reading. intros this.
  destruct (runtimeConfig this) as [cfg|]; [|auto with tracks].
  destruct (panel this); auto 10 with tracks.
Qed.

Lemma tracks_showEmptyState name : Tracks (showEmptyState name).
Proof. unfold showEmptyState. auto 10 with tracks. Qed.

Hint Resolve tracks_connectToRuntimeLogs tracks_showEmptyState : tracks.

Lemma tracks_display (isRuntime : bool) logContent : Tracks (display host isRuntime logContent).
Proof.
  apply tracks_reading. intros this.
  destruct isRuntime, (runtimeConfig this); auto with tracks.
Qed.

Lemma tracks_handle (e : Event) : Tracks (handle host e).
Proof.
  destruct e as [a c found | t u h | | isRuntime | isRuntime data | isRuntime reason
                | isRuntime | msg | found | ]; cbn [handle].
  - unfold showRuntimeLogs. destruct found as [|first found']; auto 10 with tracks.
  - unfold showWithWebSocket. auto 10 with tracks.
  - unfold dispose. apply tracks_andThen; [auto with tracks|].
    apply tracks_reading. intros this. destruct (panel this); auto with tracks.
  - unfold onOpen. apply tracks_andThen; [auto with tracks|].
    apply (tracks_display isRuntime).
  - unfold onMessage. apply tracks_andThen; [now apply tracks_modify|].
    apply tracks_reading. intros this.
    destruct isRuntime, (runtimeConfig this); auto with tracks.
  - apply tracks_reading. intros this.
    destruct isRuntime, (runtimeConfig this); auto with tracks.
  - apply tracks_reading. intros this.
    destruct (truthyStr (logBuffer this)); [|auto with tracks].
    destruct isRuntime, (runtimeConfig this); auto with tracks.
  - apply tracks_reading. intros this.
    destruct (runtimeConfig this) as [cfg|]; [|auto with tracks].
    destruct (command msg).
    + destruct (msgContainerId msg) as [id|]; [|auto with tracks].
      destruct (truthyStr id); auto with tracks.
    + destruct (msgTail msg) as [n|]; [|auto with tracks].
      destruct (truthyNum n); auto with tracks.
    + auto with tracks.
  - apply tracks_reading. intros this.
    destruct (runtimeConfig this) as [cfg|]; [|auto with tracks].
    destruct found as [|first found']; auto with tracks.
  - apply tracks_onDidDispose.
Qed.

Lemma follows_effects (events : list Event) :
  forall s, follows (ws s) (effects host events s) (ws (run host events s)).
Proof.
  induction events as [|e events IH]; intros s; [reflexivity|].
  cbn [effects]. eapply follows_app; [apply tracks_handle|].
  change (run host (e :: events) s) with (run host events (fst (handle host e s))).
  apply IH.
Qed.

(** Over every run of calls and callbacks, from every state, the
    object opens a socket only while it holds none and calls [close] only on
    the socket it holds, each socket at most once; the field [ws] is the
    socket opened last and not closed since.  So the sockets opened are the
    sockets closed and, if [ws] is set, one more. *)
Theorem one_socket_at_a_time (events : list Event) (s : LogsWebview) :
  follows (ws s) (effects host events s) (ws (run host events s))
  /\ live s + opened (effects host events s)
     = closed (effects host events s) + live (run host events s).
Proof.
  split; [apply follows_effects|].
  apply (follows_count _ _ _ (follows_effects events s)).
Qed.

End WithHost.

(** [dispose] leaves neither socket nor panel, closes the socket once
    although [closeWebSocket] runs twice, keeps the log buffer, and a second
    [dispose] does nothing. *)
Theorem dispose_once (s : LogsWebview) :
  let s' := fst (dispose s) in
  ws s' = None /\ panel s' = None /\ logBuffer s' = logBuffer s
  /\ (panel s <> None -> runtimeConfig s' = None /\ isRuntimeLogs s' = false)
  /\ snd (dispose s)
     = match ws s with Some sock => [SocketClosed sock] | None => [] end
       ++ match panel s with Some _ => [PanelDisposed] | None => [] end
  /\ dispose s' = (s', []).
Proof.
  destruct s as [[p|] [sock|] buffer ts cfg rt]; cbn;
    repeat split; try reflexivity; try congruence.
Qed.

Definition registered (es : list Effect) : nat :=
  List.length (filter (fun e => match e with HandlerRegistered => true | _ => false end) es).

Definition created (es : list Effect) : nat :=
  List.length (filter (fun e => match e with PanelCreated _ => true | _ => false end) es).

Lemma registered_app (a b : list Effect) : registered (a ++ b) = registered a + registered b.
Proof. unfold registered. now rewrite filter_app, length_app. Qed.

Lemma created_app (a b : list Effect) : created (a ++ b) = created a + created b.
Proof. unfold created. now rewrite filter_app, length_app. Qed.

Definition hasPanel (s : LogsWebview) : bool :=
  match panel s with
  | Some _ => true
  | None => false
  end.

(** One call of [showRuntimeLogs]: a handler is registered whether the
    panel is new or not. *)
Lemma showRuntimeLogs_effects (host : Host) (a : Application) (c : DokployClient)
  (found : list Container) (s : LogsWebview) :
  let r := showRuntimeLogs host a c found s in
  registered (snd r) = 1
  /\ created (snd r) = (if hasPanel s then 0 else 1)
  /\ hasPanel (fst r) = true.
Proof.
  destruct s as [[p|] [sock|] buffer ts cfg rt]; destruct found as [|first found'];
    lazy; repeat split.
Qed.

(** Calls of [showRuntimeLogs] that follow one another register one
    handler of webview messages each, while at most the first of them
    creates a panel: on a panel that is revealed again, the handlers add
    up. *)
Theorem handlers_accumulate (host : Host)
  (calls : list (Application * DokployClient * list Container)) (s : LogsWebview) :
  let events := map (fun call => CallShowRuntimeLogs (fst (fst call)) (snd (fst call)) (snd call))
                  calls in
  registered (effects host events s) = List.length calls
  /\ created (effects host events s)
     = (if hasPanel s then 0 else Nat.min 1 (List.length calls)).
Proof.
  cbv zeta. revert s.
  induction calls as [|[[a c] found] calls IH]; intros s.
  - cbn. now destruct (hasPanel s).
  - cbn [map effects fst snd handle List.length].
    destruct (showRuntimeLogs_effects host a c found s) as (Hr & Hc & Hp).
    cbv zeta in Hr, Hc, Hp.
    destruct (IH (fst (showRuntimeLogs host a c found s))) as [IHr IHc].
    rewrite registered_app, created_app, Hr, Hc, IHr, IHc, Hp.
    destruct (hasPanel s); split; lia.
Qed.

(** A refresh that finds no container shows the empty state and leaves
    the rest as it is: the socket stays open, the configuration keeps the old
    containers and the buffer its text.  The next chunk of the stream puts
    the log view of the old container back in place of the empty state. *)
Theorem empty_refresh_keeps_stream (host : Host) (s : LogsWebview) (cfg : RuntimeLogsConfig)
  (p : WebviewPanel) (data : Buffer) :
  runtimeConfig s = Some cfg ->
  panel s = Some p ->
  let s1 := fst (onRefreshed host [] s) in
  shown s1 = Some (EmptyStatePage (appTitle (app cfg)))
  /\ ws s1 = ws s /\ runtimeConfig s1 = Some cfg /\ logBuffer s1 = logBuffer s
  /\ closed (snd (onRefreshed host [] s)) = 0
  /\ shown (fst (onMessage host true data s1))
     = Some (RuntimePage
               (join [LF] (runtimeLines host (showTimestamp s) (logBuffer s ++ toString data)))
               (containers cfg) (selectedContainerId cfg) (tail cfg)).
Proof.
  intros Hcfg Hp.
  destruct s as [pn sock buffer ts rc rt]. cbn in Hcfg, Hp. subst pn rc.
  cbv zeta. unfold onRefreshed, reading. cbn [runtimeConfig].
  repeat split.
Qed.

Lemma empty_refresh_keeps_stream_witness :
  let s1 := fst (onRefreshed utcHost [] demoRuntime) in
  shown s1 = Some (EmptyStatePage (lit "api"))
  /\ ws s1 = ws demoRuntime /\ runtimeConfig s1 = runtimeConfig demoRuntime
  /\ logBuffer s1 = []
  /\ closed (snd (onRefreshed utcHost [] demoRuntime)) = 0
  /\ shown (fst (onMessage utcHost true (bytes "up") s1))
     = Some (RuntimePage (join [LF] (runtimeLines utcHost false (lit "up")))
               [demoContainer] (lit "c1") (Int 100)).
Proof.
  exact (empty_refresh_keeps_stream utcHost demoRuntime
           {| app := demoApp; client := demoClient; containers := [demoContainer];
              selectedContainerId := lit "c1"; tail := Int 100 |}
           (Build_WebviewPanel (lit "Runtime Logs: api")
              (RuntimePage (join [LF] (runtimeLines utcHost false (lit "Connecting to log stream...")))
                 [demoContainer] (lit "c1") (Int 100)))
           (bytes "up") eq_refl eq_refl).
Defined.

End SessionFacts.

(* ================================================================== *)
(** * Facts about the git service *)

Module GitFacts.

Import RegexFacts Pattern GitService.

(** ** The loops *)

(** A greedy loop over a run, before a continuation that fails wherever a
    character of the run is next: the whole run is read. *)
Lemma loop_exact (ok : char -> bool) (run : str) : forall fuel b s c k,
  forallb ok run = true ->
  match s with [] => True | x :: _ => ok x = false end ->
  (List.length (run ++ s) < fuel)%nat ->
  (forall b' y t, ok y = true -> k (Pos b' (y :: t)) c = None) ->
  loop (one ok) fuel (Pos b (run ++ s)) c k = k (Pos (prevOf b run) s) c.
Proof.
  induction run as [|x run IH]; intros fuel b s c k Hrun Hs Hfuel Hk.
  - cbn [List.app prevOf]. destruct fuel as [|f]; [reflexivity|]. cbn [loop].
    destruct s as [|y s]; [reflexivity|].
    rewrite one_cons, Hs. reflexivity.
  - cbn [forallb] in Hrun. apply andb_prop in Hrun as [Hx Hr].
    destruct fuel as [|f]; [cbn in Hfuel; lia|].
    cbn [List.app loop prevOf]. rewrite one_cons, Hx. cbn [rest].
    replace (Nat.ltb _ _) with true by (symmetry; apply Nat.ltb_lt; cbn; lia).
    rewrite (IH f (Some x) s c k Hr Hs) by (cbn in Hfuel; try lia; exact Hk).
    destruct (k (Pos (prevOf (Some x) run) s) c) eqn:E; [reflexivity|].
    apply Hk, Hx.
Qed.

(** One or more characters other than [x], before a continuation that
    wants [x] next. *)
Lemma many1_not (x : char) (run s : str) b c (k : cont) :
  truthyStr run = true ->
  forallb (fun y => negb (N.eqb x y)) run = true ->
  match s with [] => True | y :: _ => y = x end ->
  (forall b' y t, N.eqb x y = false -> k (Pos b' (y :: t)) c = None) ->
  mx (Many1 (NotChr x)) (Pos b (run ++ s)) c k = k (Pos (prevOf b run) s) c.
Proof.
  intros Hne Hrun Hs Hk.
  destruct run as [|y run]; [discriminate Hne|].
  cbn [forallb] in Hrun. apply andb_prop in Hrun as [Hy Hrun].
  cbn [mx]. cbn [List.app]. rewrite one_cons, Hy. cbn [rest].
  change (loop (mx (NotChr x))) with (loop (one (fun y => negb (N.eqb x y)))).
  rewrite loop_exact.
  - reflexivity.
  - exact Hrun.
  - destruct s as [|z s]; [exact I|]. subst z. now rewrite N.eqb_refl.
  - lia.
  - intros b' z t Hz. apply Hk. now apply negb_true_iff in Hz.
Qed.

Lemma group_many1_not (x : char) (run s : str) (i : nat) b c (k : cont) :
  truthyStr run = true ->
  forallb (fun y => negb (N.eqb x y)) run = true ->
  match s with [] => True | y :: _ => y = x end ->
  (forall b' y t c', N.eqb x y = false -> k (Pos b' (y :: t)) c' = None) ->
  mx (Group i (Many1 (NotChr x))) (Pos b (run ++ s)) c k
  = k (Pos (prevOf b run) s) ((i, run) :: c).
Proof.
  intros Hne Hrun Hs Hk.
  change (mx (Group i ?a) ?p ?c ?k)
    with (mx a p c (fun p' c' =>
            k p' ((i, firstn (List.length (rest p) - List.length (rest p')) (rest p)) :: c'))).
  rewrite many1_not; try assumption.
  - cbn [rest]. now rewrite firstn_app_length.
  - intros b' y t Hy. apply Hk, Hy.
Qed.

(** A lazy loop stops at the first position where the continuation
    succeeds. *)
Lemma lazyLoop_first (ok : char -> bool) (run : str) : forall fuel b s c k r,
  forallb ok run = true ->
  (List.length (run ++ s) < fuel)%nat ->
  (forall b' pre post, run = pre ++ post -> post <> [] -> k (Pos b' (post ++ s)) c = None) ->
  k (Pos (prevOf b run) s) c = Some r ->
  lazyLoop (one ok) fuel (Pos b (run ++ s)) c k = Some r.
Proof.
  induction run as [|x run IH]; intros fuel b s c k r Hrun Hfuel Hfail Hk.
  - cbn [List.app prevOf] in *. destruct fuel as [|f]; cbn [lazyLoop]; now rewrite Hk.
  - cbn [forallb] in Hrun. apply andb_prop in Hrun as [Hx Hr].
    destruct fuel as [|f]; [cbn in Hfuel; lia|].
    cbn [List.app lazyLoop].
    pose proof (Hfail b [] (x :: run) eq_refl ltac:(discriminate)) as H0.
    cbn [List.app] in H0. rewrite H0.
    rewrite one_cons, Hx. cbn [rest].
    replace (Nat.ltb _ _) with true by (symmetry; apply Nat.ltb_lt; cbn; lia).
    apply IH; try assumption.
    + cbn in Hfuel. lia.
    + intros b' pre post E Hpost. apply (Hfail b' (x :: pre) post); [now rewrite E | exact Hpost].
Qed.

(** One or more characters, as few as possible. *)
Lemma few1_any (run s : str) (i : nat) b c (k : cont) r :
  truthyStr run = true ->
  noLineTerminator run = true ->
  (forall b' c' pre post, run = pre ++ post -> pre <> [] -> post <> [] ->
                          k (Pos b' (post ++ s)) c' = None) ->
  k (Pos (prevOf b run) s) ((i, run) :: c) = Some r ->
  mx (Group i (Few1 (Re Any))) (Pos b (run ++ s)) c k = Some r.
Proof.
  intros Hne Hrun Hfail Hk.
  destruct run as [|y run]; [discriminate Hne|].
  unfold noLineTerminator in Hrun. cbn [forallb] in Hrun.
  apply andb_prop in Hrun as [Hy Hrun].
  cbn [mx m]. cbn [List.app]. rewrite one_cons, Hy. cbn [rest].
  change (lazyLoop (mx (Re Any))) with (lazyLoop (one (fun x => negb (isLineTerminator x)))).
  apply lazyLoop_first.
  - exact Hrun.
  - lia.
  - intros b' pre post E Hpost. cbn [rest].
    apply (Hfail _ _ (y :: pre) post); [now rewrite E | discriminate | exact Hpost].
  - cbn [rest prevOf] in *.
    change (y :: run ++ s) with ((y :: run) ++ s).
    now rewrite firstn_app_length.
Qed.

(** ** The end of both patterns: an optional .git and the end of the input *)

Definition ending : rx := Thens [Maybe (Re (Str ".git")); Re Eol].

Definition final : cont := fun _ c => Some c.

Lemma stripPrefix_some (l s r : str) : stripPrefix l s = Some r -> s = l ++ r.
Proof.
  revert s. induction l as [|x l IH]; intros s H.
  - cbn in H. now injection H as <-.
  - destruct s as [|y s]; [discriminate H|]. cbn in H.
    destruct (N.eqb_spec x y) as [<-|]; [|discriminate H].
    cbn. f_equal. now apply IH.
Qed.

Lemma stripPrefix_app (l r : str) : stripPrefix l (l ++ r) = Some r.
Proof. induction l as [|x l IH]; cbn; [reflexivity|]. now rewrite N.eqb_refl. Qed.

Lemma sameText_true (a b : str) : sameText a b = true <-> a = b.
Proof. unfold sameText. destruct (list_eq_dec N.eq_dec a b); split; congruence. Qed.

Lemma sameText_refl (a : str) : sameText a a = true.
Proof. now apply sameText_true. Qed.

Lemma ending_spec (s : str) b c :
  mx ending (Pos b s) c final
  = if sameText s [] || sameText s (lit ".git") then Some c else None.
Proof.
  unfold ending, Thens. cbn [fold_right mx]. unfold Str. rewrite m_literal.
  destruct (stripPrefix (lit ".git") s) as [r|] eqn:E.
  - apply stripPrefix_some in E. subst s. cbn [rest].
    replace (Nat.ltb _ _) with true by (symmetry; apply Nat.ltb_lt; rewrite length_app; cbn; lia).
    destruct r as [|x r]; [reflexivity|].
    cbn [m rest].
    destruct (sameText _ []) eqn:E1; [apply sameText_true in E1; discriminate E1|].
    destruct (sameText _ (lit ".git")) eqn:E2; [|reflexivity].
    apply sameText_true in E2. discriminate E2.
  - cbn [m rest]. destruct s as [|x s]; [reflexivity|].
    destruct (sameText _ []) eqn:E1; [apply sameText_true in E1; discriminate E1|].
    destruct (sameText _ (lit ".git")) eqn:E2; [|reflexivity].
    apply sameText_true in E2. rewrite E2 in E. discriminate E.
Qed.

(** [s] ends in [l]. *)
Definition endsWith (l s : str) : bool :=
  Nat.leb (List.length l) (List.length s)
  && sameText (skipn (List.length s - List.length l) s) l.

(** [r] ends in .git after at least one more character. *)
Definition endsInGit (r : str) : bool :=
  Nat.ltb 4 (List.length r) && endsWith (lit ".git") r.

(** The text after the owner: the name of the repository and, if [dotGit],
    the suffix .git. *)
Definition repoText (r : str) (dotGit : bool) : str :=
  r ++ (if dotGit then lit ".git" else []).

(** The name of a repository as a remote gives it: not empty, on one line,
    and when no suffix follows not itself ending in .git. *)
Definition repoName (r : str) (dotGit : bool) : bool :=
  truthyStr r && noLineTerminator r && (dotGit || negb (endsInGit r)).

Lemma endsWith_app (l t : str) : endsWith l (t ++ l) = true.
Proof.
  unfold endsWith. rewrite length_app. apply andb_true_intro. split.
  - apply Nat.leb_le. lia.
  - apply sameText_true.
    replace (List.length t + List.length l - List.length l)%nat
      with (List.length t + 0)%nat by lia.
    now rewrite skipn_app, Nat.add_0_r, skipn_all, Nat.sub_diag.
Qed.

Lemma endsWith_inv (l s : str) : endsWith l s = true -> exists t, s = t ++ l.
Proof.
  unfold endsWith. intros H. apply andb_prop in H as [_ H].
  apply sameText_true in H.
  exists (firstn (List.length s - List.length l) s).
  pose proof (firstn_skipn (List.length s - List.length l) s) as E.
  rewrite H in E. now symmetry.
Qed.

Lemma endsInGit_app (pre : str) : pre <> [] -> endsInGit (pre ++ lit ".git") = true.
Proof.
  intros H. unfold endsInGit. rewrite endsWith_app, andb_true_r.
  apply Nat.ltb_lt. rewrite length_app. destruct pre; [congruence | cbn; lia].
Qed.

(** The repository name is captured, and the suffix is not. *)
Lemma repo_captured (r : str) (dotGit : bool) (i : nat) b c :
  repoName r dotGit = true ->
  mx (Then (Group i (Few1 (Re Any))) ending) (Pos b (repoText r dotGit)) c final
  = Some ((i, r) :: c).
Proof.
  unfold repoName, repoText. intros H.
  apply andb_prop in H as [H Hgit]. apply andb_prop in H as [Hne Hline].
  change (mx (Then ?a ?e) ?p ?c ?k) with (mx a p c (fun p' c' => mx e p' c' k)).
  apply few1_any; try assumption.
  - intros b' c' pre post E Hpre Hpost. cbv beta. rewrite ending_spec.
    destruct (sameText _ []) eqn:E1.
    { apply sameText_true in E1. destruct post; [congruence | discriminate E1]. }
    destruct (sameText _ (lit ".git")) eqn:E2; [|reflexivity].
    apply sameText_true in E2. exfalso.
    destruct dotGit.
    + apply (f_equal (@List.length N)) in E2. rewrite length_app in E2.
      destruct post; [congruence|]. cbn in E2. lia.
    + rewrite app_nil_r in E2. subst post r.
      rewrite (endsInGit_app pre Hpre) in Hgit. discriminate Hgit.
  - cbv beta. rewrite ending_spec.
    destruct dotGit; [|reflexivity].
    rewrite sameText_refl, orb_true_r. reflexivity.
Qed.

(** ** The two forms of a remote *)

(** [s] is not empty and holds no [x]. *)
Definition avoids (x : char) (s : str) : bool :=
  truthyStr s && forallb (fun y => negb (N.eqb x y)) s.

Definition sshRemote (h o r : str) (dotGit : bool) : str :=
  lit "git@" ++ h ++ lit ":" ++ o ++ lit "/" ++ repoText r dotGit.

Definition httpsRemote (secure : bool) (h o r : str) (dotGit : bool) : str :=
  lit "http" ++ (if secure then lit "s" else []) ++ lit "://"
  ++ h ++ lit "/" ++ o ++ lit "/" ++ repoText r dotGit.

(** What both patterns end with: the owner, a slash, the repository. *)
Definition ownerRepo (i j : nat) : rx :=
  Thens [Group i (Many1 (NotChr (chr "/"))); Re (Chr (chr "/"));
         Group j (Few1 (Re Any)); Maybe (Re (Str ".git")); Re Eol].

Lemma mx_then (a e : rx) p c k :
  mx (Then a e) p c k = mx a p c (fun p' c' => mx e p' c' k).
Proof. reflexivity. Qed.

Lemma chr_other (x y : char) (t : str) (e : rx) b c k :
  N.eqb x y = false -> mx (Then (Re (Chr x)) e) (Pos b (y :: t)) c k = None.
Proof. intros H. cbn [mx m]. rewrite one_cons. unfold chrMatch. now rewrite H. Qed.

Lemma chr_same (x : char) (t : str) (e : rx) b c k :
  mx (Then (Re (Chr x)) e) (Pos b (x :: t)) c k = mx e (Pos (Some x) t) c k.
Proof. cbn [mx m]. rewrite one_cons. unfold chrMatch. now rewrite N.eqb_refl. Qed.

Lemma literal_then (l : string) (e : rx) (s : str) b c k :
  mx (Then (Re (Str l)) e) (Pos b s) c k
  = match stripPrefix (lit l) s with
    | Some r => mx e (Pos (prevOf b (firstn (List.length (lit l)) s)) r) c k
    | None => None
    end.
Proof. rewrite mx_then. cbn [mx]. unfold Str. now rewrite m_literal. Qed.

Lemma ownerRepo_spec (i j : nat) (o r : str) (dotGit : bool) b c :
  avoids (chr "/") o = true ->
  repoName r dotGit = true ->
  mx (ownerRepo i j) (Pos b (o ++ lit "/" ++ repoText r dotGit)) c final
  = Some ((j, r) :: (i, o) :: c).
Proof.
  unfold avoids. intros Ho Hr. apply andb_prop in Ho as [Hne Ho].
  unfold ownerRepo, Thens. cbn [fold_right]. rewrite mx_then.
  rewrite group_many1_not; try assumption.
  - change (lit "/" ++ ?t) with (chr "/" :: t). rewrite chr_same.
    apply (repo_captured r dotGit j _ _ Hr).
  - reflexivity.
  - intros b' y t c' Hy. apply chr_other, Hy.
Qed.

(** A pattern that starts with ^ matches at the start of the input or
    nowhere. *)
Lemma search_anchored (r : rx) (s : str) :
  exec (Then (Re Bol) r) s = mx r (Pos None s) [] final.
Proof.
  assert (H : forall s x, search (Then (Re Bol) r) (Some x) s = None).
  { clear s. induction s as [|y s IH]; intros x; cbn [search mx m before]; auto. }
  unfold exec. destruct s as [|x s]; cbn [search mx m before]; fold final.
  - now destruct (mx r _ _ _).
  - destruct (mx r _ _ _); [reflexivity | apply H].
Qed.

(** A remote of the form git@host:owner/repository. *)
Lemma ssh_remote_parsed (h o r : str) (dotGit : bool) :
  avoids (chr ":") h = true ->
  avoids (chr "/") o = true ->
  repoName r dotGit = true ->
  parseRemoteUrl (sshRemote h o r dotGit)
  = Some {| owner := o; repo := r; url := sshRemote h o r dotGit |}.
Proof.
  intros Hh Ho Hr. unfold parseRemoteUrl.
  assert (E : exec sshPattern (sshRemote h o r dotGit) = Some [(3%nat, r); (2%nat, o); (1%nat, h)]).
  { unfold sshPattern, Thens. cbn [fold_right]. rewrite search_anchored.
    rewrite literal_then. unfold sshRemote. rewrite stripPrefix_app.
    unfold avoids in Hh. apply andb_prop in Hh as [Hne Hh].
    rewrite mx_then, group_many1_not; try assumption.
    - change (lit ":" ++ ?t) with (chr ":" :: t). rewrite chr_same.
      apply (ownerRepo_spec 2 3 o r dotGit _ _ Ho Hr).
    - reflexivity.
    - intros b' y t c' Hy. apply chr_other, Hy. }
  rewrite E. reflexivity.
Qed.

(** A remote of the form http://host/owner/repository or
    https://host/owner/repository. *)
Lemma https_remote_parsed (secure : bool) (h o r : str) (dotGit : bool) :
  avoids (chr "/") h = true ->
  avoids (chr "/") o = true ->
  repoName r dotGit = true ->
  parseRemoteUrl (httpsRemote secure h o r dotGit)
  = Some {| owner := o; repo := r; url := httpsRemote secure h o r dotGit |}.
Proof.
  intros Hh Ho Hr. unfold parseRemoteUrl.
  assert (E1 : exec sshPattern (httpsRemote secure h o r dotGit) = None).
  { unfold sshPattern, Thens. cbn [fold_right]. rewrite search_anchored.
    now rewrite literal_then. }
  assert (E2 : exec httpsPattern (httpsRemote secure h o r dotGit)
               = Some [(2%nat, r); (1%nat, o)]).
  { unfold httpsPattern, Thens. cbn [fold_right]. rewrite search_anchored.
    rewrite literal_then. unfold httpsRemote. rewrite stripPrefix_app.
    unfold avoids in Hh. apply andb_prop in Hh as [Hne Hh].
    assert (Hrest : forall b,
      mx (Then (Re (Str "://"))
            (Then (Many1 (NotChr (chr "/"))) (Then (Re (Chr (chr "/"))) (ownerRepo 1 2))))
        (Pos b (lit "://" ++ h ++ lit "/" ++ o ++ lit "/" ++ repoText r dotGit)) [] final
      = Some [(2%nat, r); (1%nat, o)]).
    { intros b. rewrite literal_then, stripPrefix_app.
      rewrite mx_then, many1_not; try assumption.
      - change (lit "/" ++ ?t) with (chr "/" :: t). rewrite chr_same.
        apply (ownerRepo_spec 1 2 o r dotGit _ _ Ho Hr).
      - reflexivity.
      - intros b' y t Hy. apply chr_other, Hy. }
    unfold ownerRepo, Thens in Hrest. cbn [fold_right] in Hrest.
    rewrite mx_then.
    change (mx (Re (Opt ?a)) ?p ?c ?k)
      with (match m false a p c (fun p' c' =>
                    if Nat.ltb (List.length (rest p')) (List.length (rest p))
                    then k p' c' else None) with
            | Some r => Some r
            | None => k p c
            end).
    cbn [m]. destruct secure.
    - change (lit "s" ++ ?t) with (chr "s" :: t). rewrite one_cons.
      unfold chrMatch. rewrite N.eqb_refl. cbn [rest].
      replace (Nat.ltb _ _) with true by (symmetry; apply Nat.ltb_lt; cbn; lia).
      now rewrite (Hrest (Some (chr "s"))).
    - change (lit "://") with (chr ":" :: lit "//"). cbn [List.app].
      rewrite one_cons. unfold chrMatch.
      change (N.eqb (chr "s") (chr ":")) with false. cbv iota.
      apply Hrest. }
  rewrite E1, E2. reflexivity.
Qed.

Inductive Form : Type := Ssh | Http (secure : bool).

Definition remoteText (form : Form) (h o r : str) (dotGit : bool) : str :=
  match form with
  | Ssh => sshRemote h o r dotGit
  | Http secure => httpsRemote secure h o r dotGit
  end.

Definition hostName (form : Form) (h : str) : bool :=
  match form with
  | Ssh => avoids (chr ":") h
  | Http _ => avoids (chr "/") h
  end.

(** A remote of the form git@host:owner/repository,
    http://host/owner/repository or https://host/owner/repository, with or
    without the suffix .git, is parsed, and all forms give the same owner and
    the same repository: the owner is the text up to the first slash after
    the host, the repository all the rest -- further slashes included --
    without the suffix. *)
Theorem parseRemoteUrl_forms (form : Form) (h o r : str) (dotGit : bool) :
  hostName form h = true ->
  avoids (chr "/") o = true ->
  repoName r dotGit = true ->
  parseRemoteUrl (remoteText form h o r dotGit)
  = Some {| owner := o; repo := r; url := remoteText form h o r dotGit |}.
Proof.
  intros Hh Ho Hr. destruct form as [|secure]; cbn [remoteText hostName] in *.
  - now apply ssh_remote_parsed.
  - now apply https_remote_parsed.
Qed.

Lemma parseRemoteUrl_forms_witness :
  parseRemoteUrl (lit "https://github.com/blackmann/dokploy-vscode.git")
  = Some {| owner := lit "blackmann"; repo := lit "dokploy-vscode";
            url := lit "https://github.com/blackmann/dokploy-vscode.git" |}.
Proof.
  exact (parseRemoteUrl_forms (Http true) (lit "github.com") (lit "blackmann")
           (lit "dokploy-vscode") true eq_refl eq_refl eq_refl).
Defined.

(** A remote that starts neither with git@ nor with http is not
    parsed, whatever follows: a remote of the form ssh://git@host/... has no
    repository. *)
Theorem parseRemoteUrl_other (url : str) :
  stripPrefix (lit "git@") url = None ->
  stripPrefix (lit "http") url = None ->
  parseRemoteUrl url = None.
Proof.
  intros Hssh Hhttp. unfold parseRemoteUrl.
  assert (E1 : exec sshPattern url = None).
  { unfold sshPattern, Thens. cbn [fold_right]. rewrite search_anchored.
    now rewrite literal_then, Hssh. }
  assert (E2 : exec httpsPattern url = None).
  { unfold httpsPattern, Thens. cbn [fold_right]. rewrite search_anchored.
    now rewrite literal_then, Hhttp. }
  now rewrite E1, E2.
Qed.

Lemma parseRemoteUrl_other_witness :
  parseRemoteUrl (lit "ssh://git@github.com/blackmann/dokploy-vscode.git") = None.
Proof.
  exact (parseRemoteUrl_other (lit "ssh://git@github.com/blackmann/dokploy-vscode.git")
           eq_refl eq_refl).
Defined.

(** ** A suffix taken off by [replace] *)

(** "l$" for a literal text [l]. *)
Definition suffixRe (l : str) : re := Seq (Seqs (map Chr l)) Eol.

Lemma suffix_match (l s : str) b (k : cont) :
  m false (suffixRe l) (Pos b s) [] k
  = if sameText s l then k (Pos (prevOf b (firstn (List.length l) s)) []) [] else None.
Proof.
  unfold suffixRe. cbn [m]. rewrite m_literal.
  destruct (stripPrefix l s) as [r0|] eqn:E.
  - apply stripPrefix_some in E. subst s. destruct r0 as [|x r0].
    + rewrite app_nil_r, sameText_refl. reflexivity.
    + cbn [rest]. destruct (sameText _ l) eqn:E1; [|reflexivity].
      apply sameText_true in E1. apply (f_equal (@List.length N)) in E1.
      rewrite length_app in E1. cbn in E1. lia.
  - destruct (sameText s l) eqn:E1; [|reflexivity].
    apply sameText_true in E1. subst s.
    pose proof (stripPrefix_app l []) as H. rewrite app_nil_r in H. congruence.
Qed.

(** A text that ends in [l] loses it, or has [rep] in its place. *)
Lemma replace_suffix (l rep t : str) :
  l <> [] -> replaceFirst (suffixRe l) rep (t ++ l) = t ++ rep.
Proof.
  intros Hl. unfold replaceFirst. generalize (@None char).
  induction t as [|y t IH]; intros prev.
  - destruct l as [|x l]; [congruence|]. cbn [List.app replaceFrom].
    rewrite suffix_match, sameText_refl. cbn. apply app_nil_r.
  - cbn [List.app replaceFrom]. rewrite suffix_match.
    destruct (sameText _ l) eqn:E.
    + apply sameText_true in E. apply (f_equal (@List.length N)) in E.
      cbn in E. rewrite length_app in E. lia.
    + f_equal. apply IH.
Qed.

(** A text that does not end in [l] is left as it is. *)
Lemma replace_other (l rep s : str) :
  l <> [] -> endsWith l s = false -> replaceFirst (suffixRe l) rep s = s.
Proof.
  intros Hl. unfold replaceFirst. generalize (@None char).
  induction s as [|y s IH]; intros prev H.
  - cbn [replaceFrom]. rewrite suffix_match.
    destruct (sameText [] l) eqn:E; [|reflexivity].
    apply sameText_true in E. congruence.
  - cbn [replaceFrom]. rewrite suffix_match.
    destruct (sameText (y :: s) l) eqn:E.
    + apply sameText_true in E. rewrite <- E in H.
      pose proof (endsWith_app (y :: s) []) as H'. cbn [List.app] in H'. congruence.
    + f_equal. apply IH.
      destruct (endsWith l s) eqn:E'; [|reflexivity].
      apply endsWith_inv in E' as [t ->].
      pose proof (endsWith_app l (y :: t)) as H'. cbn [List.app] in H'. congruence.
Qed.

(** ** A repository and its own remote *)

(** An application whose owner and repository are those of the
    remote of the workspace matches it, whichever form the remote has, with
    or without the suffix .git on the remote and on the repository of the
    application, and whatever lower-casing does. *)
Theorem own_remote_matches (toLowerCase : str -> str) (form : Form) (h o r : str)
  (dotGit gitApp : bool) :
  hostName form h = true ->
  avoids (chr "/") o = true ->
  truthyStr r && noLineTerminator r && negb (endsWith (lit ".git") r) = true ->
  option_map (matchesRepository toLowerCase (Some (repoText r gitApp)) (Some o))
    (parseRemoteUrl (remoteText form h o r dotGit))
  = Some true.
Proof.
  intros Hh Ho Hr.
  apply andb_prop in Hr as [Hr Hgit]. apply andb_prop in Hr as [Hne Hline].
  apply negb_true_iff in Hgit.
  assert (Hname : repoName r dotGit = true).
  { unfold repoName, endsInGit. rewrite Hne, Hline, Hgit, andb_false_r.
    now destruct dotGit. }
  assert (Hparse : parseRemoteUrl (remoteText form h o r dotGit)
                   = Some {| owner := o; repo := r; url := remoteText form h o r dotGit |}).
  { destruct form as [|secure]; cbn [remoteText hostName] in *.
    - now apply ssh_remote_parsed.
    - now apply https_remote_parsed. }
  rewrite Hparse. cbn [option_map]. f_equal.
  unfold matchesRepository.
  assert (Ho' : truthyStr o = true) by (unfold avoids in Ho; now apply andb_prop in Ho as [Ho _]).
  assert (Hr' : truthyStr (repoText r gitApp) = true) by (destruct r; [discriminate Hne | reflexivity]).
  rewrite Ho', Hr'. cbn [negb orb repo owner].
  assert (E : replaceFirst gitSuffix [] (repoText r gitApp) = r).
  { change gitSuffix with (suffixRe (lit ".git")). unfold repoText. destruct gitApp.
    - rewrite replace_suffix by discriminate. apply app_nil_r.
    - rewrite app_nil_r. apply replace_other; [discriminate | exact Hgit]. }
  rewrite E. unfold sameText.
  destruct (list_eq_dec _ _ _); [|congruence].
  destruct (list_eq_dec _ _ _); [reflexivity | congruence].
Qed.

Lemma own_remote_matches_witness :
  option_map (matchesRepository JS.toLowerCase (Some (lit "dokploy-vscode")) (Some (lit "blackmann")))
    (parseRemoteUrl (lit "git@github.com:blackmann/dokploy-vscode.git"))
  = Some true.
Proof.
  exact (own_remote_matches JS.toLowerCase Ssh (lit "github.com") (lit "blackmann")
           (lit "dokploy-vscode") true false eq_refl eq_refl eq_refl).
Defined.

End GitFacts.

(* ================================================================== *)
(** * Facts about the deployments provider *)

Module DeploymentsFacts.

Import Deployments.

Section Matched.

Variable toLowerCase : str -> str.
Variable thisRepoInfo : GitService.RepositoryInfo.

(** The test of the innermost loop. *)
Definition matches (app : Application) : bool :=
  GitService.matchesRepository toLowerCase (repository app) (owner app) thisRepoInfo.

(** What one environment adds to the result. *)
Definition matchedIn (env : Environment) : list MatchedEnvironment :=
  match filter matches (applications env) with
  | [] => []
  | apps => [{| environment := env; matchedApplications := apps |}]
  end.

Lemma push_filter {A : Type} (test : A -> bool) (l : list A) : forall acc,
  fold_left (fun acc x => if test x then acc ++ [x] else acc) l acc = acc ++ filter test l.
Proof.
  induction l as [|x l IH]; intros acc; cbn [fold_left filter].
  - now rewrite app_nil_r.
  - rewrite IH. destruct (test x); [|reflexivity].
    now rewrite <- app_assoc.
Qed.

Lemma push_flat_map {A B : Type} (f : A -> list B) (l : list A) : forall acc,
  fold_left (fun acc x => acc ++ f x) l acc = acc ++ flat_map f l.
Proof.
  induction l as [|x l IH]; intros acc; cbn [fold_left flat_map].
  - now rewrite app_nil_r.
  - rewrite IH. now rewrite <- app_assoc.
Qed.

Lemma fold_left_ext {A B : Type} (f g : A -> B -> A) (l : list B) :
  (forall a b, f a b = g a b) -> forall a, fold_left f l a = fold_left g l a.
Proof.
  intros H. induction l as [|x l IH]; intros a; cbn [fold_left]; [reflexivity|].
  now rewrite H, IH.
Qed.

(** The three loops as one comprehension. *)
Lemma findMatchingEnvironments_flat (projects : list Project) :
  findMatchingEnvironments toLowerCase (Some thisRepoInfo) projects
  = flat_map matchedIn (flat_map environments projects).
Proof.
  unfold findMatchingEnvironments.
  assert (Henv : forall envs acc,
    fold_left (fun matchedEnvs env =>
      let matchedApps :=
        fold_left (fun matchedApps app =>
          if GitService.matchesRepository toLowerCase (repository app) (owner app) thisRepoInfo
          then matchedApps ++ [app] else matchedApps) (applications env) [] in
      if Nat.ltb 0 (List.length matchedApps)
      then matchedEnvs ++ [{| environment := env; matchedApplications := matchedApps |}]
      else matchedEnvs) envs acc
    = acc ++ flat_map matchedIn envs).
  { intros envs acc. rewrite <- push_flat_map. apply fold_left_ext.
    intros a env. cbv zeta. fold matches. rewrite (push_filter matches). cbn [List.app].
    unfold matchedIn. destruct (filter matches (applications env)); cbn.
    - now rewrite app_nil_r.
    - reflexivity. }
  rewrite (fold_left_ext _ (fun acc project => acc ++ flat_map matchedIn (environments project))).
  - rewrite push_flat_map. cbn [List.app].
    symmetry. apply RendererFacts.flat_map_flat_map.
  - intros a project. apply Henv.
Qed.

(** The applications the provider hands out are the applications of
    the server that match the repository of the workspace: all of them, each
    as often as the server lists it, in the order of the projects, their
    environments and their applications.  Without repository there are
    none. *)
Theorem matched_applications (projects : list Project) :
  getMatchedApplications (findMatchingEnvironments toLowerCase (Some thisRepoInfo) projects)
  = filter matches (flat_map applications (flat_map environments projects))
  /\ getMatchedApplications (findMatchingEnvironments toLowerCase None projects) = [].
Proof.
  split; [|reflexivity].
  rewrite findMatchingEnvironments_flat. unfold getMatchedApplications.
  generalize (flat_map environments projects) as envs.
  induction envs as [|env envs IH]; [reflexivity|].
  cbn [flat_map]. rewrite flat_map_app, filter_app, IH. f_equal.
  unfold matchedIn. destruct (filter matches (applications env)); cbn; [reflexivity|].
  now rewrite app_nil_r.
Qed.

(** Every environment the provider shows is an environment of the
    server, shown with its applications that match, of which there is at
    least one: the tree has no environment without application, and the
    description of an environment never counts zero. *)
Theorem matched_environments (projects : list Project) (matchedEnv : MatchedEnvironment) :
  In matchedEnv (findMatchingEnvironments toLowerCase (Some thisRepoInfo) projects) ->
  In (environment matchedEnv) (flat_map environments projects)
  /\ matchedApplications matchedEnv = filter matches (applications (environment matchedEnv))
  /\ matchedApplications matchedEnv <> []
  /\ description matchedEnv <> lit "0 app".
Proof.
  rewrite findMatchingEnvironments_flat. intros H.
  apply in_flat_map in H as (env & Henv & H).
  unfold matchedIn in H.
  destruct (filter matches (applications env)) as [|app apps] eqn:E; [destruct H|].
  destruct H as [<-|[]]. cbn [environment matchedApplications].
  repeat split; try assumption; try congruence.
  unfold description. cbn [matchedApplications List.length].
  destruct apps as [|app' apps]; [discriminate|].
  change (Nat.ltb 1 (S (List.length (app' :: apps)))) with true. cbv iota.
  change (lit "s") with [115%N].
  intros H. apply (f_equal (fun s => last s 0%N)) in H.
  rewrite app_assoc, last_last in H. discriminate H.
Qed.

End Matched.

Definition demoRepository : GitService.RepositoryInfo :=
  {| GitService.owner := lit "blackmann"; GitService.repo := lit "dokploy-vscode";
     GitService.url := lit "git@github.com:blackmann/dokploy-vscode.git" |}.

Definition demoApplication : Application :=
  {| applicationId := lit "a1"; name := lit "api";
     repository := Some (lit "dokploy-vscode.git"); owner := Some (lit "Blackmann") |}.

Definition demoEnvironment : Environment :=
  {| environmentId := lit "e1";
     applications := [demoApplication;
                      {| applicationId := lit "a2"; name := lit "docs";
                         repository := None; owner := None |}] |}.

Lemma matched_environments_witness :
  let matchedEnv :=
    {| environment := demoEnvironment; matchedApplications := [demoApplication] |} in
  In (environment matchedEnv)
    (flat_map environments [{| projectId := lit "p1"; environments := [demoEnvironment] |}])
  /\ matchedApplications matchedEnv
     = filter (matches JS.toLowerCase demoRepository) (applications (environment matchedEnv))
  /\ matchedApplications matchedEnv <> []
  /\ description matchedEnv <> lit "0 app".
Proof.
  exact (matched_environments JS.toLowerCase demoRepository
           [{| projectId := lit "p1"; environments := [demoEnvironment] |}]
           {| environment := demoEnvironment; matchedApplications := [demoApplication] |}
           (or_introl eq_refl)).
Defined.

(** The age of a deployment as [formatDate] words it.  Under a minute,
    and for a date in the future, it is -just now-; from then on it is a
    count of minutes from 1 to 59, of hours from 1 to 23, or of days from 1
    on: no count is zero, and neither 60 minutes nor 24 hours are written.
    An invalid date is worded NaNd ago. *)
Theorem formatDate_counts (now date : Z) :
  let age := (now - date)%Z in
  ((age < 60000)%Z -> formatDate now (Some date) = lit "just now")
  /\ ((60000 <= age < 3600000)%Z ->
      (1 <= age / 60000 <= 59)%Z
      /\ formatDate now (Some date) = intToString (age / 60000) ++ lit "m ago")
  /\ ((3600000 <= age < 86400000)%Z ->
      (1 <= age / 3600000 <= 23)%Z
      /\ formatDate now (Some date) = intToString (age / 3600000) ++ lit "h ago")
  /\ ((86400000 <= age)%Z ->
      (1 <= age / 86400000)%Z
      /\ formatDate now (Some date) = intToString (age / 86400000) ++ lit "d ago")
  /\ formatDate now None = lit "NaNd ago".
Proof.
  cbv zeta. set (age := (now - date)%Z).
  assert (Hdiv : forall b k limit, (0 < b)%Z -> (k * b = limit)%Z ->
                 (age / b <? k)%Z = (age <? limit)%Z).
  { intros b k limit Hb <-. destruct (Z.ltb_spec age (k * b)) as [H|H].
    - apply Z.ltb_lt. apply Z.div_lt_upper_bound; lia.
    - apply Z.ltb_ge. apply Z.div_le_lower_bound; lia. }
  unfold formatDate. cbv zeta. fold age. cbn [floorDiv lessThan numToString].
  rewrite (Hdiv 60000 1 60000)%Z, (Hdiv 60000 60 3600000)%Z,
    (Hdiv 3600000 24 86400000)%Z by lia.
  split; [|split; [|split; [|split]]].
  - intros H. now replace (age <? 60000)%Z with true by (symmetry; apply Z.ltb_lt; lia).
  - intros H. split.
    + assert (age / 60000 < 60)%Z by (apply Z.div_lt_upper_bound; lia).
      assert (1 <= age / 60000)%Z by (apply Z.div_le_lower_bound; lia). lia.
    + replace (age <? 60000)%Z with false by (symmetry; apply Z.ltb_ge; lia).
      now replace (age <? 3600000)%Z with true by (symmetry; apply Z.ltb_lt; lia).
  - intros H. split.
    + assert (age / 3600000 < 24)%Z by (apply Z.div_lt_upper_bound; lia).
      assert (1 <= age / 3600000)%Z by (apply Z.div_le_lower_bound; lia). lia.
    + replace (age <? 60000)%Z with false by (symmetry; apply Z.ltb_ge; lia).
      replace (age <? 3600000)%Z with false by (symmetry; apply Z.ltb_ge; lia).
      now replace (age <? 86400000)%Z with true by (symmetry; apply Z.ltb_lt; lia).
  - intros H. split.
    + apply Z.div_le_lower_bound; lia.
    + replace (age <? 60000)%Z with false by (symmetry; apply Z.ltb_ge; lia).
      replace (age <? 3600000)%Z with false by (symmetry; apply Z.ltb_ge; lia).
      now replace (age <? 86400000)%Z with false by (symmetry; apply Z.ltb_ge; lia).
  - reflexivity.
Qed.

End DeploymentsFacts.

(* ================================================================== *)
(** * Facts about the configuration service *)

Module ConfigFacts.

Import ConfigService.

Lemma sameText_spec (a b : str) : reflect (a = b) (sameText a b).
Proof. unfold sameText. destruct (list_eq_dec N.eq_dec a b); now constructor. Qed.

Lemma sameText_key (a b : str) :
  sameText (API_KEY_PREFIX ++ a) (API_KEY_PREFIX ++ b) = sameText a b.
Proof.
  destruct (sameText_spec a b) as [->|H].
  - now destruct (sameText_spec (API_KEY_PREFIX ++ b) (API_KEY_PREFIX ++ b)).
  - destruct (sameText_spec (API_KEY_PREFIX ++ a) (API_KEY_PREFIX ++ b)) as [E|_]; [|reflexivity].
    apply app_inv_head in E. contradiction.
Qed.

Lemma getApiKey_addServer (serverId : str) (server : DokployServerConfig) (apiKey : str)
  (st : Store) :
  getApiKey serverId (addServer server apiKey st)
  = (if sameText serverId (id server) then Some apiKey else getApiKey serverId st).
Proof.
  unfold addServer, getApiKey. cbv zeta.
  destruct (Nat.eqb _ 0); cbn [secrets store setActiveServerId updateServers];
    now rewrite sameText_key.
Qed.

(** The API keys are kept by server id, and the keys of different
    servers do not meet: adding a server sets its key, removing one deletes
    its key, an update with a key that is not empty sets it if the server is
    listed, and each leaves the keys of all other ids as they were.  An
    update of a server that is not listed changes nothing at all. *)
Theorem apiKey_by_id (serverId : str) (server : DokployServerConfig) (apiKey : str)
  (st : Store) :
  getApiKey serverId (addServer server apiKey st)
  = (if sameText serverId (id server) then Some apiKey else getApiKey serverId st)
  /\ getApiKey serverId (removeServer (id server) st)
     = (if sameText serverId (id server) then None else getApiKey serverId st)
  /\ getApiKey serverId (updateServer server (Some apiKey) st)
     = (if sameText serverId (id server) && truthyStr apiKey
           && existsb (fun s => sameText (id s) (id server)) (getServers st)
        then Some apiKey else getApiKey serverId st)
  /\ getApiKey serverId (updateServer server None st) = getApiKey serverId st
  /\ (existsb (fun s => sameText (id s) (id server)) (getServers st) = false ->
      updateServer server (Some apiKey) st = st).
Proof.
  assert (Hfind : forall l, match replaceAtId server l with
                            | Some _ => existsb (fun s => sameText (id s) (id server)) l = true
                            | None => existsb (fun s => sameText (id s) (id server)) l = false
                            end).
  { induction l as [|s l IH]; cbn [replaceAtId existsb]; [reflexivity|].
    destruct (sameText (id s) (id server)); [reflexivity|].
    cbn [orb]. now destruct (replaceAtId server l). }
  repeat split.
  - apply getApiKey_addServer.
  - unfold removeServer, getApiKey. cbv zeta.
    destruct (sameId _ _); cbn [secrets delete setActiveServerId updateServers];
      now rewrite sameText_key.
  - unfold updateServer, getApiKey. specialize (Hfind (getServers st)).
    destruct (replaceAtId server (getServers st)); rewrite Hfind.
    + rewrite andb_true_r. destruct (truthyStr apiKey);
        cbn [secrets store updateServers]; [now rewrite sameText_key, andb_true_r|].
      now rewrite andb_false_r.
    + now rewrite andb_false_r.
  - unfold updateServer, getApiKey.
    now destruct (replaceAtId server (getServers st)).
  - intros H. unfold updateServer. specialize (Hfind (getServers st)).
    destruct (replaceAtId server (getServers st)); [congruence | reflexivity].
Qed.

(** ** The active server *)

(** What is done to the store: the calls the commands of the extension
    make. *)
Inductive Op : Type :=
| Add (server : DokployServerConfig) (apiKey : str)
| Update (server : DokployServerConfig) (apiKey : option str)
| Remove (serverId : str)
| SetActive (serverId : str).

Definition apply (op : Op) (st : Store) : Store :=
  match op with
  | Add server apiKey => addServer server apiKey st
  | Update server apiKey => updateServer server apiKey st
  | Remove serverId => removeServer serverId st
  | SetActive serverId => setActiveServerId (Some serverId) st
  end.

Definition listed (serverId : str) (st : Store) : bool :=
  existsb (fun s => sameText (id s) serverId) (getServers st).

(** A server that is added has an id, as [crypto.randomUUID] gives it, and
    the server that is made active is one of the list, as an item of the
    tree is. *)
Definition allowed (op : Op) (st : Store) : bool :=
  match op with
  | Add server _ => truthyStr (id server)
  | SetActive serverId => listed serverId st
  | _ => true
  end.

Fixpoint allAllowed (ops : list Op) (st : Store) : bool :=
  match ops with
  | [] => true
  | op :: rest => allowed op st && allAllowed rest (apply op st)
  end.

Definition runOps (ops : list Op) (st : Store) : Store :=
  fold_left (fun st op => apply op st) ops st.

(** Every listed server has an id, and the active id is that of a listed
    server unless there is no server. *)
Definition Consistent (st : Store) : Prop :=
  forallb (fun s => truthyStr (id s)) (servers st) = true
  /\ match activeServerId st with
     | Some a => listed a st = true
     | None => servers st = []
     end.

Lemma replaceAtId_ids (server : DokployServerConfig) (l l' : list DokployServerConfig) :
  replaceAtId server l = Some l' -> map id l' = map id l.
Proof.
  revert l'. induction l as [|s l IH]; intros l' H; cbn [replaceAtId] in H; [discriminate H|].
  destruct (sameText_spec (id s) (id server)) as [E|_].
  - injection H as <-. cbn. now rewrite E.
  - destruct (replaceAtId server l) as [l0|]; [|discriminate H].
    injection H as <-. cbn. now rewrite (IH l0).
Qed.

Lemma existsb_ids (a : str) (l : list DokployServerConfig) :
  existsb (fun s => sameText (id s) a) l = existsb (fun i => sameText i a) (map id l).
Proof. induction l as [|s l IH]; cbn; [reflexivity|]. now rewrite IH. Qed.

Lemma forallb_ids (l : list DokployServerConfig) :
  forallb (fun s => truthyStr (id s)) l = forallb truthyStr (map id l).
Proof. induction l as [|s l IH]; cbn; [reflexivity|]. now rewrite IH. Qed.

Lemma consistent_apply (op : Op) (st : Store) :
  Consistent st -> allowed op st = true -> Consistent (apply op st).
Proof.
  intros [Hids Hact] Hop. destruct op as [server apiKey | server apiKey | serverId | serverId];
    cbn [apply allowed] in *.
  - (* addServer *)
    unfold addServer, getServers. cbv zeta.
    destruct (servers st) as [|s l] eqn:E; cbn [List.length Nat.eqb].
    + split; cbn; [now rewrite Hop|].
      unfold listed. cbn. now destruct (sameText_spec (id server) (id server)).
    + split; cbn [servers activeServerId store updateServers].
      * rewrite forallb_app, Hids. cbn. now rewrite Hop.
      * destruct (activeServerId st) as [a|]; [|discriminate Hact].
        unfold listed, getServers in *. cbn [servers store updateServers].
        rewrite E in Hact. rewrite existsb_app, Hact. reflexivity.
  - (* updateServer *)
    unfold updateServer, getServers.
    destruct (replaceAtId server (servers st)) as [l'|] eqn:E; [|now split].
    pose proof (replaceAtId_ids _ _ _ E) as Hsame.
    assert (Consistent (updateServers l' st)).
    { split; cbn [servers activeServerId updateServers].
      - now rewrite forallb_ids, Hsame, <- forallb_ids.
      - destruct (activeServerId st) as [a|].
        + unfold listed, getServers in *. cbn [servers updateServers].
          now rewrite existsb_ids, Hsame, <- existsb_ids.
        + rewrite Hact in E. discriminate E. }
    destruct apiKey as [key|]; [|assumption].
    destruct (truthyStr key); assumption.
  - (* removeServer *)
    unfold removeServer, getServers, getActiveServerId. cbv zeta.
    cbn [activeServerId delete updateServers].
    set (rest := filter (fun s => negb (sameText (id s) serverId)) (servers st)).
    assert (Hrest : forallb (fun s => truthyStr (id s)) rest = true).
    { apply forallb_forall. intros s Hs. apply filter_In in Hs as [Hs _].
      rewrite forallb_forall in Hids. now apply Hids. }
    destruct (activeServerId st) as [a|] eqn:Ea; cbn [sameId].
    + destruct (sameText_spec a serverId) as [->|Hne].
      * split; cbn [servers activeServerId setActiveServerId delete updateServers];
          [exact Hrest|].
        destruct rest as [|first rest']; [reflexivity|].
        unfold listed. cbn. now destruct (sameText_spec (id first) (id first)).
      * split; cbn [servers activeServerId delete updateServers]; [exact Hrest|].
        rewrite Ea. unfold listed, getServers in *. cbn [servers delete updateServers].
        apply existsb_exists in Hact as (s & Hs & Hsa).
        apply existsb_exists. exists s. split; [|exact Hsa].
        apply filter_In. split; [exact Hs|].
        destruct (sameText_spec (id s) a) as [E|]; [|discriminate Hsa].
        destruct (sameText_spec (id s) serverId) as [E'|]; [congruence | reflexivity].
    + split; cbn [servers activeServerId delete updateServers]; [exact Hrest|].
      rewrite Ea. unfold rest. now rewrite Hact.
  - (* setActiveServerId *)
    split; [exact Hids | exact Hop].
Qed.

Lemma consistent_run (ops : list Op) : forall st,
  Consistent st -> allAllowed ops st = true -> Consistent (runOps ops st).
Proof.
  induction ops as [|op ops IH]; intros st H Hops; [exact H|].
  cbn [allAllowed] in Hops. apply andb_prop in Hops as [Hop Hops].
  apply IH; [now apply consistent_apply | exact Hops].
Qed.

(** However servers are added, updated, removed and made active,
    there is an active server as long as there is a server: [getActiveServer]
    finds a listed server with the active id, and finds none only when the
    list is empty. *)
Theorem active_server_exists (ops : list Op) :
  allAllowed ops emptyStore = true ->
  match getActiveServer (runOps ops emptyStore) with
  | Some server =>
      In server (getServers (runOps ops emptyStore))
      /\ getActiveServerId (runOps ops emptyStore) = Some (id server)
  | None => getServers (runOps ops emptyStore) = []
  end.
Proof.
  intros Hops.
  assert (H : Consistent (runOps ops emptyStore)).
  { apply consistent_run; [|exact Hops]. split; reflexivity. }
  destruct H as [Hids Hact]. unfold getActiveServer, getActiveServerId, getServers.
  destruct (activeServerId (runOps ops emptyStore)) as [a|]; [|exact Hact].
  unfold listed, getServers in Hact.
  apply existsb_exists in Hact as (s & Hs & Hsa).
  assert (Ha : truthyStr a = true).
  { rewrite forallb_forall in Hids. specialize (Hids s Hs).
    destruct (sameText_spec (id s) a) as [<-|]; [exact Hids | discriminate Hsa]. }
  rewrite Ha. cbn [negb].
  destruct (find _ _) as [server|] eqn:E.
  - apply find_some in E as [Hin Hid]. split; [exact Hin|].
    destruct (sameText_spec (id server) a) as [->|]; [reflexivity | discriminate Hid].
  - exfalso. apply (find_none _ _ E) in Hs. congruence.
Qed.

Definition demoServer : DokployServerConfig :=
  {| id := lit "s1"; name := lit "home"; endpoint := lit "https://dokploy.example" |}.

Definition otherServer : DokployServerConfig :=
  {| id := lit "s2"; name := lit "work"; endpoint := lit "https://dokploy.work" |}.

Lemma active_server_exists_witness :
  let st := runOps [Add demoServer (lit "k1"); Add otherServer (lit "k2"); Remove (lit "s1")]
              emptyStore in
  In otherServer (getServers st) /\ getActiveServerId st = Some (lit "s2").
Proof.
  exact (active_server_exists
           [Add demoServer (lit "k1"); Add otherServer (lit "k2"); Remove (lit "s1")]
           eq_refl).
Defined.

(** ** Suffixes taken off by [replace] *)

Import GitFacts.

Lemma replace_suffix_spec (l s : str) :
  l <> [] ->
  Pattern.replaceFirst (suffixRe l) [] s
  = if endsWith l s then firstn (List.length s - List.length l) s else s.
Proof.
  intros Hl. destruct (endsWith l s) eqn:E.
  - apply endsWith_inv in E as [t ->].
    rewrite replace_suffix by exact Hl. rewrite app_nil_r, length_app.
    replace (List.length t + List.length l - List.length l)%nat
      with (List.length t + 0)%nat by lia.
    now rewrite firstn_app_2, app_nil_r.
  - now apply replace_other.
Qed.

Lemma serverUrl_api (site : str) :
  endsWith (lit "/api") site = false ->
  Extension.serverUrl (site ++ lit "/api") = site /\ Extension.serverUrl site = site.
Proof.
  intros H. unfold Extension.serverUrl. split.
  - change (Seq (Str "/api") Eol) with (suffixRe (lit "/api")).
    rewrite replace_suffix by discriminate. apply app_nil_r.
  - apply (replace_other (lit "/api")); [discriminate | exact H].
Qed.

(** The three suffixes the extension takes off with a pattern
    anchored at the end: the slash of an endpoint that is saved, the /api of
    the endpoint a dashboard address is made of, and the .git of the
    repository of an application.  The suffix is taken off once, a text
    without it is left as it is, and case is not ignored. *)
Theorem suffix_taken_off (s : str) :
  normalizeEndpoint s
  = (if endsWith (lit "/") s then firstn (List.length s - 1) s else s)
  /\ Extension.serverUrl s
     = (if endsWith (lit "/api") s then firstn (List.length s - 4) s else s)
  /\ Pattern.replaceFirst GitService.gitSuffix [] s
     = (if endsWith (lit ".git") s then firstn (List.length s - 4) s else s).
Proof.
  split; [|split].
  - apply (replace_suffix_spec (lit "/")). discriminate.
  - apply (replace_suffix_spec (lit "/api")). discriminate.
  - apply (replace_suffix_spec (lit ".git")). discriminate.
Qed.

(** ** What [promptAddServer] saves *)




(** ** The address of the dashboard *)

Definition withEndpoint (e : str) (server : DokployServerConfig) : DokployServerConfig :=
  {| id := id server; name := name server; endpoint := e |}.

(** A server saved with the address of its API and the same server saved
    with the address of its site open the same page of the dashboard. *)
Theorem openInBrowser_same_page (server : DokployServerConfig) (site : str)
  (projectId : str) (environmentId : option str) (applicationId : str) :
  endsWith (lit "/api") site = false ->
  Extension.openInBrowser (Some (withEndpoint (site ++ lit "/api") server))
    projectId environmentId applicationId
  = Extension.openInBrowser (Some (withEndpoint site server))
      projectId environmentId applicationId.
Proof.
  intros H. unfold Extension.openInBrowser. cbn [endpoint withEndpoint].
  destruct (serverUrl_api site H) as [E1 E2].
  now rewrite E1, E2.
Qed.

Lemma openInBrowser_same_page_witness :
  Extension.openInBrowser
    (Some (withEndpoint (lit "https://dokploy.example/api") demoServer))
    (lit "p1") (Some (lit "e1")) (lit "a1")
  = inr (lit "https://dokploy.example/dashboard/project/p1/environment/e1/services/application/a1").
Proof.
  exact (openInBrowser_same_page demoServer (lit "https://dokploy.example")
           (lit "p1") (Some (lit "e1")) (lit "a1") eq_refl).
Defined.

End ConfigFacts.
